(** * The poll-dispatch engine of [hpitclient.plugin.Plugin]

    A shallow embedding of [src/hpitclient/plugin.py].  The methods of
    [Plugin] become computations in a small monad that threads the state of
    the world, may raise a Python exception, and records the calls the engine
    makes to its collaborators and to user callables.

    What lives outside [plugin.py] (the transport, session and hook methods
    inherited from [MessageSenderMixin], the bodies of user callables, the
    clock) is not defined here: it is the interface [Externals], over which
    every definition and theorem is parametric. *)

From Stdlib Require Import ZArith.
From stdpp Require Import gmap strings list fin_maps functions.

Open Scope string_scope.
Open Scope list_scope.

(** ** Python values *)

(** A callable object.  [ident] names it: what it does when called is given
    by [call_fun] of [Externals].  [truth] is what [bool()] gives on it:
    [True] for a function, a bound method or a lambda; for an instance of a
    class that defines [__call__], whatever its [__bool__] or [__len__] says,
    taken here to be a constant of the object. *)
Record FunId := { ident : nat; truth : bool }.

(** A plain function: its truth value is [True]. *)
Definition function (n : nat) : FunId := {| ident := n; truth := true |}.
Coercion function : nat >-> FunId.

Definition Loc := positive.

(** The values that reach the engine: JSON scalars and callables. *)
Inductive Val :=
| VNone
| VBool (b : bool)
| VInt (z : Z)
| VStr (s : string)
| VFun (f : FunId).

(** [bool(v)], as used by [if v:] and [if not v:]. *)
Definition truthy (v : Val) : bool :=
  match v with
  | VNone => false
  | VBool b => b
  | VInt z => negb (z =? 0)%Z
  | VStr s => negb (String.eqb s "")
  | VFun f => truth f
  end.

(** [hasattr(v, "__call__")]. *)
Definition callable (v : Val) : bool :=
  match v with VFun _ => true | _ => false end.

(** [v is None]. *)
Definition is_None (v : Val) : bool :=
  match v with VNone => true | _ => false end.

Definition type_name (v : Val) : string :=
  match v with
  | VNone => "NoneType"
  | VBool _ => "bool"
  | VInt _ => "int"
  | VStr _ => "str"
  | VFun _ => "function"
  end.

(** ** Exceptions and results *)

(** [PluginPollError] and [BadCallbackException] are the two classes that
    [plugin.py] imports from [.exceptions] and raises itself.
    [OtherException] stands for any class unrelated to the ones the engine
    names in an [except] clause. *)
Inductive Exn :=
| KeyError (key : string)
| TypeError (msg : string)
| PluginPollError (msg : string)
| BadCallbackException (msg : string)
| KeyboardInterrupt
| OtherException (cls msg : string).

Inductive Result (A : Type) :=
| Ok (a : A)
| Raise (e : Exn).
Arguments Ok {A} a.
Arguments Raise {A} e.

(** ** Mappings in the heap *)

Abbreviation Dict := (gmap string Val).

(** Payload mappings are mutable objects shared between the caller of
    [_dispatch], the engine and the handlers: they live in a store and are
    passed by reference. *)
Abbreviation Store := (Loc -> Dict).

(** One element of [message_data]: the envelope keys read by [_dispatch].
    [message] is the reference to the payload mapping. *)
Record Message := {
  message_id : Val;
  sender_entity_id : Val;
  message_name : string;
  message : Loc
}.

(** An element of the value the broker sends under ["subscriptions"], as the
    loop of [list_subscriptions] meets it.  A string is a message name.  A
    JSON array or object in its place cannot be hashed, and the test
    [sub not in self.callbacks] raises [TypeError] on it: [type] is the name
    of its Python type, ["list"] or ["dict"].  The other scalars (null,
    numbers, booleans) are hashable and equal to no message name: the loop
    would enter them in [self.callbacks] beside the names, where no lookup
    by name meets them; they are left out of the list. *)
Inductive Sub :=
| Name (name : string)
| Unhashable (type : string).

(** The value under ["subscriptions"]: one that [for] can go through, with
    the elements it yields (those of an array, the keys of an object, the
    characters of a string), or one that cannot be iterated (null, a number,
    a boolean), with the name of its Python type. *)
Inductive Listing :=
| Iterable (subs : list Sub)
| NotIterable (type : string).

(** The JSON object returned by [_get_data]; a key the broker left out is
    [None] and indexing it raises [KeyError]. *)
Record Response := {
  subscriptions : option Listing;
  messages : option (list Message);
  transactions : option (list Loc)
}.

(** ** The plugin object: the attributes set by [__init__] *)

Record Plugin := {
  run_loop : bool;
  entity_id : string;
  api_key : string;
  wildcard_callback : Val;
  transaction_callback : Val;
  callbacks : gmap string Val;
  poll_wait : Z;
  time_last_poll : Z
}.

Definition set_run_loop (b : bool) (p : Plugin) : Plugin :=
  {| run_loop := b; entity_id := entity_id p; api_key := api_key p;
     wildcard_callback := wildcard_callback p;
     transaction_callback := transaction_callback p;
     callbacks := callbacks p; poll_wait := poll_wait p;
     time_last_poll := time_last_poll p |}.

Definition set_transaction_callback (v : Val) (p : Plugin) : Plugin :=
  {| run_loop := run_loop p; entity_id := entity_id p; api_key := api_key p;
     wildcard_callback := wildcard_callback p;
     transaction_callback := v;
     callbacks := callbacks p; poll_wait := poll_wait p;
     time_last_poll := time_last_poll p |}.

Definition set_callbacks (c : gmap string Val) (p : Plugin) : Plugin :=
  {| run_loop := run_loop p; entity_id := entity_id p; api_key := api_key p;
     wildcard_callback := wildcard_callback p;
     transaction_callback := transaction_callback p;
     callbacks := c; poll_wait := poll_wait p;
     time_last_poll := time_last_poll p |}.

Definition set_time_last_poll (t : Z) (p : Plugin) : Plugin :=
  {| run_loop := run_loop p; entity_id := entity_id p; api_key := api_key p;
     wildcard_callback := wildcard_callback p;
     transaction_callback := transaction_callback p;
     callbacks := callbacks p; poll_wait := poll_wait p;
     time_last_poll := t |}.

(** [Plugin.__init__(entity_id, api_key, wildcard_callback)], with [now] the
    reading of [time.time() * 1000]. *)
Definition init (eid key : string) (wildcard : Val) (now : Z) : Plugin :=
  {| run_loop := true; entity_id := eid; api_key := key;
     wildcard_callback := wildcard; transaction_callback := VNone;
     callbacks := ∅; poll_wait := 100; time_last_poll := now |}.

(** [Plugin.stop]. *)
Definition stop (p : Plugin) : Plugin := set_run_loop false p.

(** ** The world *)

(** Everything but the plugin object: the heap of mappings and the state of
    the broker, the session and the clock. *)
Record Outside (Env : Type) := {
  heap : Store;
  env : Env
}.
Arguments heap {Env} o.
Arguments env {Env} o.

Record World (Env : Type) := {
  self : Plugin;
  outside : Outside Env
}.
Arguments self {Env} w.
Arguments outside {Env} w.

Definition set_self {Env} (p : Plugin) (w : World Env) : World Env :=
  {| self := p; outside := outside w |}.

Definition set_outside {Env} (o : Outside Env) (w : World Env) : World Env :=
  {| self := self w; outside := o |}.

Definition set_heap {Env} (h : Store) (o : Outside Env) : Outside Env :=
  {| heap := h; env := env o |}.

(** ** The trace of calls made by the engine *)

(** Through which attribute of the plugin a callable was reached. *)
Inductive Slot :=
| Registered (name : string)
| Wildcard
| Transaction.

(** One entry per call that the code of [plugin.py] makes to a collaborator
    or to a user callable, with what the call returned or raised.  [EvCall]
    also keeps the contents the argument mapping had when the call was made.
    What a callee does on its own is part of its effect on the world and is
    not traced. *)
Inductive Event :=
| EvConnect (r : Result Val)
| EvDisconnect (r : Result Val)
| EvPost (endpoint : string) (data : Dict) (r : Result Val)
| EvGet (endpoint : string) (r : Result Response)
| EvHook (name : string) (r : Result Val)
| EvCall (via : Slot) (f : FunId) (arg : Loc) (seen : Dict) (r : Result Val)
| EvPollResponses
| EvDispatchResponses (r : Result Val).

(** ** The collaborators *)

(** The methods [Plugin] inherits from [MessageSenderMixin] (not part of
    [plugin.py]), the behaviour of user callables and the clock.  Transport,
    session and clock act on the outside only; hooks, user callables and the
    response channel run user code and may change anything, the plugin object
    included. *)
Class Externals (Env Responses : Type) := {
  connect : Outside Env -> Result Val * Outside Env;
  disconnect : Outside Env -> Result Val * Outside Env;
  _post_data : string -> Dict -> Outside Env -> Result Val * Outside Env;
  _get_data : string -> Outside Env -> Result Response * Outside Env;
  _try_hook : string -> World Env -> Result Val * World Env;
  _poll_responses : World Env -> Result Responses * World Env;
  _dispatch_responses : Responses -> World Env -> Result Val * World Env;
  call_fun : FunId -> Loc -> World Env -> Result Val * World Env;
  time_ms : Outside Env -> Z * Outside Env
}.

(** ** The monad *)

Definition M (Env A : Type) : Type :=
  World Env -> Result A * World Env * list Event.

Definition ret {Env A} (a : A) : M Env A := fun w => (Ok a, w, []).

Definition raise {Env A} (e : Exn) : M Env A := fun w => (Raise e, w, []).

Definition bind {Env A B} (m : M Env A) (k : A -> M Env B) : M Env B :=
  fun w =>
    match m w with
    | (Ok a, w1, e1) =>
        match k a w1 with
        | (r, w2, e2) => (r, w2, e1 ++ e2)
        end
    | (Raise e, w1, e1) => (Raise e, w1, e1)
    end.

Declare Scope py_scope.
Delimit Scope py_scope with py.
Notation "x <- m ;; k" := (bind m (fun x => k))
  (at level 100, m at next level, right associativity) : py_scope.
Notation "m ;; k" := (bind m (fun _ => k))
  (at level 100, right associativity) : py_scope.
Open Scope py_scope.

(** [try: body except ...:].  [clauses e] is the body of the first [except]
    clause that matches [e], or [None] when none does and [e] propagates.  An
    exception raised inside a clause is not offered to the sibling clauses. *)
Definition try_except {Env A} (body : M Env A)
    (clauses : Exn -> option (M Env A)) : M Env A :=
  fun w =>
    match body w with
    | (Ok a, w1, e1) => (Ok a, w1, e1)
    | (Raise e, w1, e1) =>
        match clauses e with
        | Some h =>
            match h w1 with
            | (r, w2, e2) => (r, w2, e1 ++ e2)
            end
        | None => (Raise e, w1, e1)
        end
    end.

(** Reading and writing attributes of [self]. *)
Definition gets {Env A} (f : Plugin -> A) : M Env A :=
  fun w => (Ok (f (self w)), w, []).

Definition modify {Env} (f : Plugin -> Plugin) : M Env unit :=
  fun w => (Ok tt, set_self (f (self w)) w, []).

(** A call to a collaborator that acts on the outside, traced by [ev]. *)
Definition outside_call {Env A} (f : Outside Env -> Result A * Outside Env)
    (ev : Result A -> list Event) : M Env A :=
  fun w =>
    match f (outside w) with
    | (r, o) => (r, set_outside o w, ev r)
    end.

(** A call into user code, traced by [ev]. *)
Definition user_call {Env A} (f : World Env -> Result A * World Env)
    (ev : Result A -> list Event) : M Env A :=
  fun w =>
    match f w with
    | (r, w') => (r, w', ev r)
    end.

(** [for x in l: body(x)]. *)
Fixpoint for_each {Env A} (body : A -> M Env unit) (l : list A) : M Env unit :=
  match l with
  | [] => ret tt
  | x :: xs => body x ;; for_each body xs
  end.

(** A [for] loop whose body may execute [return v]: the body yields [Some v]
    to return [v] from the enclosing function and [None] to go on. *)
Fixpoint for_return {Env A R} (body : A -> M Env (option R)) (l : list A)
    : M Env (option R) :=
  match l with
  | [] => ret None
  | x :: xs =>
      r <- body x ;;
      match r with
      | Some v => ret (Some v)
      | None => for_return body xs
      end
  end.

(** ** Control flow of the polling loop *)

(** How one pass through the body of [while self.run_loop:] ends: it falls
    through or executes [continue] ([Next]), executes [break], or executes
    [return v]. *)
Inductive Signal :=
| Next
| Break
| Return (v : Val).

(** How the [try] block of [start] ends: the loop condition was false, a
    [break] was executed, a [return v] was executed, [KeyboardInterrupt] was
    caught; [Unfinished] when the loop is still running after the number of
    passes allotted to it. *)
Inductive LoopEnd :=
| CondFalse
| Broke
| Returned (v : Val)
| Interrupted
| Unfinished.

(** What a call of [start] gives: it returned [v], or it is still polling. *)
Inductive StartEnd :=
| Finished (v : Val)
| Running.

(** ** The methods of [Plugin] *)

Section Engine.
Context {Env Responses : Type} {X : Externals Env Responses}.

(** [self._post_data(endpoint, {'message_name': name})]. *)
Definition post (endpoint name : string) : M Env Val :=
  outside_call (_post_data endpoint {["message_name" := VStr name]})
    (fun r => [EvPost endpoint {["message_name" := VStr name]} r]).

(** [self._get_data(endpoint)]. *)
Definition get (endpoint : string) : M Env Response :=
  outside_call (_get_data endpoint) (fun r => [EvGet endpoint r]).

(** [resp[key]]. *)
Definition getitem {A} (field : Response -> option A) (key : string)
    (resp : Response) : M Env A :=
  match field resp with
  | Some v => ret v
  | None => raise (KeyError key)
  end.

(** [self._try_hook(name)]. *)
Definition try_hook (name : string) : M Env Val :=
  user_call (_try_hook name) (fun r => [EvHook name r]).

(** [v(arg)]: calling something that is not callable raises [TypeError]
    before anything runs. *)
Definition call (via : Slot) (v : Val) (arg : Loc) : M Env Val :=
  match v with
  | VFun f =>
      fun w =>
        match call_fun f arg w with
        | (r, w') => (r, w', [EvCall via f arg (heap (outside w) arg) r])
        end
  | _ => raise (TypeError ("'" +:+ type_name v +:+ "' object is not callable"))
  end.

(** [d[k] = v] on the mapping at [l]. *)
Definition setitem (l : Loc) (k : string) (v : Val) : M Env unit :=
  fun w =>
    let h := heap (outside w) in
    (Ok tt, set_outside (set_heap (<[l := <[k := v]> (h l)]> h) (outside w)) w, []).

(** [self.callbacks[name]]. *)
Definition callbacks_getitem (name : string) : M Env Val :=
  cbs <- gets callbacks ;;
  match cbs !! name with
  | Some v => ret v
  | None => raise (KeyError name)
  end.

Definition register_transaction_callback (callback : Val) : M Env unit :=
  if negb (callable callback) then
    raise (BadCallbackException "The callback submitted is not callable.")
  else
    post "plugin/subscribe" "transaction" ;;
    modify (set_transaction_callback callback).

Definition clear_transaction_callback : M Env unit :=
  post "plugin/unsubscribe" "transaction" ;;
  modify (set_transaction_callback VNone).

(** [iter(v)], as [for sub in v:] calls it before its first pass. *)
Definition iterate (v : Listing) : M Env (list Sub) :=
  match v with
  | Iterable subs => ret subs
  | NotIterable type => raise (TypeError ("'" +:+ type +:+ "' object is not iterable"))
  end.

(** One pass of the loop of [list_subscriptions]: the membership test hashes
    [sub]. *)
Definition note_subscription (sub : Sub) : M Env unit :=
  match sub with
  | Name name =>
      cbs <- gets callbacks ;;
      match cbs !! name with
      | None => modify (fun p => set_callbacks (<[name := VNone]> (callbacks p)) p)
      | Some _ => ret tt
      end
  | Unhashable type => raise (TypeError ("unhashable type: '" +:+ type +:+ "'"))
  end.

(** The mapping returned is [self.callbacks] itself. *)
Definition list_subscriptions : M Env (gmap string Val) :=
  resp <- get "plugin/subscription/list" ;;
  subscriptions <- getitem subscriptions "subscriptions" resp ;;
  subs <- iterate subscriptions ;;
  for_each note_subscription subs ;;
  gets callbacks.

(** One pass of the loop of [subscribe]. *)
Definition subscribe_entry (entry : string * Val) : M Env unit :=
  post "plugin/subscribe" entry.1 ;;
  modify (fun p => set_callbacks (<[entry.1 := entry.2]> (callbacks p)) p).

(** [messages.items()] is the list of entries in the order of the
    mapping. *)
Definition subscribe (messages : list (string * Val)) : M Env unit :=
  for_each subscribe_entry messages.

Definition unsubscribe_name (message_name : string) : M Env unit :=
  cbs <- gets callbacks ;;
  match cbs !! message_name with
  | Some _ =>
      post "plugin/unsubscribe" message_name ;;
      modify (fun p => set_callbacks (delete message_name (callbacks p)) p)
  | None => ret tt
  end.

Definition unsubscribe (message_names : list string) : M Env unit :=
  for_each unsubscribe_name message_names.

Definition _poll : M Env (list Message) :=
  resp <- get "plugin/message/list" ;;
  getitem messages "messages" resp.

(** One pass of the loop of [_handle_transactions]. *)
Definition handle_transaction (item : Loc) : M Env (option bool) :=
  cb <- gets transaction_callback ;;
  if truthy cb then
    v <- call Transaction cb item ;;
    if negb (truthy v) then ret (Some false) else ret None
  else ret None.

(** The loop of [_handle_transactions] and the [return True] after it. *)
Definition process_transactions (transaction_data : list Loc) : M Env bool :=
  r <- for_return handle_transaction transaction_data ;;
  match r with
  | Some b => ret b
  | None => ret true
  end.

Definition _handle_transactions : M Env bool :=
  resp <- get "plugin/transaction/list" ;;
  transaction_data <- getitem transactions "transactions" resp ;;
  process_transactions transaction_data.

(** The two assignments that inject the envelope into the payload. *)
Definition enrich (message_item : Message) : M Env unit :=
  setitem (message message_item) "message_id" (message_id message_item) ;;
  setitem (message message_item) "sender_entity_id" (sender_entity_id message_item).

(** The [try] statement of [_dispatch]. *)
Definition route (message_item : Message) : M Env unit :=
  let name := message_name message_item in
  let payload := message message_item in
  try_except
    (cb <- callbacks_getitem name ;;
     call (Registered name) cb payload ;;
     ret tt)
    (fun e =>
       match e with
       | KeyError _ =>
           Some (wc <- gets wildcard_callback ;;
                 if truthy wc then
                   try_except
                     (call Wildcard wc payload ;; ret tt)
                     (fun e' =>
                        match e' with
                        | TypeError _ =>
                            Some (raise (PluginPollError "Wildcard Callback is not a callable"))
                        | _ => None
                        end)
                 else ret tt)
       | TypeError _ =>
           Some (cb <- callbacks_getitem name ;;
                 if is_None cb then
                   raise (PluginPollError
                            ("No callback registered for message: <" +:+ name +:+ ">"))
                 else raise e)
       | _ => None
       end).

(** One pass of the loop of [_dispatch]. *)
Definition dispatch_message (message_item : Message) : M Env unit :=
  enrich message_item ;;
  route message_item.

Definition _dispatch (message_data : list Message) : M Env bool :=
  h <- try_hook "pre_dispatch_messages" ;;
  if negb (truthy h) then ret false
  else
    for_each dispatch_message message_data ;;
    h <- try_hook "post_dispatch_messages" ;;
    if negb (truthy h) then ret false
    else ret true.

(** [time.time() * 1000], in milliseconds. *)
Definition now : M Env Z :=
  fun w =>
    match time_ms (outside w) with
    | (t, o) => (Ok t, set_outside o w, [])
    end.

(** The body of [while self.run_loop:]. *)
Definition cycle : M Env Signal :=
  cur_time <- now ;;
  last <- gets time_last_poll ;;
  wait <- gets poll_wait ;;
  if (cur_time - last <? wait)%Z then ret Next
  else
    modify (set_time_last_poll cur_time) ;;
    h <- try_hook "pre_poll_messages" ;;
    if negb (truthy h) then ret Break else
    message_data <- _poll ;;
    h <- try_hook "post_poll_messages" ;;
    if negb (truthy h) then ret Break else
    d <- _dispatch message_data ;;
    if negb d then ret (Return (VBool false)) else
    h <- try_hook "pre_handle_transactions" ;;
    if negb (truthy h) then ret Break else
    t <- _handle_transactions ;;
    if negb t then ret (Return (VBool false)) else
    h <- try_hook "post_handle_transactions" ;;
    if negb (truthy h) then ret Break else
    h <- try_hook "pre_poll_responses" ;;
    if negb (truthy h) then ret Break else
    responses <- user_call _poll_responses (fun _ => [EvPollResponses]) ;;
    h <- try_hook "post_poll_responses" ;;
    if negb (truthy h) then ret Break else
    d <- user_call (_dispatch_responses responses) (fun r => [EvDispatchResponses r]) ;;
    if negb (truthy d) then ret Break else
    ret Next.

(** [while self.run_loop:], for at most [fuel] passes. *)
Fixpoint poll_loop (fuel : nat) : M Env LoopEnd :=
  match fuel with
  | O => ret Unfinished
  | S n =>
      go <- gets run_loop ;;
      if negb go then ret CondFalse
      else
        s <- cycle ;;
        match s with
        | Next => poll_loop n
        | Break => ret Broke
        | Return v => ret (Returned v)
        end
  end.

(** The [try ... except KeyboardInterrupt: pass] of [start]. *)
Definition guarded_loop (fuel : nat) : M Env LoopEnd :=
  try_except (poll_loop fuel)
    (fun e =>
       match e with
       | KeyboardInterrupt => Some (ret Interrupted)
       | _ => None
       end).

Definition start (fuel : nat) : M Env StartEnd :=
  outside_call connect (fun r => [EvConnect r]) ;;
  list_subscriptions ;;
  e <- guarded_loop fuel ;;
  match e with
  | Returned v => ret (Finished v)
  | Unfinished => ret Running
  | CondFalse | Broke | Interrupted =>
      outside_call disconnect (fun r => [EvDisconnect r]) ;;
      ret (Finished VNone)
  end.

End Engine.

(** ** The hosting application driving the registry *)

(** The three registry operations the hosting application may call. *)
Inductive Op :=
| OpSubscribe (messages : list (string * Val))
| OpUnsubscribe (message_names : list string)
| OpListSubscriptions.

Section Application.
Context {Env Responses : Type} {X : Externals Env Responses}.

Definition run_op (op : Op) : M Env unit :=
  match op with
  | OpSubscribe messages => subscribe messages
  | OpUnsubscribe message_names => unsubscribe message_names
  | OpListSubscriptions => list_subscriptions ;; ret tt
  end.

(** The application calls the operations one after the other and carries on
    whatever an operation raises: the world and the trace it is left with. *)
Fixpoint run_ops (ops : list Op) (w : World Env) : World Env * list Event :=
  match ops with
  | [] => (w, [])
  | op :: rest =>
      match run_op op w with
      | (_, w1, e1) =>
          match run_ops rest w1 with
          | (w2, e2) => (w2, e1 ++ e2)
          end
      end
  end.

End Application.

(** ** What the theorems speak about *)

(** The world after the two assignments of [_dispatch] that inject the
    envelope of [message_item] into its payload. *)
Definition enriched {Env} (message_item : Message) (w : World Env) : World Env :=
  let l := message message_item in
  let h := heap (outside w) in
  let h1 := <[l := <[("message_id") := message_id message_item]> (h l)]> h in
  let h2 := <[l := <[("sender_entity_id") := sender_entity_id message_item]> (h1 l)]> h1 in
  set_outside (set_heap h2 (set_heap h1 (outside w)))
    (set_outside (set_heap h1 (outside w)) w).

(** The payload a handler is meant to see: the original fields plus the two
    envelope keys. *)
Definition enriched_payload (message_item : Message) (original : Dict) : Dict :=
  <[("sender_entity_id") := sender_entity_id message_item]>
    (<[("message_id") := message_id message_item]> original).

Definition is_connect (ev : Event) : bool :=
  match ev with EvConnect _ => true | _ => false end.

Definition is_disconnect (ev : Event) : bool :=
  match ev with EvDisconnect _ => true | _ => false end.

(** A call of a handler found in [self.callbacks]. *)
Definition is_registered_call (ev : Event) : bool :=
  match ev with EvCall (Registered _) _ _ _ _ => true | _ => false end.

(** A call of a user callable, through any slot. *)
Definition is_call (ev : Event) : bool :=
  match ev with EvCall _ _ _ _ _ => true | _ => false end.

(** A hook that ran and returned a false value. *)
Definition hook_false (ev : Event) : bool :=
  match ev with EvHook _ (Ok v) => negb (truthy v) | _ => false end.

(** The broker acknowledged a subscribe request for [name]. *)
Definition subscribe_acked (name : string) (evs : list Event) : Prop :=
  ∃ v, EvPost "plugin/subscribe" {["message_name" := VStr name]} (Ok v) ∈ evs.

(** The broker listed [name] among the subscriptions. *)
Definition broker_listed (name : string) (evs : list Event) : Prop :=
  ∃ resp subs,
    EvGet "plugin/subscription/list" (Ok resp) ∈ evs ∧
    subscriptions resp = Some (Iterable subs) ∧ Name name ∈ subs.

(** Every name in the registry is accounted for by the trace: the broker
    acknowledged a subscribe request for it, or the broker listed it and the
    registry holds [None] for it. *)
Definition registry_backed {Env} (w : World Env) (evs : list Event) : Prop :=
  ∀ name h,
    callbacks (self w) !! name = Some h ->
    subscribe_acked name evs ∨ (broker_listed name evs ∧ h = VNone).

(** How the polling loop may end once a hook has said no. *)
Definition loop_stopped (r : Result LoopEnd) : Prop :=
  r = Ok Broke ∨ r = Ok (Returned (VBool false)).

(** How one pass of the loop may end once a hook has said no. *)
Definition cycle_stopped (r : Result Signal) : Prop :=
  r = Ok Break ∨ r = Ok (Return (VBool false)).

(** Whom the engine called. *)
Inductive Kind :=
| KSession
| KTransport
| KHook
| KCall
| KResponses.

Definition kind (ev : Event) : Kind :=
  match ev with
  | EvConnect _ | EvDisconnect _ => KSession
  | EvPost _ _ _ | EvGet _ _ => KTransport
  | EvHook _ _ => KHook
  | EvCall _ _ _ _ _ => KCall
  | EvPollResponses | EvDispatchResponses _ => KResponses
  end.

Definition not_session (k : Kind) : Prop := k ≠ KSession.

Definition not_hook (k : Kind) : Prop := k ≠ KHook.

(** A computation that only makes calls of the kinds [K]. *)
Definition emits {Env A} (K : Kind -> Prop) (m : M Env A) : Prop :=
  ∀ w, Forall (fun ev => K (kind ev)) (m w).2.

(** A computation whose value, when it returns one, satisfies [Q]. *)
Definition returns {Env A} (Q : A -> Prop) (m : M Env A) : Prop :=
  ∀ w, match (m w).1.1 with Ok a => Q a | Raise _ => True end.

(** No hook said no in the trace. *)
Definition no_veto (evs : list Event) : Prop :=
  Forall (fun ev => hook_false ev = false) evs.

(** A computation in which a hook that says no is the last thing that
    happens, and which then ends as [stopped] says. *)
Definition veto_last {Env A} (stopped : Result A -> Prop) (m : M Env A) : Prop :=
  ∀ w,
    no_veto (m w).2 ∨
    ∃ init last,
      (m w).2 = init ++ [last] ∧ no_veto init ∧ hook_false last = true ∧
      stopped (m w).1.1.

Section Consumed.
Context {Env Responses : Type} {X : Externals Env Responses}.

(** Every record of the batch was dealt with: when its turn came, either the
    transaction slot held a false value ([None], or a callable whose truth
    value is false) and the record was dropped, or the slot held a callable
    whose truth value is true, which was called on the record and returned a
    true value.  The indices are the worlds before and after and the calls
    made. *)
Inductive all_consumed : list Loc -> World Env -> World Env -> list Event -> Prop :=
| consumed_nil w :
    all_consumed [] w w []
| consumed_drop item rest w w' evs :
    truthy (transaction_callback (self w)) = false ->
    all_consumed rest w w' evs ->
    all_consumed (item :: rest) w w' evs
| consumed_call item rest f v w w1 w' evs :
    transaction_callback (self w) = VFun f ->
    truthy (VFun f) = true ->
    call_fun f item w = (Ok v, w1) ->
    truthy v = true ->
    all_consumed rest w1 w' evs ->
    all_consumed (item :: rest) w w'
      (EvCall Transaction f item (heap (outside w) item) (Ok v) :: evs).
End Consumed.

(** ** Further notions *)

(** The plugin object with its registry blanked: what the registry
    operations leave alone. *)
Definition besides_registry (p : Plugin) : Plugin := set_callbacks ∅ p.

(** The plugin object with its transaction slot blanked. *)
Definition besides_transaction_callback (p : Plugin) : Plugin :=
  set_transaction_callback VNone p.

(** The names at the head of a listing, up to its first element that cannot
    be hashed, and the type of that element when there is one: how far the
    loop of [list_subscriptions] gets, and what stops it. *)
Fixpoint names_before (subs : list Sub) : list string :=
  match subs with
  | Name name :: rest => name :: names_before rest
  | _ => []
  end.

Fixpoint first_unhashable (subs : list Sub) : option string :=
  match subs with
  | [] => None
  | Name _ :: rest => first_unhashable rest
  | Unhashable type :: _ => Some type
  end.

(** What the transaction slot may hold. *)
Definition slot_ok (v : Val) : Prop := v = VNone ∨ callable v = true.

(** The names passed to [_try_hook] by the calls of a trace, in order: the
    hook points that the code of [plugin.py] itself went through.  What the
    response channel of the mixin runs inside [_poll_responses] and
    [_dispatch_responses] is not in the trace. *)
Definition hooks_of (evs : list Event) : list string :=
  omap (fun ev => match ev with EvHook name _ => Some name | _ => None end) evs.

(** The hooks of [_dispatch], in the order of its text. *)
Definition dispatch_hooks : list string :=
  ["pre_dispatch_messages"; "post_dispatch_messages"].

(** The hook points written in the loop of [start], those of [_dispatch]
    included, in the order of the text. *)
Definition cycle_hooks : list string :=
  ["pre_poll_messages"; "post_poll_messages";
   "pre_dispatch_messages"; "post_dispatch_messages";
   "pre_handle_transactions"; "post_handle_transactions";
   "pre_poll_responses"; "post_poll_responses"].

(** A computation that goes through the hook points [l] in order, as far as
    it gets, and through all of them when it ends in [done]. *)
Definition runs_hooks {Env A} (l : list string) (done : Result A -> Prop)
    (m : M Env A) : Prop :=
  ∀ w, hooks_of (m w).2 `prefix_of` l ∧ (done (m w).1.1 -> hooks_of (m w).2 = l).

(** The two operations on the transaction slot. *)
Inductive SlotOp :=
| OpRegister (callback : Val)
| OpClear.

Section SlotApplication.
Context {Env Responses : Type} {X : Externals Env Responses}.

Definition run_slot_op (op : SlotOp) : M Env unit :=
  match op with
  | OpRegister callback => register_transaction_callback callback
  | OpClear => clear_transaction_callback
  end.

(** As [run_ops]: the application carries on whatever an operation raises. *)
Fixpoint run_slot_ops (ops : list SlotOp) (w : World Env) : World Env * list Event :=
  match ops with
  | [] => (w, [])
  | op :: rest =>
      match run_slot_op op w with
      | (_, w1, e1) =>
          match run_slot_ops rest w1 with
          | (w2, e2) => (w2, e1 ++ e2)
          end
      end
  end.

End SlotApplication.

Section Passes.
Context {Env Responses : Type} {X : Externals Env Responses}.


(** The body of the loop of [start] from [self.time_last_poll = cur_time]
    on: what a pass does once the waiting time is over. *)
Definition polling_pass (cur_time : Z) : M Env Signal :=
  modify (set_time_last_poll cur_time) ;;
  h <- try_hook "pre_poll_messages" ;;
  if negb (truthy h) then ret Break else
  message_data <- _poll ;;
  h <- try_hook "post_poll_messages" ;;
  if negb (truthy h) then ret Break else
  d <- _dispatch message_data ;;
  if negb d then ret (Return (VBool false)) else
  h <- try_hook "pre_handle_transactions" ;;
  if negb (truthy h) then ret Break else
  t <- _handle_transactions ;;
  if negb t then ret (Return (VBool false)) else
  h <- try_hook "post_handle_transactions" ;;
  if negb (truthy h) then ret Break else
  h <- try_hook "pre_poll_responses" ;;
  if negb (truthy h) then ret Break else
  responses <- user_call _poll_responses (fun _ => [EvPollResponses]) ;;
  h <- try_hook "post_poll_responses" ;;
  if negb (truthy h) then ret Break else
  d <- user_call (_dispatch_responses responses) (fun r => [EvDispatchResponses r]) ;;
  if negb (truthy d) then ret Break else
  ret Next.

End Passes.

(** ** Concrete collaborators *)

Module Scenario.

(** What the broker and the hooks do in a scenario. *)
Record Script := {
  listed : list string;
  inbox : list Message;
  ledger : list Loc;
  refused : list string;
  vetoes : list string
}.

(** The user callables of the scenarios. *)
Definition behaviour (f : FunId) (arg : Loc) (w : World Z) : Result Val * World Z :=
  match ident f with
  | 0 => (Ok VNone, w)
  | 1 => (Ok (VBool true), w)
  | 2 => (Raise (KeyError "score"), w)
  | 3 => (Ok (VBool false), w)
  | 4 => (Ok (VBool true), set_self (stop (self w)) w)
  | _ => (Raise KeyboardInterrupt, w)
  end.

Definition has (name : string) (l : list string) : bool :=
  existsb (String.eqb name) l.

Definition requested (data : Dict) : string :=
  match data !! "message_name" with
  | Some (VStr s) => s
  | _ => ""
  end.

(** The clock is the environment: it advances by 100 ms at each reading.
    The broker refuses the requests about the names in [refused]; the hooks
    in [vetoes] return [False]. *)
Definition scripted (s : Script) : Externals Z unit :=
  {| connect o := (Ok VNone, o);
     disconnect o := (Ok VNone, o);
     _post_data endpoint data o :=
       if has (requested data) (refused s)
       then (Raise (OtherException "ConnectionError" "refused"), o)
       else (Ok VNone, o);
     _get_data endpoint o :=
       (Ok {| subscriptions := Some (Iterable (Name <$> listed s));
              messages := Some (inbox s);
              transactions := Some (ledger s) |}, o);
     _try_hook name w := (Ok (VBool (negb (has name (vetoes s)))), w);
     _poll_responses w := (Ok tt, w);
     _dispatch_responses _ w := (Ok (VBool true), w);
     call_fun := behaviour;
     time_ms o := (env o, {| heap := heap o; env := (env o + 100)%Z |}) |}.

Definition quiet_broker : Script :=
  {| listed := []; inbox := []; ledger := []; refused := []; vetoes := [] |}.

(** A heap with the payload [{"score": 90}] at location 1. *)
Definition heap0 : Store :=
  <[1%positive := {["score" := VInt 90]}]> (fun _ => ∅).

Definition world_of (p : Plugin) : World Z :=
  {| self := p; outside := {| heap := heap0; env := 1000%Z |} |}.

Definition fresh (wildcard : Val) : Plugin := init "plugin-1" "secret" wildcard 0.

Definition with_callbacks (l : list (string * Val)) (p : Plugin) : Plugin :=
  set_callbacks (list_to_map l) p.

Definition grade_update : Message :=
  {| message_id := VStr "1"; sender_entity_id := VStr "tutorA";
     message_name := "grade_update"; message := 1%positive |}.

Definition unknown_event : Message :=
  {| message_id := VStr "2"; sender_entity_id := VStr "tutorA";
     message_name := "unknown_event"; message := 1%positive |}.

(** The broker lists a subscription the plugin never asked for. *)
Definition listing_broker : Script :=
  {| listed := ["grade_update"]; inbox := []; ledger := [];
     refused := []; vetoes := [] |}.

(** The broker refuses to subscribe the plugin to ["b"]. *)
Definition refusing_broker : Script :=
  {| listed := []; inbox := []; ledger := []; refused := ["b"]; vetoes := [] |}.

(** The broker has one transaction record to hand out at each poll. *)
Definition ledger_broker : Script :=
  {| listed := []; inbox := []; ledger := [1%positive];
     refused := []; vetoes := [] |}.

(** The hook [name] says no. *)
Definition veto (name : string) : Script :=
  {| listed := []; inbox := []; ledger := []; refused := []; vetoes := [name] |}.

End Scenario.

(** More collaborators, for the properties beyond the dispatch and
    lifecycle scenarios above. *)
Module Workshop.

(** The clock reads past 1150 ms: with the clock of [Scenario.scripted],
    which starts at 1000 ms in [Scenario.world_of], the second pass of the
    loop has begun. *)
Definition late (w : World Z) : bool := (1150 <? env (outside w))%Z.

(** More user callables: 10 raises [TypeError]; 11 puts [None] in the
    registry under ["grade_update"] and raises [TypeError]; 12 removes
    ["grade_update"] from the registry and raises [TypeError]; 13 raises a
    [ValueError]; 14, 15 and 16 return [True] until it is [late], when 14
    calls [stop] and returns [True], 15 raises [KeyboardInterrupt] and 16
    raises a [ValueError]; the others are those of [Scenario.behaviour]. *)
Definition behaviour (f : FunId) (arg : Loc) (w : World Z) : Result Val * World Z :=
  match ident f with
  | 10 => (Raise (TypeError "unsupported operand"), w)
  | 11 =>
      (Raise (TypeError "unsupported operand"),
       set_self (set_callbacks (<[("grade_update") := VNone]> (callbacks (self w))) (self w)) w)
  | 12 =>
      (Raise (TypeError "unsupported operand"),
       set_self (set_callbacks (delete "grade_update" (callbacks (self w))) (self w)) w)
  | 13 => (Raise (OtherException "ValueError" "bad score"), w)
  | 14 => (Ok (VBool true), if late w then set_self (stop (self w)) w else w)
  | 15 => (if late w then Raise KeyboardInterrupt else Ok (VBool true), w)
  | 16 =>
      (if late w then Raise (OtherException "ValueError" "bad score")
       else Ok (VBool true), w)
  | _ => Scenario.behaviour f arg w
  end.

(** An instance of a class that defines [__call__] and whose [__len__] gives
    0, so that [bool()] of it is [False]; called, it does what callable 1
    does and returns [True]. *)
Definition falsy_callable : Val := VFun {| ident := 1; truth := false |}.

(** The collaborators of [Scenario.scripted], with the callables above. *)
Definition scripted (s : Scenario.Script) : Externals Z unit :=
  {| connect := @connect _ _ (Scenario.scripted s);
     disconnect := @disconnect _ _ (Scenario.scripted s);
     _post_data := @_post_data _ _ (Scenario.scripted s);
     _get_data := @_get_data _ _ (Scenario.scripted s);
     _try_hook := @_try_hook _ _ (Scenario.scripted s);
     _poll_responses := @_poll_responses _ _ (Scenario.scripted s);
     _dispatch_responses := @_dispatch_responses _ _ (Scenario.scripted s);
     call_fun := behaviour;
     time_ms := @time_ms _ _ (Scenario.scripted s) |}.

(** A broker that cannot be reached: [connect] raises. *)
Definition unreachable : Externals Z unit :=
  {| connect o := (Raise (OtherException "ConnectionError" "unreachable"), o);
     disconnect := @disconnect _ _ (Scenario.scripted Scenario.quiet_broker);
     _post_data := @_post_data _ _ (Scenario.scripted Scenario.quiet_broker);
     _get_data := @_get_data _ _ (Scenario.scripted Scenario.quiet_broker);
     _try_hook := @_try_hook _ _ (Scenario.scripted Scenario.quiet_broker);
     _poll_responses := @_poll_responses _ _ (Scenario.scripted Scenario.quiet_broker);
     _dispatch_responses := @_dispatch_responses _ _ (Scenario.scripted Scenario.quiet_broker);
     call_fun := behaviour;
     time_ms := @time_ms _ _ (Scenario.scripted Scenario.quiet_broker) |}.

(** A broker whose answers lack the keys the plugin reads. *)
Definition malformed : Externals Z unit :=
  {| connect := @connect _ _ (Scenario.scripted Scenario.quiet_broker);
     disconnect := @disconnect _ _ (Scenario.scripted Scenario.quiet_broker);
     _post_data := @_post_data _ _ (Scenario.scripted Scenario.quiet_broker);
     _get_data endpoint o :=
       (Ok {| subscriptions := None; messages := None; transactions := None |}, o);
     _try_hook := @_try_hook _ _ (Scenario.scripted Scenario.quiet_broker);
     _poll_responses := @_poll_responses _ _ (Scenario.scripted Scenario.quiet_broker);
     _dispatch_responses := @_dispatch_responses _ _ (Scenario.scripted Scenario.quiet_broker);
     call_fun := behaviour;
     time_ms := @time_ms _ _ (Scenario.scripted Scenario.quiet_broker) |}.

(** A broker that answers every request with [listing] under
    ["subscriptions"]. *)
Definition garbled (listing : Listing) : Externals Z unit :=
  {| connect := @connect _ _ (Scenario.scripted Scenario.quiet_broker);
     disconnect := @disconnect _ _ (Scenario.scripted Scenario.quiet_broker);
     _post_data := @_post_data _ _ (Scenario.scripted Scenario.quiet_broker);
     _get_data endpoint o :=
       (Ok {| subscriptions := Some listing; messages := Some [];
              transactions := Some [] |}, o);
     _try_hook := @_try_hook _ _ (Scenario.scripted Scenario.quiet_broker);
     _poll_responses := @_poll_responses _ _ (Scenario.scripted Scenario.quiet_broker);
     _dispatch_responses := @_dispatch_responses _ _ (Scenario.scripted Scenario.quiet_broker);
     call_fun := behaviour;
     time_ms := @time_ms _ _ (Scenario.scripted Scenario.quiet_broker) |}.

(** A second payload, at location 2, and a message that carries it. *)
Definition heap2 : Store :=
  <[2%positive := {["score" := VInt 55]}]> Scenario.heap0.

Definition world_of (p : Plugin) : World Z :=
  {| self := p; outside := {| heap := heap2; env := 1000%Z |} |}.

Definition quiz_result : Message :=
  {| message_id := VStr "3"; sender_entity_id := VStr "tutorB";
     message_name := "quiz_result"; message := 2%positive |}.

(** The broker refuses every request about ["grade_update"]. *)
Definition stubborn_broker : Scenario.Script :=
  {| Scenario.listed := ["grade_update"; "quiz_result"]; Scenario.inbox := [];
     Scenario.ledger := []; Scenario.refused := ["grade_update"; "transaction"];
     Scenario.vetoes := [] |}.

End Workshop.


(** * Properties *)

(** ** The monad and the two assignments of [_dispatch] *)

Section Basics.
Context {Env : Type}.

Lemma bind_ok {A B} (m : M Env A) (k : A -> M Env B) w a w1 :
  m w = (Ok a, w1, []) -> bind m k w = k a w1.
Proof.
  intros Hm. unfold bind. rewrite Hm.
  destruct (k a w1) as [[r w2] e2]. reflexivity.
Qed.

Lemma bind_run {A B} (m : M Env A) (k : A -> M Env B) w :
  bind m k w =
    match m w with
    | (Ok a, w1, e1) => ((k a w1).1.1, (k a w1).1.2, e1 ++ (k a w1).2)
    | (Raise e, w1, e1) => (Raise e, w1, e1)
    end.
Proof.
  unfold bind. destruct (m w) as [[[a|e] w1] e1]; [|reflexivity].
  destruct (k a w1) as [[r w2] e2]. reflexivity.
Qed.

Lemma for_each_app {A} (body : A -> M Env unit) (l1 l2 : list A) w w1 e1 :
  for_each body l1 w = (Ok tt, w1, e1) ->
  for_each body (l1 ++ l2) w =
    ((for_each body l2 w1).1.1, (for_each body l2 w1).1.2,
     e1 ++ (for_each body l2 w1).2).
Proof.
  revert w e1. induction l1 as [|x l1 IH]; intros w e1 H; simpl in *.
  - inversion H; subst. destruct (for_each body l2 w1) as [[r w2] e2]. reflexivity.
  - unfold bind in *. destruct (body x w) as [[[[]|e] wx] ex]; [|discriminate].
    destruct (for_each body l1 wx) as [[r' w'] e'] eqn:Hl.
    inversion H; subst. rewrite (IH _ _ Hl). simpl.
    rewrite app_assoc. reflexivity.
Qed.

Lemma for_each_cons_run {A} (body : A -> M Env unit) x xs (w : World Env) :
  for_each body (x :: xs) w =
    match body x w with
    | (Ok _, w1, e1) =>
        ((for_each body xs w1).1.1, (for_each body xs w1).1.2,
         e1 ++ (for_each body xs w1).2)
    | (Raise e, w1, e1) => (Raise e, w1, e1)
    end.
Proof.
  simpl. unfold bind. destruct (body x w) as [[[[]|e] w1] e1]; [|reflexivity].
  destruct (for_each body xs w1) as [[r w2] e2]. reflexivity.
Qed.

Lemma enriched_self (m : Message) (w : World Env) : self (enriched m w) = self w.
Proof. reflexivity. Qed.

Lemma enriched_payload_at (m : Message) (w : World Env) :
  heap (outside (enriched m w)) (message m) =
    enriched_payload m (heap (outside w) (message m)).
Proof.
  unfold enriched, enriched_payload. simpl.
  rewrite !fn_lookup_insert. reflexivity.
Qed.

Lemma enriched_elsewhere (m : Message) (w : World Env) (l : Loc) :
  l ≠ message m -> heap (outside (enriched m w)) l = heap (outside w) l.
Proof.
  intros Hl. unfold enriched. simpl.
  rewrite !fn_lookup_insert_ne by congruence. reflexivity.
Qed.

Lemma enriched_message_id (m : Message) (w : World Env) :
  heap (outside (enriched m w)) (message m) !! "message_id" = Some (message_id m).
Proof.
  rewrite enriched_payload_at. unfold enriched_payload.
  rewrite lookup_insert_ne by discriminate. apply lookup_insert_eq.
Qed.

Lemma enriched_sender_entity_id (m : Message) (w : World Env) :
  heap (outside (enriched m w)) (message m) !! "sender_entity_id" =
    Some (sender_entity_id m).
Proof. rewrite enriched_payload_at. apply lookup_insert_eq. Qed.

Lemma enriched_other_keys (m : Message) (w : World Env) (k : string) :
  k ≠ "message_id" -> k ≠ "sender_entity_id" ->
  heap (outside (enriched m w)) (message m) !! k =
    heap (outside w) (message m) !! k.
Proof.
  intros H1 H2. rewrite enriched_payload_at. unfold enriched_payload.
  rewrite !lookup_insert_ne by congruence. reflexivity.
Qed.
End Basics.

Section DispatchProps.
Context {Env Responses : Type} {X : Externals Env Responses}.

Lemma enrich_run (m : Message) (w : World Env) :
  enrich m w = (Ok tt, enriched m w, []).
Proof. reflexivity. Qed.

Lemma dispatch_message_run (m : Message) (w : World Env) :
  dispatch_message m w = route m (enriched m w).
Proof.
  exact (bind_ok (enrich m) (fun _ => route m) w tt _ (enrich_run m w)).
Qed.

(** A name missing from the registry, no wildcard: the [except KeyError]
    clause does nothing. *)
Lemma route_unregistered_no_wildcard (m : Message) (w : World Env) :
  callbacks (self w) !! message_name m = None ->
  truthy (wildcard_callback (self w)) = false ->
  route m w = (Ok tt, w, []).
Proof.
  intros Hreg Hwc. unfold route, try_except, bind, callbacks_getitem, gets, bind.
  simpl. rewrite Hreg. simpl. rewrite Hwc. reflexivity.
Qed.

(** A name registered with [None]: calling it raises [TypeError], which the
    second clause turns into [PluginPollError]. *)
Lemma route_registered_None (m : Message) (w : World Env) :
  callbacks (self w) !! message_name m = Some VNone ->
  route m w =
    (Raise (PluginPollError
              ("No callback registered for message: <" +:+ message_name m +:+ ">")),
     w, []).
Proof.
  intros Hreg. unfold route, try_except, bind, callbacks_getitem, gets, bind.
  simpl. rewrite Hreg. simpl. rewrite Hreg. reflexivity.
Qed.

End DispatchProps.

Section RouteProps.
Context {Env Responses : Type} {X : Externals Env Responses}.

Lemma callbacks_getitem_run (name : string) (w : World Env) :
  callbacks_getitem name w =
    match callbacks (self w) !! name with
    | Some v => (Ok v, w, [])
    | None => (Raise (KeyError name), w, [])
    end.
Proof.
  unfold callbacks_getitem, bind, gets. simpl.
  destruct (callbacks (self w) !! name); reflexivity.
Qed.

Ltac route_step :=
  match goal with
  | |- context [callbacks_getitem ?n ?w] => rewrite (callbacks_getitem_run n w)
  | |- context [match callbacks (self ?w) !! ?n with _ => _ end] =>
      destruct (callbacks (self w) !! n) as [[]|] eqn:?
  | |- context [call_fun ?f ?a ?w] =>
      destruct (call_fun f a w) as [[?|[]] ?] eqn:?
  | |- context [truthy ?v] => destruct (truthy v) eqn:?
  | |- context [wildcard_callback (self ?w)] =>
      destruct (wildcard_callback (self w)) eqn:?
  end; simpl in *; try discriminate.

Ltac run_route :=
  unfold route, try_except, bind, call, gets, ret, raise; simpl;
  repeat route_step.

Lemma route_calls_payload (m : Message) (w : World Env) :
  Forall (fun ev => match ev with
                    | EvCall _ _ arg _ _ => arg = message m
                    | _ => False
                    end) (route m w).2.
Proof.
  run_route; repeat constructor.
Qed.

Lemma route_registered_callable (m : Message) (w : World Env) (f : FunId) :
  callbacks (self w) !! message_name m = Some (VFun f) ->
  head (route m w).2 =
    Some (EvCall (Registered (message_name m)) f (message m)
            (heap (outside w) (message m)) (call_fun f (message m) w).1) ∧
  length (List.filter is_registered_call (route m w).2) = 1 ∧
  ((∀ k, (call_fun f (message m) w).1 ≠ Raise (KeyError k)) ->
   tail (route m w).2 = []).
Proof.
  intros Hreg. unfold route, try_except, bind, call, gets, ret, raise.
  rewrite callbacks_getitem_run, Hreg. simpl.
  repeat route_step; repeat split; try reflexivity; intros Hk;
    try reflexivity; exfalso; eapply Hk; reflexivity.
Qed.



(** A handler that raises [KeyError] sets off the [except KeyError] clause
    meant for names missing from the registry. *)
Lemma route_handler_KeyError (m : Message) (w w1 : World Env) (f : FunId) k :
  callbacks (self w) !! message_name m = Some (VFun f) ->
  call_fun f (message m) w = (Raise (KeyError k), w1) ->
  wildcard_callback (self w1) = VNone ->
  (route m w).1.1 = Ok tt.
Proof.
  intros Hreg Hcall Hwc. unfold route, try_except, bind, call, gets, ret, raise.
  rewrite callbacks_getitem_run, Hreg. simpl. rewrite Hcall. simpl.
  rewrite Hwc. reflexivity.
Qed.

(** Any other exception of the handler leaves [route] as it was raised, as
    long as the handler left its own registry entry in place. *)
Lemma route_handler_raises (m : Message) (w w1 : World Env) (f : FunId) e :
  callbacks (self w) !! message_name m = Some (VFun f) ->
  call_fun f (message m) w = (Raise e, w1) ->
  callbacks (self w1) !! message_name m = Some (VFun f) ->
  (∀ k, e ≠ KeyError k) ->
  route m w =
    (Raise e, w1,
     [EvCall (Registered (message_name m)) f (message m)
        (heap (outside w) (message m)) (Raise e)]).
Proof.
  intros Hreg Hcall Hreg1 Hk. unfold route, try_except, bind, call, gets, ret, raise.
  rewrite callbacks_getitem_run, Hreg. simpl. rewrite Hcall. simpl.
  destruct e; simpl; try reflexivity.
  - exfalso. eapply Hk. reflexivity.
  - rewrite callbacks_getitem_run, Hreg1. reflexivity.
Qed.

(** A name in the registry with the handler [None], as
    [list_subscriptions] leaves it: [_dispatch] raises [PluginPollError]
    naming the message (the NoHandlerRegistered of the specification). *)
Lemma dispatch_registered_None (m : Message) (w : World Env) :
  callbacks (self w) !! message_name m = Some VNone ->
  dispatch_message m w =
    (Raise (PluginPollError
              ("No callback registered for message: <" +:+ message_name m +:+ ">")),
     enriched m w, []).
Proof.
  intros Hreg. rewrite dispatch_message_run.
  apply route_registered_None. exact Hreg.
Qed.

(** A message whose name has no entry in the registry, while no wildcard
    handler is set, raises nothing: [_dispatch] writes the two envelope keys
    into its payload, calls nothing and goes on with the next message. *)
Theorem dispatch_unregistered_no_wildcard (m : Message) (rest : list Message)
    (w : World Env) :
  callbacks (self w) !! message_name m = None ->
  wildcard_callback (self w) = VNone ->
  dispatch_message m w = (Ok tt, enriched m w, []) ∧
  for_each dispatch_message (m :: rest) w =
    for_each dispatch_message rest (enriched m w).
Proof.
  intros Hreg Hwc.
  assert (Hm : dispatch_message m w = (Ok tt, enriched m w, [])).
  { rewrite dispatch_message_run. apply route_unregistered_no_wildcard.
    - exact Hreg.
    - rewrite enriched_self, Hwc. reflexivity. }
  split; [exact Hm|].
  exact (bind_ok (dispatch_message m) (fun _ => for_each dispatch_message rest)
           w tt _ Hm).
Qed.

(** A message whose name has a callable handler [f] in the registry: the
    first call [_dispatch] makes for it is the call of [f], on the payload
    mapping of the message, which then holds the original fields plus
    [message_id] and [sender_entity_id] of the envelope; it is the only call
    made through the registry; and it is the only call at all unless [f]
    raises [KeyError]. *)
Theorem dispatch_registered_callable (m : Message) (w : World Env) (f : FunId) :
  callbacks (self w) !! message_name m = Some (VFun f) ->
  let evs := (dispatch_message m w).2 in
  let r := (call_fun f (message m) (enriched m w)).1 in
  head evs =
    Some (EvCall (Registered (message_name m)) f (message m)
            (enriched_payload m (heap (outside w) (message m))) r) ∧
  length (List.filter is_registered_call evs) = 1 ∧
  ((∀ k, r ≠ Raise (KeyError k)) -> tail evs = []).
Proof.
  intros Hreg. cbv zeta. rewrite dispatch_message_run.
  rewrite <- enriched_payload_at.
  apply route_registered_callable. exact Hreg.
Qed.




End RouteProps.

(** ** The transaction processor *)

Section TransactionProps.
Context {Env Responses : Type} {X : Externals Env Responses}.

(** One pass of the loop, by what the slot holds. *)
Lemma handle_transaction_run (item : Loc) (w : World Env) :
  handle_transaction item w =
    if truthy (transaction_callback (self w)) then
      match transaction_callback (self w) with
      | VFun f =>
          match call_fun f item w with
          | (Ok v, w1) =>
              (Ok (if truthy v then None else Some false), w1,
               [EvCall Transaction f item (heap (outside w) item) (Ok v)])
          | (Raise e, w1) =>
              (Raise e, w1,
               [EvCall Transaction f item (heap (outside w) item) (Raise e)])
          end
      | v =>
          (Raise (TypeError ("'" +:+ type_name v +:+ "' object is not callable")), w, [])
      end
    else (Ok None, w, []).
Proof.
  unfold handle_transaction, bind, gets, call, ret, raise. simpl.
  destruct (truthy (transaction_callback (self w))); [|reflexivity].
  destruct (transaction_callback (self w)) as [|b|z|s|f]; try reflexivity.
  destruct (call_fun f item w) as [[v|e] w1]; simpl; [|reflexivity].
  destruct (truthy v); reflexivity.
Qed.

(** A slot that holds a false value: the record is passed over. *)
Lemma handle_transaction_drops (item : Loc) (w : World Env) :
  truthy (transaction_callback (self w)) = false ->
  handle_transaction item w = (Ok None, w, []).
Proof. intros Ht. rewrite handle_transaction_run, Ht. reflexivity. Qed.

(** A slot that holds a callable whose truth value is true: it is called. *)
Lemma handle_transaction_calls (item : Loc) (w : World Env) (f : FunId) :
  transaction_callback (self w) = VFun f ->
  truthy (VFun f) = true ->
  handle_transaction item w =
    match call_fun f item w with
    | (Ok v, w1) =>
        (Ok (if truthy v then None else Some false), w1,
         [EvCall Transaction f item (heap (outside w) item) (Ok v)])
    | (Raise e, w1) =>
        (Raise e, w1,
         [EvCall Transaction f item (heap (outside w) item) (Raise e)])
    end.
Proof. intros Hcb Ht. rewrite handle_transaction_run, Hcb, Ht. reflexivity. Qed.

Lemma for_return_cons {A R} (body : A -> M Env (option R)) x xs w :
  for_return body (x :: xs) w =
    match body x w with
    | (Ok (Some v), w1, e1) => (Ok (Some v), w1, e1 ++ [])
    | (Ok None, w1, e1) =>
        ((for_return body xs w1).1.1, (for_return body xs w1).1.2,
         e1 ++ (for_return body xs w1).2)
    | (Raise e, w1, e1) => (Raise e, w1, e1)
    end.
Proof.
  simpl. unfold bind. destruct (body x w) as [[[[v|]|e] w1] e1]; try reflexivity.
  destruct (for_return body xs w1) as [[r w2] e2]. reflexivity.
Qed.

Lemma for_return_app {A R} (body : A -> M Env (option R)) l1 l2 w w1 e1 :
  for_return body l1 w = (Ok None, w1, e1) ->
  for_return body (l1 ++ l2) w =
    ((for_return body l2 w1).1.1, (for_return body l2 w1).1.2,
     e1 ++ (for_return body l2 w1).2).
Proof.
  revert w e1. induction l1 as [|x l1 IH]; intros w e1 H.
  - simpl in H. inversion H; subst. simpl.
    destruct (for_return body l2 w1) as [[r w2] e2]. reflexivity.
  - rewrite <- app_comm_cons. rewrite for_return_cons in *.
    destruct (body x w) as [[[[v|]|e] wx] ex]; try discriminate.
    destruct (for_return body l1 wx) as [[r' w'] e'] eqn:Hl. simpl in H.
    inversion H; subst. rewrite (IH _ _ Hl). simpl.
    rewrite app_assoc. reflexivity.
Qed.

(** The loop never executes [return True]. *)
Lemma for_return_never_true (items : list Loc) (w w' : World Env) evs :
  for_return handle_transaction items w ≠ (Ok (Some true), w', evs).
Proof.
  revert w evs. induction items as [|x xs IH]; intros w evs H.
  - discriminate.
  - rewrite for_return_cons, handle_transaction_run in H.
    destruct (truthy (transaction_callback (self w))).
    + destruct (transaction_callback (self w)) as [|b|z|s|f]; try discriminate.
      destruct (call_fun f x w) as [[v|e] w1]; [|discriminate].
      destruct (truthy v); [|discriminate].
      destruct (for_return handle_transaction xs w1) as [[r w2] e2] eqn:Hl.
      simpl in H. inversion H; subst. eapply IH; exact Hl.
    + destruct (for_return handle_transaction xs w) as [[r w2] e2] eqn:Hl.
      simpl in H. inversion H; subst. eapply IH; exact Hl.
Qed.

Lemma for_return_consumed (items : list Loc) (w w' : World Env) evs :
  for_return handle_transaction items w = (Ok None, w', evs) <->
  all_consumed items w w' evs.
Proof.
  split.
  - revert w evs. induction items as [|x xs IH]; intros w evs H.
    + inversion H; subst. constructor.
    + rewrite for_return_cons, handle_transaction_run in H.
      destruct (truthy (transaction_callback (self w))) eqn:Ht.
      * destruct (transaction_callback (self w)) as [|b|z|s|f] eqn:Hcb;
          try discriminate.
        destruct (call_fun f x w) as [[v|e] w1] eqn:Hcall; [|discriminate].
        destruct (truthy v) eqn:Hv; [|discriminate].
        destruct (for_return handle_transaction xs w1) as [[r w2] e2] eqn:Hl.
        simpl in H. inversion H; subst.
        eapply consumed_call; eauto.
      * destruct (for_return handle_transaction xs w) as [[r w2] e2] eqn:Hl.
        simpl in H. inversion H; subst.
        apply consumed_drop; [exact Ht | apply IH; exact Hl].
  - induction 1 as [w|item rest w w' evs Ht _ IH
                    |item rest f v w w1 w' evs Hcb Ht Hcall Hv _ IH].
    + reflexivity.
    + rewrite for_return_cons, (handle_transaction_drops _ _ Ht), IH. reflexivity.
    + rewrite for_return_cons, (handle_transaction_calls _ _ _ Hcb Ht), Hcall, Hv, IH.
      reflexivity.
Qed.

Lemma process_transactions_run (items : list Loc) (w : World Env) :
  process_transactions items w =
    match for_return handle_transaction items w with
    | (Ok (Some b), w1, e1) => (Ok b, w1, e1 ++ [])
    | (Ok None, w1, e1) => (Ok true, w1, e1 ++ [])
    | (Raise e, w1, e1) => (Raise e, w1, e1)
    end.
Proof.
  unfold process_transactions, bind.
  destruct (for_return handle_transaction items w) as [[[[b|]|e] w1] e1];
    reflexivity.
Qed.

(** While the slot holds a false value the loop calls nothing and changes
    nothing. *)
Lemma process_transactions_no_handler (items : list Loc) (w : World Env) :
  truthy (transaction_callback (self w)) = false ->
  process_transactions items w = (Ok true, w, []).
Proof.
  intros Ht. rewrite process_transactions_run.
  assert (H : for_return handle_transaction items w = (Ok None, w, [])).
  { induction items as [|x xs IH]; [reflexivity|].
    rewrite for_return_cons, (handle_transaction_drops _ _ Ht), IH. reflexivity. }
  rewrite H. reflexivity.
Qed.

(** [_handle_transactions] is the request, the lookup of ["transactions"] in
    the answer, and the loop over the records found there. *)
Lemma handle_transactions_run (w : World Env) :
  _handle_transactions w =
    match _get_data "plugin/transaction/list" (outside w) with
    | (Ok resp, o) =>
        match transactions resp with
        | Some records =>
            ((process_transactions records (set_outside o w)).1.1,
             (process_transactions records (set_outside o w)).1.2,
             EvGet "plugin/transaction/list" (Ok resp)
               :: (process_transactions records (set_outside o w)).2)
        | None =>
            (Raise (KeyError "transactions"), set_outside o w,
             [EvGet "plugin/transaction/list" (Ok resp)])
        end
    | (Raise e, o) =>
        (Raise e, set_outside o w, [EvGet "plugin/transaction/list" (Raise e)])
    end.
Proof.
  unfold _handle_transactions. rewrite bind_run. unfold get, outside_call.
  destruct (_get_data "plugin/transaction/list" (outside w)) as [[resp|e] o];
    [|reflexivity].
  rewrite bind_run. unfold getitem.
  destruct (transactions resp) as [records|]; [|reflexivity].
  simpl. reflexivity.
Qed.

(** [_handle_transactions] on the records the broker hands out, for a slot
    that holds [None] or a callable whose truth value is true.  With a false
    value in the slot the records are dropped and the result is true.  As
    soon as the handler returns a false value on a record, the result is
    false and the trace ends with that call: no later record is passed to
    the handler.  The result is true exactly when every record was either
    passed to the handler, which returned a true value, or dropped because
    the slot held a false value. *)
Theorem handle_transactions_outcome (w : World Env) (resp : Response)
    (o : Outside Env) (records : list Loc) :
  _get_data "plugin/transaction/list" (outside w) = (Ok resp, o) ->
  transactions resp = Some records ->
  let w0 := set_outside o w in
  let fetch := EvGet "plugin/transaction/list" (Ok resp) in
  (truthy (transaction_callback (self w)) = false ->
   _handle_transactions w = (Ok true, w0, [fetch])) ∧
  (∀ (pre post : list Loc) (item : Loc) (w1 w2 : World Env) e1 f v,
      records = pre ++ item :: post ->
      all_consumed pre w0 w1 e1 ->
      transaction_callback (self w1) = VFun f ->
      truthy (VFun f) = true ->
      call_fun f item w1 = (Ok v, w2) ->
      truthy v = false ->
      _handle_transactions w =
        (Ok false, w2,
         fetch :: e1 ++ [EvCall Transaction f item (heap (outside w1) item) (Ok v)])) ∧
  (∀ (w' : World Env) evs,
      _handle_transactions w = (Ok true, w', evs) <->
      ∃ calls, evs = fetch :: calls ∧ all_consumed records w0 w' calls).
Proof.
  intros Hget Hkey. cbv zeta.
  rewrite handle_transactions_run, Hget, Hkey. repeat split.
  - intros Ht. rewrite (process_transactions_no_handler records (set_outside o w) Ht).
    reflexivity.
  - intros pre post item w1 w2 e1 f v -> Hpre Hcb Ht Hcall Hv.
    apply for_return_consumed in Hpre.
    rewrite process_transactions_run, (for_return_app _ _ _ _ _ _ Hpre).
    rewrite for_return_cons, (handle_transaction_calls _ _ _ Hcb Ht), Hcall, Hv.
    simpl. rewrite !app_nil_r. reflexivity.
  - intros H. rewrite process_transactions_run in H.
    destruct (for_return handle_transaction records (set_outside o w))
      as [[[[b|]|e] w1] e1] eqn:Hl; simpl in H; try discriminate.
    + inversion H; subst. exfalso. eapply for_return_never_true. exact Hl.
    + inversion H; subst. exists e1. rewrite app_nil_r. split; [reflexivity|].
      apply for_return_consumed. exact Hl.
  - intros (calls & -> & H). apply for_return_consumed in H.
    rewrite process_transactions_run, H, app_nil_r. reflexivity.
Qed.

(** C5 fails on the code.  [_handle_transactions] decides by the truth value
    of the slot whether there is a handler.  A callable whose truth value is
    false, once [register_transaction_callback] has accepted and stored it,
    is never called: whatever records the broker hands out, none is passed to
    it and the result is [True]. *)
Theorem handle_transactions_skips_falsy_handler (cb : Val) (w w1 : World Env)
    (e1 : list Event) (resp : Response) (o : Outside Env) (records : list Loc) :
  register_transaction_callback cb w = (Ok tt, w1, e1) ->
  truthy cb = false ->
  _get_data "plugin/transaction/list" (outside w1) = (Ok resp, o) ->
  transactions resp = Some records ->
  callable cb = true ∧
  transaction_callback (self w1) = cb ∧
  _handle_transactions w1 =
    (Ok true, set_outside o w1, [EvGet "plugin/transaction/list" (Ok resp)]).
Proof.
  intros Hreg Ht Hget Hkey.
  assert (Hc : callable cb = true ∧ transaction_callback (self w1) = cb).
  { unfold register_transaction_callback in Hreg.
    destruct (callable cb); [|discriminate]. simpl in Hreg.
    rewrite bind_run in Hreg.
    destruct (post "plugin/subscribe" "transaction" w) as [[[v|e] w'] e'];
      [|discriminate].
    inversion Hreg; subst. split; reflexivity. }
  destruct Hc as [Hc Hslot]. split; [exact Hc|]. split; [exact Hslot|].
  rewrite handle_transactions_run, Hget, Hkey.
  rewrite process_transactions_no_handler by (simpl; rewrite Hslot; exact Ht).
  reflexivity.
Qed.

End TransactionProps.

(** ** The subscription registry *)

Section RegistryProps.
Context {Env Responses : Type} {X : Externals Env Responses}.

Lemma post_run (endpoint name : string) (w : World Env) :
  post endpoint name w =
    ((_post_data endpoint {["message_name" := VStr name]} (outside w)).1,
     set_outside (_post_data endpoint {["message_name" := VStr name]} (outside w)).2 w,
     [EvPost endpoint {["message_name" := VStr name]}
        (_post_data endpoint {["message_name" := VStr name]} (outside w)).1]).
Proof.
  unfold post, outside_call.
  destruct (_post_data endpoint _ (outside w)) as [r o]. reflexivity.
Qed.

Lemma subscribe_entry_run (entry : string * Val) (w : World Env) :
  subscribe_entry entry w =
    match _post_data "plugin/subscribe" {["message_name" := VStr entry.1]} (outside w) with
    | (Ok v, o) =>
        (Ok tt,
         set_self (set_callbacks (<[entry.1 := entry.2]> (callbacks (self w))) (self w))
           (set_outside o w),
         [EvPost "plugin/subscribe" {["message_name" := VStr entry.1]} (Ok v)])
    | (Raise e, o) =>
        (Raise e, set_outside o w,
         [EvPost "plugin/subscribe" {["message_name" := VStr entry.1]} (Raise e)])
    end.
Proof.
  unfold subscribe_entry, bind. rewrite post_run.
  destruct (_post_data _ _ (outside w)) as [[v|e] o]; reflexivity.
Qed.

Lemma unsubscribe_name_run (name : string) (w : World Env) :
  unsubscribe_name name w =
    match callbacks (self w) !! name with
    | None => (Ok tt, w, [])
    | Some _ =>
        match _post_data "plugin/unsubscribe" {["message_name" := VStr name]} (outside w) with
        | (Ok v, o) =>
            (Ok tt,
             set_self (set_callbacks (delete name (callbacks (self w))) (self w))
               (set_outside o w),
             [EvPost "plugin/unsubscribe" {["message_name" := VStr name]} (Ok v)])
        | (Raise e, o) =>
            (Raise e, set_outside o w,
             [EvPost "plugin/unsubscribe" {["message_name" := VStr name]} (Raise e)])
        end
    end.
Proof.
  unfold unsubscribe_name, bind, gets. simpl.
  destruct (callbacks (self w) !! name) as [h|]; [|reflexivity].
  rewrite post_run.
  destruct (_post_data _ _ (outside w)) as [[v|e] o]; reflexivity.
Qed.

(** C8.  When the subscribe request for an entry raises, [subscribe] raises
    the same exception at once: the plugin object, and with it the whole
    registry, is as the entries before left it, and no later entry is
    processed. *)
Theorem subscribe_failure_leaves_registry
    (pre post : list (string * Val)) (name : string) (cb : Val)
    (w w1 : World Env) (e1 : list Event) (e : Exn) (o2 : Outside Env) :
  subscribe pre w = (Ok tt, w1, e1) ->
  _post_data "plugin/subscribe" {["message_name" := VStr name]} (outside w1)
    = (Raise e, o2) ->
  subscribe (pre ++ (name, cb) :: post) w =
    (Raise e, set_outside o2 w1,
     e1 ++ [EvPost "plugin/subscribe" {["message_name" := VStr name]} (Raise e)]) ∧
  self (subscribe (pre ++ (name, cb) :: post) w).1.2 = self w1 ∧
  callbacks (self (subscribe (pre ++ (name, cb) :: post) w).1.2) !! name =
    callbacks (self w1) !! name.
Proof.
  intros Hpre Hpost.
  assert (H : subscribe (pre ++ (name, cb) :: post) w =
    (Raise e, set_outside o2 w1,
     e1 ++ [EvPost "plugin/subscribe" {["message_name" := VStr name]} (Raise e)])).
  { unfold subscribe in *. rewrite (for_each_app _ _ _ _ _ _ Hpre).
    simpl. unfold bind. rewrite subscribe_entry_run. simpl.
    rewrite Hpost. reflexivity. }
  rewrite H. repeat split.
Qed.

(** C9.  A value that is not callable makes [register_transaction_callback]
    raise [BadCallbackException] (the InvalidCallback of the specification)
    with no request sent and the world as it was.  A callable makes it send
    the subscribe request for ["transaction"] and, when the request returns,
    store the callable in the transaction slot. *)
Theorem register_transaction_callback_checks (cb : Val) (w : World Env) :
  (callable cb = false ->
   register_transaction_callback cb w =
     (Raise (BadCallbackException "The callback submitted is not callable."), w, [])) ∧
  (callable cb = true ->
   ∀ v o,
     _post_data "plugin/subscribe" {["message_name" := VStr "transaction"]} (outside w)
       = (Ok v, o) ->
     register_transaction_callback cb w =
       (Ok tt,
        set_self (set_transaction_callback cb (self w)) (set_outside o w),
        [EvPost "plugin/subscribe" {["message_name" := VStr "transaction"]} (Ok v)])).
Proof.
  unfold register_transaction_callback. split; intros Hc; rewrite Hc; simpl.
  - reflexivity.
  - intros v o Hpost. unfold bind. rewrite post_run, Hpost. reflexivity.
Qed.

Lemma subscribe_acked_app name pre evs :
  subscribe_acked name pre ∨ subscribe_acked name evs ->
  subscribe_acked name (pre ++ evs).
Proof.
  unfold subscribe_acked. intros [[v H]|[v H]]; exists v; apply elem_of_app; auto.
Qed.

Lemma broker_listed_app name pre evs :
  broker_listed name pre ∨ broker_listed name evs ->
  broker_listed name (pre ++ evs).
Proof.
  unfold broker_listed.
  intros [(r & s & H & Hs)|(r & s & H & Hs)]; exists r, s;
    (split; [apply elem_of_app; auto | exact Hs]).
Qed.

Lemma registry_backed_app (w : World Env) pre evs :
  registry_backed w pre -> registry_backed w (pre ++ evs).
Proof.
  intros H name h Hn. destruct (H name h Hn) as [Ha|[Hl Hh]].
  - left. apply subscribe_acked_app. auto.
  - right. split; [apply broker_listed_app; auto | exact Hh].
Qed.

Lemma registry_backed_same_registry (w w' : World Env) evs :
  callbacks (self w') = callbacks (self w) ->
  registry_backed w evs -> registry_backed w' evs.
Proof. intros Heq H name h Hn. rewrite Heq in Hn. exact (H name h Hn). Qed.

(** An invariant of the world and the trace so far that each pass of a
    [for] loop keeps is kept by the loop, however it ends. *)
Lemma for_each_invariant {A} (I : World Env -> list Event -> Prop)
    (body : A -> M Env unit) (l : list A) :
  (∀ x, x ∈ l -> ∀ w pre, I w pre -> I (body x w).1.2 (pre ++ (body x w).2)) ->
  ∀ w pre, I w pre ->
    I (for_each body l w).1.2 (pre ++ (for_each body l w).2).
Proof.
  induction l as [|x xs IH]; intros Hbody w pre HI.
  - simpl. rewrite app_nil_r. exact HI.
  - simpl. unfold bind.
    pose proof (Hbody x (list_elem_of_here x xs) w pre HI) as Hx.
    destruct (body x w) as [[[[]|e] w1] e1]; simpl in *; [|exact Hx].
    assert (Hxs : ∀ y, y ∈ xs -> ∀ w pre, I w pre ->
               I (body y w).1.2 (pre ++ (body y w).2)).
    { intros y Hy. apply Hbody. apply list_elem_of_further. exact Hy. }
    pose proof (IH Hxs w1 (pre ++ e1) Hx) as Hr.
    destruct (for_each body xs w1) as [[r w2] e2]; simpl in *.
    rewrite app_assoc. exact Hr.
Qed.

Lemma subscribe_entry_backed (entry : string * Val) (w : World Env) pre :
  registry_backed w pre ->
  registry_backed (subscribe_entry entry w).1.2 (pre ++ (subscribe_entry entry w).2).
Proof.
  intros H. rewrite subscribe_entry_run.
  destruct (_post_data _ _ (outside w)) as [[v|e] o]; simpl.
  - intros name h Hn. simpl in Hn.
    destruct (decide (entry.1 = name)) as [<-|Hne].
    + left. apply subscribe_acked_app. right. exists v. apply list_elem_of_here.
    + rewrite lookup_insert_ne in Hn by exact Hne.
      exact (registry_backed_app w pre _ H name h Hn).
  - apply registry_backed_app. exact H.
Qed.

Lemma unsubscribe_name_backed (name : string) (w : World Env) pre :
  registry_backed w pre ->
  registry_backed (unsubscribe_name name w).1.2 (pre ++ (unsubscribe_name name w).2).
Proof.
  intros H. rewrite unsubscribe_name_run.
  destruct (callbacks (self w) !! name) as [h0|] eqn:Hreg; simpl.
  - destruct (_post_data _ _ (outside w)) as [[v|e] o]; simpl.
    + intros n h Hn. simpl in Hn.
      apply lookup_delete_Some in Hn as [_ Hn].
      exact (registry_backed_app w pre _ H n h Hn).
    + apply registry_backed_app. exact H.
  - rewrite app_nil_r. exact H.
Qed.

Lemma note_subscription_run (sub : Sub) (w : World Env) :
  note_subscription sub w =
    match sub with
    | Name name =>
        match callbacks (self w) !! name with
        | Some _ => (Ok tt, w, [])
        | None =>
            (Ok tt,
             set_self (set_callbacks (<[name := VNone]> (callbacks (self w))) (self w)) w,
             [])
        end
    | Unhashable type =>
        (Raise (TypeError ("unhashable type: '" +:+ type +:+ "'")), w, [])
    end.
Proof.
  destruct sub as [name|type]; [|reflexivity].
  unfold note_subscription, bind, gets, modify, ret. simpl.
  destruct (callbacks (self w) !! name); reflexivity.
Qed.

Lemma list_subscriptions_run (w : World Env) :
  list_subscriptions w =
    match _get_data "plugin/subscription/list" (outside w) with
    | (Ok resp, o) =>
        match subscriptions resp with
        | Some (Iterable subs) =>
            match for_each note_subscription subs (set_outside o w) with
            | (Ok _, w1, e1) =>
                (Ok (callbacks (self w1)), w1,
                 EvGet "plugin/subscription/list" (Ok resp) :: e1)
            | (Raise e, w1, e1) =>
                (Raise e, w1, EvGet "plugin/subscription/list" (Ok resp) :: e1)
            end
        | Some (NotIterable type) =>
            (Raise (TypeError ("'" +:+ type +:+ "' object is not iterable")),
             set_outside o w, [EvGet "plugin/subscription/list" (Ok resp)])
        | None =>
            (Raise (KeyError "subscriptions"), set_outside o w,
             [EvGet "plugin/subscription/list" (Ok resp)])
        end
    | (Raise e, o) =>
        (Raise e, set_outside o w, [EvGet "plugin/subscription/list" (Raise e)])
    end.
Proof.
  unfold list_subscriptions, get, outside_call, getitem, iterate, bind, gets, ret, raise.
  destruct (_get_data "plugin/subscription/list" (outside w)) as [[resp|e] o];
    [|reflexivity].
  destruct (subscriptions resp) as [[subs|type]|]; [|reflexivity..].
  destruct (for_each note_subscription subs (set_outside o w)) as [[[[]|e] w1] e1];
    simpl; rewrite ?app_nil_r; reflexivity.
Qed.

Lemma list_subscriptions_backed (w : World Env) pre :
  registry_backed w pre ->
  registry_backed (list_subscriptions w).1.2 (pre ++ (list_subscriptions w).2).
Proof.
  intros H. rewrite list_subscriptions_run.
  destruct (_get_data "plugin/subscription/list" (outside w)) as [[resp|e] o];
    [|apply registry_backed_app; exact H].
  destruct (subscriptions resp) as [[subs|type]|] eqn:Hsubs; simpl;
    [|apply registry_backed_app; exact H..].
  set (w0 := set_outside o w).
  set (ev := EvGet "plugin/subscription/list" (Ok resp)).
  assert (Hloop : registry_backed (for_each note_subscription subs w0).1.2
                    ((pre ++ [ev]) ++ (for_each note_subscription subs w0).2) ∧
                  ev ∈ (pre ++ [ev]) ++ (for_each note_subscription subs w0).2).
  { apply (for_each_invariant
             (fun w evs => registry_backed w evs ∧ ev ∈ evs)
             note_subscription subs).
    - intros sub Hsub w1 pre1 [Hb Hev]. rewrite note_subscription_run.
      destruct sub as [name|type]; [|simpl; rewrite app_nil_r; split; assumption].
      destruct (callbacks (self w1) !! name) eqn:Hreg; simpl; rewrite app_nil_r.
      + split; assumption.
      + split; [|exact Hev].
        intros n h Hn. simpl in Hn.
        destruct (decide (name = n)) as [<-|Hne].
        * rewrite lookup_insert_eq in Hn. inversion Hn; subst.
          right. split; [|reflexivity]. exists resp, subs. auto.
        * rewrite lookup_insert_ne in Hn by exact Hne. exact (Hb n h Hn).
    - split.
      + apply registry_backed_app. exact H.
      + apply elem_of_app. right. apply list_elem_of_here. }
  destruct Hloop as [Hloop _].
  destruct (for_each note_subscription subs w0) as [[[[]|e] w2] e2]; simpl in *;
    rewrite <- app_assoc in Hloop; exact Hloop.
Qed.

Lemma run_op_backed (op : Op) (w : World Env) pre :
  registry_backed w pre ->
  registry_backed (run_op op w).1.2 (pre ++ (run_op op w).2).
Proof.
  intros H. destruct op as [messages|names|]; simpl.
  - apply (for_each_invariant registry_backed); [|exact H].
    intros x _ w1 pre1. apply subscribe_entry_backed.
  - apply (for_each_invariant registry_backed); [|exact H].
    intros x _ w1 pre1. apply unsubscribe_name_backed.
  - pose proof (list_subscriptions_backed w pre H) as Hl. unfold bind.
    destruct (list_subscriptions w) as [[[cbs|e] w1] e1]; simpl in *.
    + rewrite app_nil_r. exact Hl.
    + exact Hl.
Qed.

Lemma run_ops_backed (ops : list Op) (w : World Env) pre :
  registry_backed w pre ->
  registry_backed (run_ops ops w).1 (pre ++ (run_ops ops w).2).
Proof.
  revert w pre. induction ops as [|op ops IH]; intros w pre H; simpl.
  - rewrite app_nil_r. exact H.
  - pose proof (run_op_backed op w pre H) as H1.
    destruct (run_op op w) as [[r w1] e1]; simpl in *.
    pose proof (IH w1 (pre ++ e1) H1) as H2.
    destruct (run_ops ops w1) as [w2 e2]; simpl in *.
    rewrite app_assoc. exact H2.
Qed.

(** C7, amended.  Starting from an empty registry, after any sequence of
    [subscribe], [unsubscribe] and [list_subscriptions] calls, whatever
    they raised, the registry holds one handler per name, and every name in
    it either was acknowledged by the broker on a subscribe request or was
    listed by the broker to [list_subscriptions], in which case its handler
    is [None]. *)
Theorem registry_after_operations (ops : list Op) (w : World Env) :
  callbacks (self w) = ∅ ->
  (∀ name h1 h2,
      callbacks (self (run_ops ops w).1) !! name = Some h1 ->
      callbacks (self (run_ops ops w).1) !! name = Some h2 ->
      h1 = h2) ∧
  registry_backed (run_ops ops w).1 (run_ops ops w).2.
Proof.
  intros Hempty. split.
  - intros name h1 h2 H1 H2. congruence.
  - apply (run_ops_backed ops w []).
    intros name h Hn. rewrite Hempty, lookup_empty in Hn. discriminate.
Qed.

End RegistryProps.

(** ** Which calls a method makes, and what it returns *)

Section Effects.
Context {Env Responses : Type} {X : Externals Env Responses}.

Section Rules.
Context {A B : Type} (K : Kind -> Prop).

Lemma emits_ret (a : A) : emits (Env := Env) K (ret a).
Proof. intros w. constructor. Qed.

Lemma emits_gets (f : Plugin -> A) : emits (Env := Env) K (gets f).
Proof. intros w. constructor. Qed.

Lemma emits_modify (f : Plugin -> Plugin) : emits (Env := Env) K (modify f).
Proof. intros w. constructor. Qed.

Lemma emits_bind (m : M Env A) (k : A -> M Env B) :
  emits K m -> (∀ a, emits K (k a)) -> emits K (bind m k).
Proof.
  intros Hm Hk w. unfold bind. specialize (Hm w).
  destruct (m w) as [[[a|e] w1] e1]; simpl in *; [|exact Hm].
  specialize (Hk a w1). destruct (k a w1) as [[r w2] e2]; simpl in *.
  apply Forall_app. split; assumption.
Qed.

Lemma emits_try_except (body : M Env A) (clauses : Exn -> option (M Env A)) :
  emits K body -> (∀ e h, clauses e = Some h -> emits K h) ->
  emits K (try_except body clauses).
Proof.
  intros Hm Hc w. unfold try_except. specialize (Hm w).
  destruct (body w) as [[[a|e] w1] e1]; simpl in *; [exact Hm|].
  destruct (clauses e) as [h|] eqn:He; [|exact Hm].
  specialize (Hc e h He w1). destruct (h w1) as [[r w2] e2]; simpl in *.
  apply Forall_app. split; assumption.
Qed.

Lemma emits_for_each (body : A -> M Env unit) (l : list A) :
  (∀ x, emits K (body x)) -> emits K (for_each body l).
Proof.
  intros Hb. induction l as [|x xs IH]; simpl.
  - intros w. constructor.
  - intros w. unfold bind. pose proof (Hb x w) as Hx.
    destruct (body x w) as [[[[]|e] w1] e1]; simpl in *; [|exact Hx].
    specialize (IH w1). destruct (for_each body xs w1) as [[r w2] e2]; simpl in *.
    apply Forall_app. split; assumption.
Qed.

Lemma emits_for_return (body : A -> M Env (option B)) (l : list A) :
  (∀ x, emits K (body x)) -> emits K (for_return body l).
Proof.
  intros Hb. induction l as [|x xs IH]; simpl.
  - intros w. constructor.
  - intros w. unfold bind. pose proof (Hb x w) as Hx.
    destruct (body x w) as [[[[v|]|e] w1] e1]; simpl in *; [| |exact Hx].
    + rewrite app_nil_r. exact Hx.
    + specialize (IH w1).
      destruct (for_return body xs w1) as [[r w2] e2]; simpl in *.
      apply Forall_app. split; assumption.
Qed.

Lemma returns_bind (Q : B -> Prop) (m : M Env A) (k : A -> M Env B) :
  (∀ a, returns Q (k a)) -> returns Q (bind m k).
Proof.
  intros Hk w. unfold bind.
  destruct (m w) as [[[a|e] w1] e1]; simpl; [|exact I].
  specialize (Hk a w1). destruct (k a w1) as [[r w2] e2]. exact Hk.
Qed.

Lemma returns_ret (Q : A -> Prop) (a : A) : Q a -> returns (Env := Env) Q (ret a).
Proof. intros H w. exact H. Qed.
End Rules.

Lemma emits_weaken {A} (K K' : Kind -> Prop) (m : M Env A) :
  (∀ k, K k -> K' k) -> emits K m -> emits K' m.
Proof.
  intros HK Hm w. eapply Forall_impl; [|exact (Hm w)].
  intros ev. apply HK.
Qed.

Section Methods.
Context (K : Kind -> Prop).

Lemma emits_post endpoint name : K KTransport -> emits K (post endpoint name).
Proof.
  intros HK w. rewrite post_run. simpl. repeat constructor. exact HK.
Qed.

Lemma emits_get endpoint : K KTransport -> emits K (get endpoint).
Proof.
  intros HK w. unfold get, outside_call.
  destruct (_get_data endpoint (outside w)) as [r o]. repeat constructor. exact HK.
Qed.

Lemma emits_getitem {A} (field : Response -> option A) key resp :
  emits (Env := Env) K (getitem field key resp).
Proof. unfold getitem. destruct (field resp); intros w; constructor. Qed.

Lemma emits_try_hook name : K KHook -> emits K (try_hook name).
Proof.
  intros HK w. unfold try_hook, user_call.
  destruct (_try_hook name w) as [r w1]. repeat constructor. exact HK.
Qed.

Lemma emits_call via v arg : K KCall -> emits K (call via v arg).
Proof.
  intros HK w. unfold call. destruct v; try (constructor).
  destruct (call_fun f arg w) as [r w1]. repeat constructor. exact HK.
Qed.

Lemma emits_now : emits K now.
Proof.
  intros w. unfold now. destruct (time_ms (outside w)). constructor.
Qed.

Lemma emits_dispatch_message m : K KCall -> emits K (dispatch_message m).
Proof.
  intros HK w. rewrite dispatch_message_run.
  eapply Forall_impl; [|apply route_calls_payload].
  intros [] Hev; simpl in *; try contradiction. exact HK.
Qed.

Lemma emits_dispatch message_data :
  K KCall -> K KHook -> emits K (_dispatch message_data).
Proof.
  intros HC HH. unfold _dispatch.
  apply emits_bind; [apply emits_try_hook; exact HH|]. intros h.
  destruct (negb (truthy h)); [apply emits_ret|].
  apply emits_bind;
    [apply emits_for_each; intros m; apply emits_dispatch_message; exact HC|].
  intros _. apply emits_bind; [apply emits_try_hook; exact HH|]. intros h'.
  destruct (negb (truthy h')); apply emits_ret.
Qed.

Lemma emits_poll : K KTransport -> emits K _poll.
Proof.
  intros HK. unfold _poll. apply emits_bind; [apply emits_get; exact HK|].
  intros resp. apply emits_getitem.
Qed.

Lemma emits_handle_transaction item : K KCall -> emits K (handle_transaction item).
Proof.
  intros HK w. rewrite handle_transaction_run.
  destruct (truthy (transaction_callback (self w))); [|constructor].
  destruct (transaction_callback (self w)) as [|b|z|s|f]; try constructor.
  destruct (call_fun f item w) as [[v|e] w1]; repeat constructor; exact HK.
Qed.

Lemma emits_handle_transactions :
  K KTransport -> K KCall -> emits K _handle_transactions.
Proof.
  intros HT HC. unfold _handle_transactions, process_transactions.
  apply emits_bind; [apply emits_get; exact HT|]. intros resp.
  apply emits_bind; [apply emits_getitem|]. intros items.
  apply emits_bind;
    [apply emits_for_return; intros x; apply emits_handle_transaction; exact HC|].
  intros [b|]; apply emits_ret.
Qed.

Lemma emits_list_subscriptions : K KTransport -> emits K list_subscriptions.
Proof.
  intros HK. unfold list_subscriptions.
  apply emits_bind; [apply emits_get; exact HK|]. intros resp.
  apply emits_bind; [apply emits_getitem|]. intros listing.
  apply emits_bind; [destruct listing; intros w; constructor|]. intros subs.
  apply emits_bind; [|intros _; apply emits_gets].
  apply emits_for_each. intros sub w. rewrite note_subscription_run.
  destruct sub; [destruct (_ !! _)|]; constructor.
Qed.

Lemma emits_poll_responses : K KResponses ->
  emits K (user_call _poll_responses (fun _ => [EvPollResponses])).
Proof.
  intros HK w. unfold user_call. destruct (_poll_responses w).
  repeat constructor. exact HK.
Qed.

Lemma emits_dispatch_responses responses : K KResponses ->
  emits K (user_call (_dispatch_responses responses)
             (fun r => [EvDispatchResponses r])).
Proof.
  intros HK w. unfold user_call. destruct (_dispatch_responses responses w).
  repeat constructor. exact HK.
Qed.
End Methods.

(** The polling loop calls everything but the session. *)
Lemma emits_cycle (K : Kind -> Prop) :
  K KTransport -> K KHook -> K KCall -> K KResponses -> emits K cycle.
Proof.
  intros HT HH HC HR. unfold cycle.
  repeat first
    [ apply emits_ret
    | apply emits_now
    | apply emits_gets
    | apply emits_modify
    | apply emits_try_hook; exact HH
    | apply emits_poll; exact HT
    | apply emits_dispatch; assumption
    | apply emits_handle_transactions; assumption
    | apply emits_poll_responses; exact HR
    | apply emits_dispatch_responses; exact HR
    | apply emits_bind; [|intros ?]
    | match goal with
      | |- emits _ (if ?c then _ else _) => destruct c
      end ].
Qed.

Lemma emits_poll_loop (K : Kind -> Prop) fuel :
  K KTransport -> K KHook -> K KCall -> K KResponses -> emits K (poll_loop fuel).
Proof.
  intros HT HH HC HR. induction fuel as [|n IH]; simpl.
  - apply emits_ret.
  - apply emits_bind; [apply emits_gets|]. intros go.
    destruct (negb go); [apply emits_ret|].
    apply emits_bind; [apply emits_cycle; assumption|].
    intros [| |v]; [exact IH|apply emits_ret..].
Qed.

Lemma emits_guarded_loop (K : Kind -> Prop) fuel :
  K KTransport -> K KHook -> K KCall -> K KResponses -> emits K (guarded_loop fuel).
Proof.
  intros HT HH HC HR. unfold guarded_loop.
  apply emits_try_except; [apply emits_poll_loop; assumption|].
  intros [] h Hh; inversion Hh; subst. apply emits_ret.
Qed.

(** The only value the loop body passes to [return] is [False]. *)
Lemma cycle_returns_False :
  returns (fun s => ∀ v, s = Return v -> v = VBool false) cycle.
Proof.
  unfold cycle.
  repeat first
    [ apply returns_ret; intros ? [=]; subst; reflexivity
    | apply returns_bind; intros ?
    | match goal with
      | |- returns _ (if ?c then _ else _) => destruct c
      end ].
Qed.

Lemma poll_loop_returns_False fuel :
  returns (fun e => ∀ v, e = Returned v -> v = VBool false) (poll_loop fuel).
Proof.
  induction fuel as [|n IH]; simpl.
  - apply returns_ret. discriminate.
  - apply returns_bind. intros go. destruct (negb go); [apply returns_ret; discriminate|].
    intros w. unfold bind. pose proof (cycle_returns_False w) as Hc.
    destruct (cycle w) as [[[s|e] w1] e1]; simpl in *; [|exact I].
    destruct s as [| |v].
    + specialize (IH w1). destruct (poll_loop n w1) as [[r w2] e2]. exact IH.
    + simpl. discriminate.
    + simpl. intros v' [=]; subst. apply Hc. reflexivity.
Qed.

Lemma guarded_loop_returns_False fuel :
  returns (fun e => ∀ v, e = Returned v -> v = VBool false) (guarded_loop fuel).
Proof.
  intros w. unfold guarded_loop, try_except.
  pose proof (poll_loop_returns_False fuel w) as Hp.
  destruct (poll_loop fuel w) as [[[a|e] w1] e1]; simpl in *; [exact Hp|].
  destruct e; simpl; try exact I. discriminate.
Qed.

End Effects.

(** ** The lifecycle: [start] and the session *)

Section StartProps.
Context {Env Responses : Type} {X : Externals Env Responses}.

Lemma filter_no_session (evs : list Event) :
  Forall (fun ev => not_session (kind ev)) evs ->
  List.filter is_connect evs = [] ∧ List.filter is_disconnect evs = [].
Proof.
  induction 1 as [|ev evs Hev _ [IH1 IH2]]; [split; reflexivity|].
  destruct ev; simpl; try (split; assumption); exfalso; apply Hev; reflexivity.
Qed.

Lemma guarded_loop_no_session fuel (w : World Env) :
  Forall (fun ev => not_session (kind ev)) (guarded_loop fuel w).2.
Proof. apply emits_guarded_loop; discriminate. Qed.

Lemma list_subscriptions_no_session (w : World Env) :
  Forall (fun ev => not_session (kind ev)) (list_subscriptions w).2.
Proof. apply emits_list_subscriptions; discriminate. Qed.

(** Once [connect] and [list_subscriptions] have returned, [start] has
    called [connect] exactly once, and how the [try] block ends decides the
    rest.  When the loop condition is false, a [break] is
    executed or [KeyboardInterrupt] is caught, [disconnect] is called
    exactly once, as the last call.  When the loop body executes
    [return False] (the dispatcher or the transaction processor returned
    false), [start] returns [False] at once and [disconnect] is not called;
    nor is it when another exception leaves the loop. *)
Theorem start_connect_disconnect (fuel : nat) (w w1 : World Env)
    (v0 : Val) (o0 : Outside Env) (cbs : gmap string Val) (e0 : list Event) :
  connect (outside w) = (Ok v0, o0) ->
  list_subscriptions (set_outside o0 w) = (Ok cbs, w1, e0) ->
  length (List.filter is_connect (start fuel w).2) = 1 ∧
  match (guarded_loop fuel w1).1.1 with
  | Ok CondFalse | Ok Broke | Ok Interrupted =>
      length (List.filter is_disconnect (start fuel w).2) = 1 ∧
      ∃ init,
        (start fuel w).2 =
          init ++ [EvDisconnect (disconnect (outside (guarded_loop fuel w1).1.2)).1]
  | Ok (Returned v) =>
      v = VBool false ∧
      (start fuel w).1.1 = Ok (Finished (VBool false)) ∧
      List.filter is_disconnect (start fuel w).2 = []
  | Ok Unfinished =>
      (start fuel w).1.1 = Ok Running ∧
      List.filter is_disconnect (start fuel w).2 = []
  | Raise e =>
      (start fuel w).1.1 = Raise e ∧
      List.filter is_disconnect (start fuel w).2 = []
  end.
Proof.
  intros Hc Hl.
  pose proof (list_subscriptions_no_session (set_outside o0 w)) as Hs0.
  rewrite Hl in Hs0. simpl in Hs0.
  apply filter_no_session in Hs0 as [Hc0 Hd0].
  pose proof (guarded_loop_no_session fuel w1) as Hs2.
  pose proof (guarded_loop_returns_False fuel w1) as Hr.
  unfold start, bind, outside_call. rewrite Hc. simpl. rewrite Hl.
  destruct (guarded_loop fuel w1) as [[[e|ex] w2] e2]; simpl in *.
  - apply filter_no_session in Hs2 as [Hc2 Hd2].
    destruct e as [| |v| |]; simpl.
    1,2,4: destruct (disconnect (outside w2)) as [[vd|ed] od]; simpl;
      rewrite !List.filter_app, ?Hc0, ?Hd0, ?Hc2, ?Hd2; simpl;
      (split; [reflexivity|]); (split; [reflexivity|]);
      exists (EvConnect (Ok v0) :: e0 ++ e2); simpl;
      rewrite <- app_assoc; reflexivity.
    + rewrite (Hr v eq_refl).
      rewrite !List.filter_app, ?Hc0, ?Hd0, ?Hc2, ?Hd2. simpl. auto.
    + rewrite !List.filter_app, ?Hc0, ?Hd0, ?Hc2, ?Hd2. simpl. auto.
  - apply filter_no_session in Hs2 as [Hc2 Hd2].
    rewrite !List.filter_app, ?Hc0, ?Hd0, ?Hc2, ?Hd2. simpl. auto.
Qed.

End StartProps.

(** ** Hooks that say no *)

Section HookProps.
Context {Env Responses : Type} {X : Externals Env Responses}.

Lemma no_veto_of_emits {A} (m : M Env A) :
  emits not_hook m -> ∀ w, no_veto (m w).2.
Proof.
  intros Hm w. eapply Forall_impl; [|exact (Hm w)].
  intros [] Hk; try reflexivity. exfalso. apply Hk. reflexivity.
Qed.

Lemma veto_last_quiet {A} (stopped : Result A -> Prop) (m : M Env A) :
  (∀ w, no_veto (m w).2) -> veto_last stopped m.
Proof. intros H w. left. apply H. Qed.

Lemma veto_last_bind_quiet {A B} (stopped : Result B -> Prop)
    (m : M Env A) (k : A -> M Env B) :
  (∀ w, no_veto (m w).2) -> (∀ a, veto_last stopped (k a)) ->
  veto_last stopped (bind m k).
Proof.
  intros Hm Hk w. unfold bind. specialize (Hm w).
  destruct (m w) as [[[a|e] w1] e1]; simpl in *; [|left; exact Hm].
  specialize (Hk a w1). destruct (k a w1) as [[r w2] e2]; simpl in *.
  destruct Hk as [Hq|(init & last & -> & Hi & Hl & Hs)].
  - left. apply Forall_app. split; assumption.
  - right. exists (e1 ++ init), last. rewrite app_assoc.
    repeat split; try assumption. apply Forall_app. split; assumption.
Qed.

(** [if not self._try_hook(name): <stop>], followed by [rest]. *)
Lemma veto_last_guard {A} (stopped : Result A -> Prop) (name : string)
    (stop : A) (rest : M Env A) :
  stopped (Ok stop) -> veto_last stopped rest ->
  veto_last stopped
    (h <- try_hook name ;; if negb (truthy h) then ret stop else rest).
Proof.
  intros Hstop Hrest w. unfold bind, try_hook, user_call.
  destruct (_try_hook name w) as [[v|e] w1]; simpl.
  - destruct (truthy v) eqn:Hv; simpl.
    + specialize (Hrest w1). destruct (rest w1) as [[r w2] e2]; simpl in *.
      destruct Hrest as [Hq|(init & last & -> & Hi & Hl & Hs)].
      * left. constructor; [simpl; rewrite Hv; reflexivity|exact Hq].
      * right. exists (EvHook name (Ok v) :: init), last.
        repeat split; try assumption.
        constructor; [simpl; rewrite Hv; reflexivity|exact Hi].
    + right. exists [], (EvHook name (Ok v)).
      repeat split; [constructor|simpl; rewrite Hv; reflexivity|exact Hstop].
  - left. repeat constructor.
Qed.

(** A computation that may have been stopped by a hook, followed by a
    continuation that does nothing more once it has. *)
Lemma veto_last_bind_stop {A B} (stopped1 : Result A -> Prop)
    (stopped : Result B -> Prop) (m : M Env A) (k : A -> M Env B) :
  veto_last stopped1 m ->
  (∀ a, veto_last stopped (k a)) ->
  (∀ a, stopped1 (Ok a) -> ∀ w, (k a w).2 = [] ∧ stopped (k a w).1.1) ->
  (∀ e, ¬ stopped1 (Raise e)) ->
  veto_last stopped (bind m k).
Proof.
  intros Hm Hk Hstop Hraise w. unfold bind. specialize (Hm w).
  destruct (m w) as [[[a|e] w1] e1]; simpl in *.
  - destruct Hm as [Hq|(init & last & -> & Hi & Hl & Hs)].
    + specialize (Hk a w1). destruct (k a w1) as [[r w2] e2]; simpl in *.
      destruct Hk as [Hq2|(init & last & -> & Hi & Hl & Hs)].
      * left. apply Forall_app. split; assumption.
      * right. exists (e1 ++ init), last. rewrite app_assoc.
        repeat split; try assumption. apply Forall_app. split; assumption.
    + destruct (Hstop a Hs w1) as [He2 Hr].
      destruct (k a w1) as [[r w2] e2]; simpl in *. subst e2.
      right. exists init, last. rewrite app_nil_r. repeat split; assumption.
  - destruct Hm as [Hq|(init & last & -> & Hi & Hl & Hs)].
    + left. exact Hq.
    + exfalso. exact (Hraise e Hs).
Qed.

Lemma dispatch_loop_no_veto (message_data : list Message) (w : World Env) :
  no_veto (for_each dispatch_message message_data w).2.
Proof.
  apply no_veto_of_emits. apply emits_for_each. intros m.
  apply emits_dispatch_message. discriminate.
Qed.

Lemma dispatch_veto_last (message_data : list Message) :
  veto_last (fun r => r = Ok false) (_dispatch message_data).
Proof.
  unfold _dispatch.
  apply veto_last_guard; [reflexivity|].
  apply veto_last_bind_quiet; [apply dispatch_loop_no_veto|]. intros _.
  apply veto_last_guard; [reflexivity|].
  apply veto_last_quiet. intros w. constructor.
Qed.

Lemma cycle_veto_last : veto_last cycle_stopped cycle.
Proof.
  unfold cycle.
  apply veto_last_bind_quiet; [apply no_veto_of_emits, emits_now|]. intros cur_time.
  apply veto_last_bind_quiet; [intros w; constructor|]. intros last.
  apply veto_last_bind_quiet; [intros w; constructor|]. intros wait.
  destruct (cur_time - last <? wait)%Z;
    [apply veto_last_quiet; intros w; constructor|].
  apply veto_last_bind_quiet; [intros w; constructor|]. intros _.
  apply veto_last_guard; [left; reflexivity|].
  apply veto_last_bind_quiet;
    [apply no_veto_of_emits, emits_poll; discriminate|]. intros message_data.
  apply veto_last_guard; [left; reflexivity|].
  apply (veto_last_bind_stop (fun r => r = Ok false));
    [apply dispatch_veto_last| | |discriminate].
  2: { intros a [= ->] w. split; [reflexivity|right; reflexivity]. }
  intros d. destruct (negb d); [apply veto_last_quiet; intros w; constructor|].
  apply veto_last_guard; [left; reflexivity|].
  apply veto_last_bind_quiet;
    [apply no_veto_of_emits, emits_handle_transactions; discriminate|]. intros t.
  destruct (negb t); [apply veto_last_quiet; intros w; constructor|].
  apply veto_last_guard; [left; reflexivity|].
  apply veto_last_guard; [left; reflexivity|].
  apply veto_last_bind_quiet;
    [apply no_veto_of_emits, emits_poll_responses; discriminate|]. intros responses.
  apply veto_last_guard; [left; reflexivity|].
  apply veto_last_bind_quiet;
    [apply no_veto_of_emits, emits_dispatch_responses; discriminate|]. intros dr.
  destruct (negb (truthy dr)); apply veto_last_quiet; intros w; constructor.
Qed.

Lemma poll_loop_veto_last (fuel : nat) : veto_last loop_stopped (poll_loop fuel).
Proof.
  induction fuel as [|n IH]; simpl.
  - apply veto_last_quiet. intros w. constructor.
  - apply veto_last_bind_quiet; [intros w; constructor|]. intros go.
    destruct (negb go); [apply veto_last_quiet; intros w; constructor|].
    apply (veto_last_bind_stop cycle_stopped); [apply cycle_veto_last| | |].
    + intros [| |v]; [exact IH|apply veto_last_quiet; intros w; constructor..].
    + intros s [[= ->]|[= ->]] w; simpl;
        (split; [reflexivity|]); [left|right]; reflexivity.
    + intros e [H|H]; discriminate.
Qed.

Lemma veto_in_the_middle (pre post init : list Event) (ev last : Event) :
  pre ++ ev :: post = init ++ [last] -> post = [] ∨ ev ∈ init.
Proof.
  destruct post as [|x post'] using rev_ind; [left; reflexivity|].
  intros H. right.
  rewrite app_comm_cons, app_assoc in H.
  apply app_inj_tail in H as [<- _].
  apply elem_of_app. right. apply list_elem_of_here.
Qed.

Lemma veto_last_spec {A} (stopped : Result A -> Prop) (m : M Env A)
    (w : World Env) (pre post : list Event) (ev : Event) :
  veto_last stopped m ->
  (m w).2 = pre ++ ev :: post -> hook_false ev = true ->
  post = [] ∧ stopped (m w).1.1.
Proof.
  intros Hm Hevs Hev. destruct (Hm w) as [Hq|(init & last & Heq & Hi & Hl & Hs)].
  - exfalso. rewrite Hevs in Hq. apply Forall_app in Hq as [_ Hq].
    inversion Hq; subst. congruence.
  - split; [|exact Hs]. rewrite Hevs in Heq.
    destruct (veto_in_the_middle _ _ _ _ _ Heq) as [Hp|Hin]; [exact Hp|].
    exfalso. unfold no_veto in Hi. rewrite Forall_forall in Hi.
    apply list_elem_of_In in Hin. specialize (Hi ev Hin). congruence.
Qed.

(** C6.  When a hook run returns a false value, it is the last call the
    polling loop makes: no later phase of the cycle is called, no further
    cycle is started, and the loop has ended by [break] or by
    [return False].  Likewise inside [_dispatch]: nothing is called after a
    hook that said no, and [_dispatch] returns [False]. *)
Theorem hook_false_stops_loop (w : World Env) (pre post : list Event)
    (ev : Event) :
  hook_false ev = true ->
  (∀ fuel,
      (poll_loop fuel w).2 = pre ++ ev :: post ->
      post = [] ∧ loop_stopped (poll_loop fuel w).1.1) ∧
  (∀ message_data,
      (_dispatch message_data w).2 = pre ++ ev :: post ->
      post = [] ∧ (_dispatch message_data w).1.1 = Ok false).
Proof.
  intros Hev. split.
  - intros fuel Hevs.
    exact (veto_last_spec _ _ w pre post ev (poll_loop_veto_last fuel) Hevs Hev).
  - intros message_data Hevs.
    exact (veto_last_spec _ _ w pre post ev (dispatch_veto_last message_data) Hevs Hev).
Qed.

End HookProps.

(** ** The engine at work *)

Import Scenario.

(** The example of the specification: [h1] subscribed to ["grade_update"] is
    called once, with the score and the two envelope keys. *)
Example dispatch_grade_update :
  (@_dispatch _ _ (scripted quiet_broker) [grade_update]
     (world_of (with_callbacks [("grade_update", VFun 1)] (fresh VNone)))).2 =
    [EvHook "pre_dispatch_messages" (Ok (VBool true));
     EvCall (Registered "grade_update") 1 1%positive
       {["score" := VInt 90; "message_id" := VStr "1";
         "sender_entity_id" := VStr "tutorA"]}
       (Ok (VBool true));
     EvHook "post_dispatch_messages" (Ok (VBool true))].
Proof. vm_compute. reflexivity. Qed.

(** C1 fails on the code.  With an empty registry and no wildcard,
    [_dispatch] of an ["unknown_event"] message raises nothing, and no
    [PluginPollError] in particular: it returns [True], having called
    nothing.  Were the name in the registry with the handler [None], the
    same message would make [_dispatch] raise the [PluginPollError] that
    names it. *)
Lemma dispatch_unknown_event_returns_True :
  callbacks (self (world_of (fresh VNone))) !! "unknown_event" = None ∧
  wildcard_callback (self (world_of (fresh VNone))) = VNone ∧
  (@_dispatch _ _ (scripted quiet_broker) [unknown_event]
     (world_of (fresh VNone))).1.1 = Ok true ∧
  List.filter is_call
    (@_dispatch _ _ (scripted quiet_broker) [unknown_event]
       (world_of (fresh VNone))).2 = [] ∧
  (∀ msg,
    (@_dispatch _ _ (scripted quiet_broker) [unknown_event]
       (world_of (fresh VNone))).1.1 ≠ Raise (PluginPollError msg)) ∧
  (@_dispatch _ _ (scripted quiet_broker) [unknown_event]
     (world_of (with_callbacks [("unknown_event", VNone)] (fresh VNone)))).1.1 =
    Raise (PluginPollError "No callback registered for message: <unknown_event>").
Proof.
  repeat split; try (vm_compute; reflexivity).
  intros msg. vm_compute. discriminate.
Qed.

(** An ["unknown_event"] message is skipped and the next message of the
    batch is dispatched. *)
Lemma dispatch_unregistered_no_wildcard_witness :
  callbacks (self (world_of (fresh VNone))) !! message_name unknown_event = None ∧
  wildcard_callback (self (world_of (fresh VNone))) = VNone ∧
  @dispatch_message _ _ (scripted quiet_broker) unknown_event (world_of (fresh VNone)) =
    (Ok tt, enriched unknown_event (world_of (fresh VNone)), []) ∧
  @for_each _ _ (@dispatch_message _ _ (scripted quiet_broker))
    [unknown_event; grade_update] (world_of (fresh VNone)) =
  @for_each _ _ (@dispatch_message _ _ (scripted quiet_broker))
    [grade_update] (enriched unknown_event (world_of (fresh VNone))).
Proof.
  split; [vm_compute; reflexivity|]. split; [reflexivity|].
  apply (@dispatch_unregistered_no_wildcard _ _ (scripted quiet_broker)).
  - vm_compute. reflexivity.
  - reflexivity.
Defined.

(** The handler of ["grade_update"] is the first and only callable called. *)
Lemma dispatch_registered_callable_witness :
  let w := world_of (with_callbacks [("grade_update", VFun 1)] (fresh VNone)) in
  let evs := (@dispatch_message _ _ (scripted quiet_broker) grade_update w).2 in
  let r := (behaviour 1 1%positive (enriched grade_update w)).1 in
  callbacks (self w) !! "grade_update" = Some (VFun 1) ∧
  head evs =
    Some (EvCall (Registered "grade_update") 1 1%positive
            (enriched_payload grade_update (heap (outside w) 1%positive)) r) ∧
  length (List.filter is_registered_call evs) = 1 ∧
  ((∀ k, r ≠ Raise (KeyError k)) -> tail evs = []).
Proof.
  cbv zeta. split; [vm_compute; reflexivity|].
  apply (@dispatch_registered_callable _ _ (scripted quiet_broker) grade_update).
  vm_compute. reflexivity.
Defined.

(** C2 fails on the code.  The callable 2 is both the handler of
    ["grade_update"] and the wildcard, and it raises [KeyError("score")]:
    for the one message, [_dispatch] calls it twice, the second time as the
    wildcard. *)
Lemma dispatch_handler_called_twice :
  callbacks (self (world_of (with_callbacks [("grade_update", VFun 2)] (fresh (VFun 2)))))
    !! "grade_update" = Some (VFun 2) ∧
  (@_dispatch _ _ (scripted quiet_broker) [grade_update]
     (world_of (with_callbacks [("grade_update", VFun 2)] (fresh (VFun 2))))).2 =
    [EvHook "pre_dispatch_messages" (Ok (VBool true));
     EvCall (Registered "grade_update") 2 1%positive
       {["score" := VInt 90; "message_id" := VStr "1";
         "sender_entity_id" := VStr "tutorA"]}
       (Raise (KeyError "score"));
     EvCall Wildcard 2 1%positive
       {["score" := VInt 90; "message_id" := VStr "1";
         "sender_entity_id" := VStr "tutorA"]}
       (Raise (KeyError "score"))] ∧
  length
    (List.filter is_call
       (@_dispatch _ _ (scripted quiet_broker) [grade_update]
          (world_of (with_callbacks [("grade_update", VFun 2)] (fresh (VFun 2))))).2)
    = 2.
Proof. repeat split; vm_compute; reflexivity. Qed.

(** C4 fails on the code.  The handler of ["grade_update"] raises
    [KeyError("score")]; [_dispatch] takes it for a missing registry entry,
    calls the wildcard and returns [True].  With no wildcard the exception
    simply disappears. *)
Lemma dispatch_handler_KeyError_swallowed :
  (@_dispatch _ _ (scripted quiet_broker) [grade_update]
     (world_of (with_callbacks [("grade_update", VFun 2)] (fresh (VFun 1))))).1.1
    = Ok true ∧
  (@_dispatch _ _ (scripted quiet_broker) [grade_update]
     (world_of (with_callbacks [("grade_update", VFun 2)] (fresh (VFun 1))))).2 =
    [EvHook "pre_dispatch_messages" (Ok (VBool true));
     EvCall (Registered "grade_update") 2 1%positive
       {["score" := VInt 90; "message_id" := VStr "1";
         "sender_entity_id" := VStr "tutorA"]}
       (Raise (KeyError "score"));
     EvCall Wildcard 1 1%positive
       {["score" := VInt 90; "message_id" := VStr "1";
         "sender_entity_id" := VStr "tutorA"]}
       (Ok (VBool true));
     EvHook "post_dispatch_messages" (Ok (VBool true))] ∧
  (@_dispatch _ _ (scripted quiet_broker) [grade_update]
     (world_of (with_callbacks [("grade_update", VFun 2)] (fresh VNone)))).1.1
    = Ok true ∧
  List.filter is_call
    (@_dispatch _ _ (scripted quiet_broker) [grade_update]
       (world_of (with_callbacks [("grade_update", VFun 2)] (fresh VNone)))).2 =
    [EvCall (Registered "grade_update") 2 1%positive
       {["score" := VInt 90; "message_id" := VStr "1";
         "sender_entity_id" := VStr "tutorA"]}
       (Raise (KeyError "score"))].
Proof. repeat split; vm_compute; reflexivity. Qed.


(** [handle_transactions_outcome] at work: no handler, a handler that says
    [False] on the first record, and a handler that says [True]. *)
Lemma handle_transactions_outcome_witness :
  let X := scripted ledger_broker in
  let resp := {| subscriptions := Some (Iterable []); messages := Some [];
                 transactions := Some [1%positive] |} in
  let fetch := EvGet "plugin/transaction/list" (Ok resp) in
  let w0 := world_of (fresh VNone) in
  let w3 := world_of (set_transaction_callback (VFun 3) (fresh VNone)) in
  let w1 := world_of (set_transaction_callback (VFun 1) (fresh VNone)) in
  @_handle_transactions _ _ X w0 = (Ok true, w0, [fetch]) ∧
  @_handle_transactions _ _ X w3 =
    (Ok false, w3,
     fetch :: [] ++ [EvCall Transaction 3 1%positive (heap (outside w3) 1%positive)
                       (Ok (VBool false))]) ∧
  @_handle_transactions _ _ X w1 =
    (Ok true, w1,
     [fetch;
      EvCall Transaction 1 1%positive (heap (outside w1) 1%positive) (Ok (VBool true))]).
Proof.
  cbv zeta. split; [|split].
  - apply (proj1 (@handle_transactions_outcome _ _ (scripted ledger_broker)
                    (world_of (fresh VNone)) _ _ [1%positive] eq_refl eq_refl)).
    reflexivity.
  - apply (proj1 (proj2 (@handle_transactions_outcome _ _ (scripted ledger_broker)
                    (world_of (set_transaction_callback (VFun 3) (fresh VNone)))
                    _ _ [1%positive] eq_refl eq_refl))
             [] [] 1%positive _ _ [] (function 3) (VBool false));
      try reflexivity.
    apply consumed_nil.
  - apply (proj2 (proj2 (@handle_transactions_outcome _ _ (scripted ledger_broker)
                    (world_of (set_transaction_callback (VFun 1) (fresh VNone)))
                    _ _ [1%positive] eq_refl eq_refl))).
    eexists. split; [reflexivity|].
    eapply consumed_call; [reflexivity|reflexivity|reflexivity|reflexivity|].
    apply consumed_nil.
Defined.

(** C5 at work on the failing input: a callable whose truth value is false
    is accepted by [register_transaction_callback], and the record the broker
    hands out is never passed to it. *)
Lemma handle_transactions_skips_falsy_handler_witness :
  let X := scripted ledger_broker in
  let cb := Workshop.falsy_callable in
  let resp := {| subscriptions := Some (Iterable []); messages := Some [];
                 transactions := Some [1%positive] |} in
  let w := world_of (fresh VNone) in
  let w1 := world_of (set_transaction_callback cb (fresh VNone)) in
  @register_transaction_callback _ _ X cb w =
    (Ok tt, w1,
     [EvPost "plugin/subscribe" {["message_name" := VStr "transaction"]} (Ok VNone)]) ∧
  truthy cb = false ∧
  callable cb = true ∧
  transaction_callback (self w1) = cb ∧
  @_handle_transactions _ _ X w1 =
    (Ok true, w1, [EvGet "plugin/transaction/list" (Ok resp)]).
Proof.
  cbv zeta. split; [reflexivity|]. split; [reflexivity|].
  exact (@handle_transactions_skips_falsy_handler _ _ (scripted ledger_broker)
           Workshop.falsy_callable
           (world_of (fresh VNone)) _ _ _ _ [1%positive]
           eq_refl eq_refl eq_refl eq_refl).
Defined.

(** C7 as stated fails: the broker lists ["grade_update"], for which the
    plugin never sent a subscribe request, and [list_subscriptions] puts the
    name into the registry. *)
Lemma list_subscriptions_adds_unacknowledged_name :
  callbacks (self (world_of (fresh VNone))) = ∅ ∧
  callbacks
    (self (@run_ops _ _ (scripted listing_broker) [OpListSubscriptions]
             (world_of (fresh VNone))).1) !! "grade_update" = Some VNone ∧
  ¬ subscribe_acked "grade_update"
      (@run_ops _ _ (scripted listing_broker) [OpListSubscriptions]
         (world_of (fresh VNone))).2.
Proof.
  split; [reflexivity|]. split; [vm_compute; reflexivity|].
  intros [v Hv]. vm_compute in Hv.
  apply list_elem_of_In in Hv. simpl in Hv.
  destruct Hv as [Hv|[]]. discriminate.
Qed.

(** The amended C7 at work, with a broker that refuses one of the
    subscriptions. *)
Lemma registry_after_operations_witness :
  let ops := [OpSubscribe [("a", VFun 1); ("b", VFun 1)];
              OpListSubscriptions; OpUnsubscribe ["a"; "zzz"]] in
  let w := world_of (fresh VNone) in
  callbacks (self w) = ∅ ∧
  (∀ name h1 h2,
      callbacks (self (@run_ops _ _ (scripted refusing_broker) ops w).1) !! name = Some h1 ->
      callbacks (self (@run_ops _ _ (scripted refusing_broker) ops w).1) !! name = Some h2 ->
      h1 = h2) ∧
  registry_backed (@run_ops _ _ (scripted refusing_broker) ops w).1
    (@run_ops _ _ (scripted refusing_broker) ops w).2.
Proof.
  cbv zeta. split; [reflexivity|].
  apply (@registry_after_operations _ _ (scripted refusing_broker)). reflexivity.
Defined.

(** C8 at work: the broker refuses ["b"], the second of three entries. *)
Lemma subscribe_failure_leaves_registry_witness :
  let X := scripted refusing_broker in
  let w := world_of (fresh VNone) in
  let w1 := (@subscribe _ _ X [("a", VFun 1)] w).1.2 in
  let e1 := (@subscribe _ _ X [("a", VFun 1)] w).2 in
  let e := OtherException "ConnectionError" "refused" in
  @subscribe _ _ X [("a", VFun 1)] w = (Ok tt, w1, e1) ∧
  @_post_data _ _ X "plugin/subscribe" {["message_name" := VStr "b"]} (outside w1)
    = (Raise e, outside w1) ∧
  @subscribe _ _ X ([("a", VFun 1)] ++ ("b", VFun 0) :: [("c", VFun 1)]) w =
    (Raise e, set_outside (outside w1) w1,
     e1 ++ [EvPost "plugin/subscribe" {["message_name" := VStr "b"]} (Raise e)]) ∧
  self (@subscribe _ _ X ([("a", VFun 1)] ++ ("b", VFun 0) :: [("c", VFun 1)]) w).1.2
    = self w1 ∧
  callbacks
    (self (@subscribe _ _ X ([("a", VFun 1)] ++ ("b", VFun 0) :: [("c", VFun 1)]) w).1.2)
    !! "b" = callbacks (self w1) !! "b".
Proof.
  cbv zeta. split; [reflexivity|]. split; [reflexivity|].
  apply (@subscribe_failure_leaves_registry _ _ (scripted refusing_broker)
           [("a", VFun 1)] [("c", VFun 1)] "b" (VFun 0)); reflexivity.
Defined.

(** C9 at work: a string is turned down, a function is registered. *)
Lemma register_transaction_callback_checks_witness :
  let X := scripted quiet_broker in
  let w := world_of (fresh VNone) in
  (callable (VStr "handler") = false ∧
   @register_transaction_callback _ _ X (VStr "handler") w =
     (Raise (BadCallbackException "The callback submitted is not callable."), w, [])) ∧
  (callable (VFun 1) = true ∧
   @_post_data _ _ X "plugin/subscribe" {["message_name" := VStr "transaction"]}
      (outside w) = (Ok VNone, outside w) ∧
   @register_transaction_callback _ _ X (VFun 1) w =
     (Ok tt,
      set_self (set_transaction_callback (VFun 1) (self w)) (set_outside (outside w) w),
      [EvPost "plugin/subscribe" {["message_name" := VStr "transaction"]} (Ok VNone)])).
Proof.
  cbv zeta. split.
  - split; [reflexivity|].
    apply (proj1 (@register_transaction_callback_checks _ _ (scripted quiet_broker)
                    (VStr "handler") (world_of (fresh VNone)))).
    reflexivity.
  - split; [reflexivity|]. split; [reflexivity|].
    apply (proj2 (@register_transaction_callback_checks _ _ (scripted quiet_broker)
                    (VFun 1) (world_of (fresh VNone))));
      reflexivity.
Defined.

(** C3 fails on the code.  When the transaction handler returns [False] on
    the first record, or the [pre_dispatch_messages] hook makes the
    dispatcher return [False], [start] returns [False] having called
    [connect] once and [disconnect] not at all. *)
Lemma start_returns_False_without_disconnect :
  let wt := world_of (set_transaction_callback (VFun 3) (fresh VNone)) in
  let wd := world_of (fresh VNone) in
  ((@start _ _ (scripted ledger_broker) 5 wt).1.1 = Ok (Finished (VBool false)) ∧
   length (List.filter is_connect (@start _ _ (scripted ledger_broker) 5 wt).2) = 1 ∧
   List.filter is_disconnect (@start _ _ (scripted ledger_broker) 5 wt).2 = []) ∧
  ((@start _ _ (scripted (veto "pre_dispatch_messages")) 5 wd).1.1
     = Ok (Finished (VBool false)) ∧
   length (List.filter is_connect
             (@start _ _ (scripted (veto "pre_dispatch_messages")) 5 wd).2) = 1 ∧
   List.filter is_disconnect
     (@start _ _ (scripted (veto "pre_dispatch_messages")) 5 wd).2 = []).
Proof. cbv zeta. repeat split; vm_compute; reflexivity. Qed.

(** The [pre_poll_messages] hook says no: the loop ends by [break] and
    [disconnect] is called. *)
Lemma start_connect_disconnect_witness :
  let X := scripted (veto "pre_poll_messages") in
  let w := world_of (fresh VNone) in
  let after := @list_subscriptions _ _ X (set_outside (outside w) w) in
  @connect _ _ X (outside w) = (Ok VNone, outside w) ∧
  after = (Ok (callbacks (self after.1.2)), after.1.2, after.2) ∧
  (@guarded_loop _ _ X 5 after.1.2).1.1 = Ok Broke ∧
  length (List.filter is_connect (@start _ _ X 5 w).2) = 1 ∧
  length (List.filter is_disconnect (@start _ _ X 5 w).2) = 1 ∧
  ∃ init,
    (@start _ _ X 5 w).2 =
      init ++ [EvDisconnect
                 (@disconnect _ _ X (outside (@guarded_loop _ _ X 5 after.1.2).1.2)).1].
Proof.
  cbv zeta. split; [reflexivity|]. split; [reflexivity|].
  split; [vm_compute; reflexivity|].
  pose proof (@start_connect_disconnect _ _ (scripted (veto "pre_poll_messages")) 5
                (world_of (fresh VNone)) _ VNone _ _ _ eq_refl eq_refl) as H.
  destruct H as [Hc Hd]. split; [exact Hc|].
  exact Hd.
Defined.

(** C6 at work: [post_poll_messages] says no and nothing is called after
    it. *)
Lemma hook_false_stops_loop_witness :
  let X := scripted (veto "post_poll_messages") in
  let w := world_of (fresh VNone) in
  let pre := [EvHook "pre_poll_messages" (Ok (VBool true));
              EvGet "plugin/message/list"
                (Ok {| subscriptions := Some (Iterable []); messages := Some [];
                       transactions := Some [] |})] in
  let ev := EvHook "post_poll_messages" (Ok (VBool false)) in
  hook_false ev = true ∧
  (@poll_loop _ _ X 4 w).2 = pre ++ ev :: [] ∧
  ([] = ([] : list Event) ∧ loop_stopped (@poll_loop _ _ X 4 w).1.1).
Proof.
  cbv zeta. split; [reflexivity|]. split; [vm_compute; reflexivity|].
  apply (proj1 (@hook_false_stops_loop _ _ (scripted (veto "post_poll_messages"))
                  (world_of (fresh VNone))
                  [EvHook "pre_poll_messages" (Ok (VBool true));
                   EvGet "plugin/message/list"
                     (Ok {| subscriptions := Some (Iterable []); messages := Some [];
                            transactions := Some [] |})]
                  [] (EvHook "post_poll_messages" (Ok (VBool false))) eq_refl) 4).
  vm_compute. reflexivity.
Defined.

(** * Further properties *)

(** ** The registry operations, one by one *)

Section RegistryMore.
Context {Env Responses : Type} {X : Externals Env Responses}.

Lemma plugin_eq (p p' : Plugin) :
  callbacks p = callbacks p' -> besides_registry p = besides_registry p' -> p = p'.
Proof.
  destruct p, p'. unfold besides_registry, set_callbacks. simpl.
  intros -> [=]. subst. reflexivity.
Qed.

Lemma unsubscribe_ok (names : list string) (w w1 : World Env) e1 :
  unsubscribe names w = (Ok tt, w1, e1) ->
  besides_registry (self w1) = besides_registry (self w) ∧
  (∀ n, callbacks (self w1) !! n =
          if decide (n ∈ names) then None else callbacks (self w) !! n) ∧
  Forall (fun ev => ∃ n v, n ∈ names ∧
            ev = EvPost "plugin/unsubscribe" {["message_name" := VStr n]} (Ok v)) e1.
Proof.
  unfold unsubscribe. revert w e1.
  induction names as [|x xs IH]; intros w e1 H.
  - inversion H; subst. split; [reflexivity|]. split; [|constructor].
    intros n. rewrite decide_False; [reflexivity|]. apply not_elem_of_nil.
  - rewrite for_each_cons_run, unsubscribe_name_run in H.
    destruct (callbacks (self w) !! x) as [h|] eqn:Hx.
    + destruct (_post_data _ _ (outside w)) as [[v|e] o]; [|discriminate].
      destruct (for_each unsubscribe_name xs _) as [[r w2] e2] eqn:Hxs.
      simpl in H. inversion H; subst.
      destruct (IH _ _ Hxs) as (Hb & Hl & He). split; [exact Hb|]. split.
      * intros n. rewrite Hl. simpl.
        destruct (decide (n ∈ xs)) as [Hin|Hnin].
        -- rewrite decide_True; [reflexivity|]. apply elem_of_cons. auto.
        -- destruct (decide (n = x)) as [->|Hne].
           ++ rewrite decide_True by apply list_elem_of_here.
              apply lookup_delete_eq.
           ++ rewrite decide_False.
              ** apply lookup_delete_ne. congruence.
              ** intros Hc. apply elem_of_cons in Hc as [?|?]; contradiction.
      * constructor.
        -- exists x, v. split; [apply list_elem_of_here|reflexivity].
        -- eapply Forall_impl; [|exact He].
           intros ev (n & v' & Hn & ->). exists n, v'.
           split; [apply list_elem_of_further; exact Hn|reflexivity].
    + destruct (for_each unsubscribe_name xs w) as [[r w2] e2] eqn:Hxs.
      simpl in H. inversion H; subst.
      destruct (IH _ _ Hxs) as (Hb & Hl & He). split; [exact Hb|]. split.
      * intros n. rewrite Hl.
        destruct (decide (n ∈ xs)) as [Hin|Hnin].
        -- rewrite decide_True; [reflexivity|]. apply elem_of_cons. auto.
        -- destruct (decide (n = x)) as [->|Hne].
           ++ rewrite decide_True by apply list_elem_of_here. exact Hx.
           ++ rewrite decide_False; [reflexivity|].
              intros Hc. apply elem_of_cons in Hc as [?|?]; contradiction.
      * eapply Forall_impl; [|exact He].
        intros ev (n & v' & Hn & ->). exists n, v'.
        split; [apply list_elem_of_further; exact Hn|reflexivity].
Qed.

Lemma unsubscribe_absent (names : list string) (w : World Env) :
  (∀ n, n ∈ names -> callbacks (self w) !! n = None) ->
  unsubscribe names w = (Ok tt, w, []).
Proof.
  unfold unsubscribe. induction names as [|x xs IH]; intros H; [reflexivity|].
  rewrite for_each_cons_run, unsubscribe_name_run.
  rewrite (H x (list_elem_of_here x xs)).
  rewrite IH; [reflexivity|].
  intros n Hn. apply H. apply list_elem_of_further. exact Hn.
Qed.

(** After [unsubscribe] has returned, none of the names given is in the
    registry, every other name has the handler it had, the rest of the plugin
    object is as it was, and what was sent are unsubscribe requests for names
    of the list, all acknowledged. *)
Theorem unsubscribe_removes (names : list string) (w w1 : World Env) e1 :
  unsubscribe names w = (Ok tt, w1, e1) ->
  (∀ n, n ∈ names -> callbacks (self w1) !! n = None) ∧
  (∀ n, n ∉ names -> callbacks (self w1) !! n = callbacks (self w) !! n) ∧
  besides_registry (self w1) = besides_registry (self w) ∧
  Forall (fun ev => ∃ n v, n ∈ names ∧
            ev = EvPost "plugin/unsubscribe" {["message_name" := VStr n]} (Ok v)) e1.
Proof.
  intros H. destruct (unsubscribe_ok names w w1 e1 H) as (Hb & Hl & He).
  repeat split; try assumption.
  - intros n Hn. rewrite Hl, decide_True by exact Hn. reflexivity.
  - intros n Hn. rewrite Hl, decide_False by exact Hn. reflexivity.
Qed.

(** Names that are not in the registry are passed over: no request is sent
    for them and nothing changes.  So a second [unsubscribe] of the same
    names, after one that returned, does nothing at all. *)
Theorem unsubscribe_is_idempotent (names : list string) (w w1 : World Env) e1 :
  ((∀ n, n ∈ names -> callbacks (self w) !! n = None) ->
   unsubscribe names w = (Ok tt, w, [])) ∧
  (unsubscribe names w = (Ok tt, w1, e1) ->
   unsubscribe names w1 = (Ok tt, w1, [])).
Proof.
  split.
  - apply unsubscribe_absent.
  - intros H. destruct (unsubscribe_ok names w w1 e1 H) as (_ & Hl & _).
    apply unsubscribe_absent. intros n Hn.
    rewrite Hl, decide_True by exact Hn. reflexivity.
Qed.

(** When the unsubscribe request for a name raises, [unsubscribe] raises the
    same exception at once: the name keeps its handler in the registry and
    the names after it are not looked at. *)
Theorem unsubscribe_failure_keeps_entry (pre post : list string) (name : string)
    (h : Val) (w w1 : World Env) e1 (e : Exn) (o2 : Outside Env) :
  unsubscribe pre w = (Ok tt, w1, e1) ->
  callbacks (self w1) !! name = Some h ->
  _post_data "plugin/unsubscribe" {["message_name" := VStr name]} (outside w1)
    = (Raise e, o2) ->
  unsubscribe (pre ++ name :: post) w =
    (Raise e, set_outside o2 w1,
     e1 ++ [EvPost "plugin/unsubscribe" {["message_name" := VStr name]} (Raise e)]) ∧
  callbacks (self (unsubscribe (pre ++ name :: post) w).1.2) !! name = Some h.
Proof.
  intros Hpre Hreg Hpost.
  assert (H : unsubscribe (pre ++ name :: post) w =
    (Raise e, set_outside o2 w1,
     e1 ++ [EvPost "plugin/unsubscribe" {["message_name" := VStr name]} (Raise e)])).
  { unfold unsubscribe in *. rewrite (for_each_app _ _ _ _ _ _ Hpre).
    rewrite for_each_cons_run, unsubscribe_name_run, Hreg, Hpost. reflexivity. }
  rewrite H. split; [reflexivity|exact Hreg].
Qed.

Lemma subscribe_ok (messages : list (string * Val)) (w w1 : World Env) e1 :
  subscribe messages w = (Ok tt, w1, e1) ->
  besides_registry (self w1) = besides_registry (self w) ∧
  callbacks (self w1) =
    foldl (fun c entry => <[entry.1 := entry.2]> c) (callbacks (self w)) messages ∧
  ∃ vs, length vs = length messages ∧
        e1 = zip_with
               (fun entry v =>
                  EvPost "plugin/subscribe" {["message_name" := VStr entry.1]} (Ok v))
               messages vs.
Proof.
  unfold subscribe. revert w e1.
  induction messages as [|x xs IH]; intros w e1 H.
  - inversion H; subst. split; [reflexivity|]. split; [reflexivity|].
    exists []. split; reflexivity.
  - rewrite for_each_cons_run, subscribe_entry_run in H.
    destruct (_post_data _ _ (outside w)) as [[v|e] o]; [|discriminate].
    destruct (for_each subscribe_entry xs _) as [[r w2] e2] eqn:Hxs.
    simpl in H. inversion H; subst.
    destruct (IH _ _ Hxs) as (Hb & Hc & vs & Hlen & He).
    split; [exact Hb|]. split; [exact Hc|].
    exists (v :: vs). simpl. rewrite Hlen, He. split; reflexivity.
Qed.

Lemma foldl_insert_other (messages : list (string * Val)) (c : gmap string Val) n :
  n ∉ messages.*1 ->
  foldl (fun c entry => <[entry.1 := entry.2]> c) c messages !! n = c !! n.
Proof.
  revert c. induction messages as [|[k v] xs IH]; intros c Hn; [reflexivity|].
  simpl in *. rewrite IH.
  - apply lookup_insert_ne. intros ->. apply Hn. apply list_elem_of_here.
  - intros Hc. apply Hn. apply list_elem_of_further. exact Hc.
Qed.

Lemma foldl_insert_member (messages : list (string * Val)) (c : gmap string Val) n cb :
  NoDup messages.*1 -> (n, cb) ∈ messages ->
  foldl (fun c entry => <[entry.1 := entry.2]> c) c messages !! n = Some cb.
Proof.
  revert c. induction messages as [|[k v] xs IH]; intros c Hnd Hin.
  - apply elem_of_nil in Hin. contradiction.
  - simpl in *. inversion Hnd as [|? ? Hx Hnd']; subst.
    apply elem_of_cons in Hin as [[= -> ->]|Hin].
    + rewrite foldl_insert_other by exact Hx. apply lookup_insert_eq.
    + apply IH; assumption.
Qed.

(** After [subscribe] has returned, every entry of the mapping given is in
    the registry with its handler, every other name has the handler it had,
    the rest of the plugin object is as it was, and one subscribe request was
    sent per entry, in the order of the mapping. *)
Theorem subscribe_records (messages : list (string * Val)) (w w1 : World Env) e1 :
  NoDup messages.*1 ->
  subscribe messages w = (Ok tt, w1, e1) ->
  (∀ n cb, (n, cb) ∈ messages -> callbacks (self w1) !! n = Some cb) ∧
  (∀ n, n ∉ messages.*1 -> callbacks (self w1) !! n = callbacks (self w) !! n) ∧
  besides_registry (self w1) = besides_registry (self w) ∧
  ∃ vs, length vs = length messages ∧
        e1 = zip_with
               (fun entry v =>
                  EvPost "plugin/subscribe" {["message_name" := VStr entry.1]} (Ok v))
               messages vs.
Proof.
  intros Hnd H. destruct (subscribe_ok messages w w1 e1 H) as (Hb & Hc & He).
  repeat split; try assumption.
  - intros n cb Hin. rewrite Hc. apply foldl_insert_member; assumption.
  - intros n Hn. rewrite Hc. apply foldl_insert_other. exact Hn.
Qed.

(** Subscribing to names that were not in the registry and unsubscribing from
    them again gives back the plugin object one started from. *)
Theorem subscribe_unsubscribe_round_trip (messages : list (string * Val))
    (w w1 w2 : World Env) e1 e2 :
  (∀ n, n ∈ messages.*1 -> callbacks (self w) !! n = None) ->
  subscribe messages w = (Ok tt, w1, e1) ->
  unsubscribe messages.*1 w1 = (Ok tt, w2, e2) ->
  self w2 = self w.
Proof.
  intros Hnew Hs Hu.
  destruct (subscribe_ok messages w w1 e1 Hs) as (Hb1 & Hc1 & _).
  destruct (unsubscribe_ok _ w1 w2 e2 Hu) as (Hb2 & Hl2 & _).
  apply plugin_eq; [|congruence].
  apply map_eq. intros n. rewrite Hl2.
  destruct (decide (n ∈ messages.*1)) as [Hin|Hnin].
  - symmetry. apply Hnew. exact Hin.
  - rewrite Hc1. apply foldl_insert_other. exact Hnin.
Qed.

End RegistryMore.

(** ** [list_subscriptions] and the answers of the broker *)

Section ListingMore.
Context {Env Responses : Type} {X : Externals Env Responses}.

Lemma names_before_all (subs : list Sub) :
  first_unhashable subs = None -> subs = Name <$> names_before subs.
Proof.
  induction subs as [|[name|type] rest IH]; intros H; [reflexivity| |discriminate].
  simpl. f_equal. apply IH. exact H.
Qed.

Lemma names_before_split (subs : list Sub) (type : string) :
  first_unhashable subs = Some type ->
  ∃ rest, subs = (Name <$> names_before subs) ++ Unhashable type :: rest.
Proof.
  induction subs as [|[name|type'] rest IH]; intros H; [discriminate| |].
  - destruct (IH H) as [rest' Hr]. exists rest'. simpl. f_equal. exact Hr.
  - inversion H; subst. exists rest. reflexivity.
Qed.

(** The loop of [list_subscriptions] sends nothing.  It enters the names it
    meets, and raises [TypeError] at the first element that cannot be
    hashed, leaving in the registry the names met before it. *)
Lemma note_subscriptions_run (subs : list Sub) (w : World Env) :
  ∃ w1,
    for_each note_subscription subs w =
      (match first_unhashable subs with
       | None => Ok tt
       | Some type => Raise (TypeError ("unhashable type: '" +:+ type +:+ "'"))
       end, w1, []) ∧
    outside w1 = outside w ∧
    besides_registry (self w1) = besides_registry (self w) ∧
    ∀ n, callbacks (self w1) !! n =
           match callbacks (self w) !! n with
           | Some h => Some h
           | None => if decide (n ∈ names_before subs) then Some VNone else None
           end.
Proof.
  revert w. induction subs as [|[x|type] xs IH]; intros w.
  - exists w. repeat split. intros n. destruct (_ !! n); [reflexivity|].
    rewrite decide_False; [reflexivity|]. apply not_elem_of_nil.
  - rewrite for_each_cons_run, note_subscription_run. simpl.
    destruct (callbacks (self w) !! x) as [h|] eqn:Hx.
    + destruct (IH w) as (w1 & Hrun & Ho & Hb & Hl). exists w1.
      rewrite Hrun. repeat split; try assumption.
      intros n. rewrite Hl. destruct (callbacks (self w) !! n) eqn:Hn; [reflexivity|].
      destruct (decide (n ∈ names_before xs)) as [Hin|Hnin].
      * rewrite decide_True; [reflexivity|]. apply list_elem_of_further. exact Hin.
      * rewrite decide_False; [reflexivity|].
        intros Hc. apply elem_of_cons in Hc as [->|?]; [congruence|contradiction].
    + destruct (IH (set_self (set_callbacks (<[x := VNone]> (callbacks (self w))) (self w)) w))
        as (w1 & Hrun & Ho & Hb & Hl).
      exists w1. rewrite Hrun. repeat split; try assumption.
      intros n. rewrite Hl. simpl.
      destruct (decide (n = x)) as [->|Hne].
      * rewrite lookup_insert_eq, Hx.
        rewrite decide_True by apply list_elem_of_here. reflexivity.
      * rewrite lookup_insert_ne by congruence.
        destruct (callbacks (self w) !! n); [reflexivity|].
        destruct (decide (n ∈ names_before xs)) as [Hin|Hnin].
        -- rewrite decide_True; [reflexivity|]. apply list_elem_of_further. exact Hin.
        -- rewrite decide_False; [reflexivity|].
           intros Hc. apply elem_of_cons in Hc as [?|?]; contradiction.
  - exists w. rewrite for_each_cons_run, note_subscription_run.
    repeat split. intros n. destruct (_ !! n); [reflexivity|].
    rewrite decide_False; [reflexivity|]. apply not_elem_of_nil.
Qed.

(** When [list_subscriptions] returns, it has sent one request, and the
    answer held a list of names under ["subscriptions"]; every name that was
    in the registry has kept its handler, every other name the broker listed
    is there with [None], nothing else was added, the rest of the plugin
    object is as it was, and the mapping returned is the registry. *)
Theorem list_subscriptions_merges (w w1 : World Env) (cbs : gmap string Val) e1 :
  list_subscriptions w = (Ok cbs, w1, e1) ->
  ∃ resp subs,
    _get_data "plugin/subscription/list" (outside w) = (Ok resp, outside w1) ∧
    subscriptions resp = Some (Iterable (Name <$> subs)) ∧
    e1 = [EvGet "plugin/subscription/list" (Ok resp)] ∧
    cbs = callbacks (self w1) ∧
    besides_registry (self w1) = besides_registry (self w) ∧
    ∀ n, callbacks (self w1) !! n =
           match callbacks (self w) !! n with
           | Some h => Some h
           | None => if decide (n ∈ subs) then Some VNone else None
           end.
Proof.
  intros H. rewrite list_subscriptions_run in H.
  destruct (_get_data _ (outside w)) as [[resp|e] o]; [|discriminate].
  destruct (subscriptions resp) as [[subs|type]|] eqn:Hsubs; [|discriminate..].
  destruct (note_subscriptions_run subs (set_outside o w)) as (w' & Hrun & Ho & Hb & Hl).
  rewrite Hrun in H.
  destruct (first_unhashable subs) as [type|] eqn:Hfirst; [discriminate|].
  inversion H; subst.
  exists resp, (names_before subs). rewrite Ho, <- (names_before_all subs Hfirst).
  repeat split; assumption.
Qed.

(** When [list_subscriptions] raises, nothing of the plugin object but the
    registry has changed, and one of four things has happened.  The request
    raised, and that is the exception.  The answer has no ["subscriptions"]
    key, and the exception is [KeyError].  The value under the key cannot be
    iterated, and the exception is [TypeError].  In these three cases the
    registry is untouched too.  Or the list holds an element that cannot be
    hashed, and the exception is [TypeError]: the names listed before that
    element have been entered in the registry, those after it have not. *)
Theorem list_subscriptions_failure (w : World Env) (e : Exn) :
  (list_subscriptions w).1.1 = Raise e ->
  let answer := (_get_data "plugin/subscription/list" (outside w)).1 in
  let w1 := (list_subscriptions w).1.2 in
  besides_registry (self w1) = besides_registry (self w) ∧
  ((answer = Raise e ∧ self w1 = self w) ∨
   (∃ resp, answer = Ok resp ∧ subscriptions resp = None ∧
            e = KeyError "subscriptions" ∧ self w1 = self w) ∨
   (∃ resp type,
      answer = Ok resp ∧ subscriptions resp = Some (NotIterable type) ∧
      e = TypeError ("'" +:+ type +:+ "' object is not iterable") ∧
      self w1 = self w) ∨
   (∃ resp names type rest,
      answer = Ok resp ∧
      subscriptions resp =
        Some (Iterable ((Name <$> names) ++ Unhashable type :: rest)) ∧
      e = TypeError ("unhashable type: '" +:+ type +:+ "'") ∧
      ∀ n, callbacks (self w1) !! n =
             match callbacks (self w) !! n with
             | Some h => Some h
             | None => if decide (n ∈ names) then Some VNone else None
             end)).
Proof.
  cbv zeta. rewrite list_subscriptions_run.
  destruct (_get_data _ (outside w)) as [[resp|e'] o]; simpl.
  - destruct (subscriptions resp) as [[subs|type]|] eqn:Hsubs; simpl.
    + destruct (note_subscriptions_run subs (set_outside o w))
        as (w' & Hrun & _ & Hb & Hl).
      rewrite Hrun.
      destruct (first_unhashable subs) as [type|] eqn:Hfirst; simpl; [|discriminate].
      intros [= <-]. split; [exact Hb|]. right. right. right.
      destruct (names_before_split subs type Hfirst) as [rest Hrest].
      exists resp, (names_before subs), type, rest.
      split; [reflexivity|]. split; [rewrite <- Hrest; exact Hsubs|].
      split; [reflexivity|exact Hl].
    + intros [= <-]. split; [reflexivity|]. right. right. left.
      exists resp, type. repeat split. exact Hsubs.
    + intros [= <-]. split; [reflexivity|]. right. left.
      exists resp. repeat split. exact Hsubs.
  - intros [= <-]. split; [reflexivity|]. left. split; reflexivity.
Qed.

(** An answer of the broker that lacks the key the plugin reads makes the
    method raise [KeyError] with that key, after the one request, before any
    handler is called and with the plugin object untouched. *)
Theorem malformed_answer_raises_KeyError (w : World Env) (resp : Response)
    (o : Outside Env) :
  (_get_data "plugin/message/list" (outside w) = (Ok resp, o) ->
   messages resp = None ->
   _poll w =
     (Raise (KeyError "messages"), set_outside o w,
      [EvGet "plugin/message/list" (Ok resp)])) ∧
  (_get_data "plugin/transaction/list" (outside w) = (Ok resp, o) ->
   transactions resp = None ->
   _handle_transactions w =
     (Raise (KeyError "transactions"), set_outside o w,
      [EvGet "plugin/transaction/list" (Ok resp)])) ∧
  (_get_data "plugin/subscription/list" (outside w) = (Ok resp, o) ->
   subscriptions resp = None ->
   list_subscriptions w =
     (Raise (KeyError "subscriptions"), set_outside o w,
      [EvGet "plugin/subscription/list" (Ok resp)])).
Proof.
  repeat split; intros Hget Hkey.
  - unfold _poll, bind, get, outside_call, getitem. rewrite Hget, Hkey. reflexivity.
  - unfold _handle_transactions, bind, get, outside_call, getitem.
    rewrite Hget, Hkey. reflexivity.
  - rewrite list_subscriptions_run, Hget, Hkey. reflexivity.
Qed.

Lemma run_op_frame (op : Op) (w : World Env) :
  besides_registry (self (run_op op w).1.2) = besides_registry (self w).
Proof.
  destruct op as [messages|names|]; simpl.
  - unfold subscribe.
    refine (for_each_invariant
              (fun w' _ => besides_registry (self w') = besides_registry (self w))
              subscribe_entry messages _ w [] eq_refl).
    intros x _ w' _ Hw'. rewrite subscribe_entry_run.
    destruct (_post_data _ _ (outside w')) as [[v|e] o]; exact Hw'.
  - unfold unsubscribe.
    refine (for_each_invariant
              (fun w' _ => besides_registry (self w') = besides_registry (self w))
              unsubscribe_name names _ w [] eq_refl).
    intros x _ w' _ Hw'. rewrite unsubscribe_name_run.
    destruct (callbacks (self w') !! x) as [h|]; [|exact Hw'].
    destruct (_post_data _ _ (outside w')) as [[v|e] o]; exact Hw'.
  - unfold bind. rewrite list_subscriptions_run.
    destruct (_get_data _ (outside w)) as [[resp|e] o]; [|reflexivity].
    destruct (subscriptions resp) as [[subs|type]|]; [|reflexivity..].
    destruct (note_subscriptions_run subs (set_outside o w)) as (w' & Hrun & _ & Hb & _).
    rewrite Hrun. destruct (first_unhashable subs); exact Hb.
Qed.

(** Whatever the application does with [subscribe], [unsubscribe] and
    [list_subscriptions], and whatever they raise, nothing of the plugin
    object but the registry changes: not the wildcard, not the transaction
    slot, not the running flag, not the timer. *)
Theorem registry_operations_leave_the_rest (ops : list Op) (w : World Env) :
  besides_registry (self (run_ops ops w).1) = besides_registry (self w).
Proof.
  revert w. induction ops as [|op ops IH]; intros w; [reflexivity|].
  simpl. pose proof (run_op_frame op w) as H1.
  destruct (run_op op w) as [[r w1] e1]. simpl in H1.
  specialize (IH w1). destruct (run_ops ops w1) as [w2 e2]. simpl in *.
  congruence.
Qed.

End ListingMore.

(** ** The transaction slot *)

Section SlotMore.
Context {Env Responses : Type} {X : Externals Env Responses}.

Lemma clear_transaction_callback_run (w : World Env) :
  clear_transaction_callback w =
    match _post_data "plugin/unsubscribe" {["message_name" := VStr "transaction"]}
            (outside w) with
    | (Ok v, o) =>
        (Ok tt, set_self (set_transaction_callback VNone (self w)) (set_outside o w),
         [EvPost "plugin/unsubscribe" {["message_name" := VStr "transaction"]} (Ok v)])
    | (Raise e, o) =>
        (Raise e, set_outside o w,
         [EvPost "plugin/unsubscribe" {["message_name" := VStr "transaction"]} (Raise e)])
    end.
Proof.
  unfold clear_transaction_callback, bind. rewrite post_run.
  destruct (_post_data _ _ (outside w)) as [[v|e] o]; reflexivity.
Qed.

Lemma register_transaction_callback_run (cb : Val) (w : World Env) :
  callable cb = true ->
  register_transaction_callback cb w =
    match _post_data "plugin/subscribe" {["message_name" := VStr "transaction"]}
            (outside w) with
    | (Ok v, o) =>
        (Ok tt, set_self (set_transaction_callback cb (self w)) (set_outside o w),
         [EvPost "plugin/subscribe" {["message_name" := VStr "transaction"]} (Ok v)])
    | (Raise e, o) =>
        (Raise e, set_outside o w,
         [EvPost "plugin/subscribe" {["message_name" := VStr "transaction"]} (Raise e)])
    end.
Proof.
  intros Hc. unfold register_transaction_callback. rewrite Hc. simpl.
  unfold bind. rewrite post_run.
  destruct (_post_data _ _ (outside w)) as [[v|e] o]; reflexivity.
Qed.

(** Once [clear_transaction_callback] has returned, the slot holds [None],
    the rest of the plugin object is as it was, and transaction records are
    dropped: whatever the batch, no handler is called and the processor
    returns [True]. *)
Theorem clear_transaction_callback_stops_handling (w w1 : World Env) e1
    (items : list Loc) :
  clear_transaction_callback w = (Ok tt, w1, e1) ->
  transaction_callback (self w1) = VNone ∧
  besides_transaction_callback (self w1) = besides_transaction_callback (self w) ∧
  process_transactions items w1 = (Ok true, w1, []).
Proof.
  rewrite clear_transaction_callback_run.
  destruct (_post_data _ _ (outside w)) as [[v|e] o]; [|discriminate].
  intros [= <- <-]. repeat split.
  apply process_transactions_no_handler. reflexivity.
Qed.

(** When the broker refuses the request, [register_transaction_callback] and
    [clear_transaction_callback] raise what the transport raised and the
    plugin object, the slot included, is as it was. *)
Theorem transaction_request_failure_keeps_slot (cb : Val) (w : World Env)
    (e : Exn) (o : Outside Env) :
  (callable cb = true ->
   _post_data "plugin/subscribe" {["message_name" := VStr "transaction"]} (outside w)
     = (Raise e, o) ->
   register_transaction_callback cb w =
     (Raise e, set_outside o w,
      [EvPost "plugin/subscribe" {["message_name" := VStr "transaction"]} (Raise e)])) ∧
  (_post_data "plugin/unsubscribe" {["message_name" := VStr "transaction"]} (outside w)
     = (Raise e, o) ->
   clear_transaction_callback w =
     (Raise e, set_outside o w,
      [EvPost "plugin/unsubscribe" {["message_name" := VStr "transaction"]} (Raise e)])).
Proof.
  split.
  - intros Hc Hpost. rewrite (register_transaction_callback_run cb w Hc), Hpost.
    reflexivity.
  - intros Hpost. rewrite clear_transaction_callback_run, Hpost. reflexivity.
Qed.

(** Registering a callback in an empty slot and clearing it again gives back
    the plugin object one started from. *)
Theorem register_clear_round_trip (cb : Val) (w w1 w2 : World Env) e1 e2 :
  transaction_callback (self w) = VNone ->
  register_transaction_callback cb w = (Ok tt, w1, e1) ->
  clear_transaction_callback w1 = (Ok tt, w2, e2) ->
  self w2 = self w ∧ transaction_callback (self w1) = cb ∧ callable cb = true.
Proof.
  intros Hslot Hreg Hclear.
  destruct (callable cb) eqn:Hc.
  - rewrite (register_transaction_callback_run cb w Hc) in Hreg.
    destruct (_post_data _ _ (outside w)) as [[v|e] o]; [|discriminate].
    inversion Hreg; subst. rewrite clear_transaction_callback_run in Hclear.
    destruct (_post_data _ _ _) as [[v'|e'] o']; [|discriminate].
    inversion Hclear; subst. simpl. repeat split.
    destruct (self w). simpl in *. subst. reflexivity.
  - unfold register_transaction_callback in Hreg. rewrite Hc in Hreg. discriminate.
Qed.

Lemma run_slot_op_inv (op : SlotOp) (w : World Env) :
  slot_ok (transaction_callback (self w)) ->
  slot_ok (transaction_callback (self (run_slot_op op w).1.2)) ∧
  besides_transaction_callback (self (run_slot_op op w).1.2) =
    besides_transaction_callback (self w).
Proof.
  intros Hok. destruct op as [cb|]; simpl.
  - destruct (callable cb) eqn:Hc.
    + rewrite (register_transaction_callback_run cb w Hc).
      destruct (_post_data _ _ (outside w)) as [[v|e] o]; simpl.
      * split; [right; exact Hc|reflexivity].
      * split; [exact Hok|reflexivity].
    + unfold register_transaction_callback. rewrite Hc. simpl.
      split; [exact Hok|reflexivity].
  - rewrite clear_transaction_callback_run.
    destruct (_post_data _ _ (outside w)) as [[v|e] o]; simpl.
    + split; [left; reflexivity|reflexivity].
    + split; [exact Hok|reflexivity].
Qed.

(** Whatever the application does with [register_transaction_callback] and
    [clear_transaction_callback], and whatever they raise, the slot holds
    [None] or a callable, as it did before, and nothing else of the plugin
    object changes. *)
Theorem transaction_slot_stays_well_formed (ops : list SlotOp) (w : World Env) :
  slot_ok (transaction_callback (self w)) ->
  slot_ok (transaction_callback (self (run_slot_ops ops w).1)) ∧
  besides_transaction_callback (self (run_slot_ops ops w).1) =
    besides_transaction_callback (self w).
Proof.
  revert w. induction ops as [|op ops IH]; intros w Hok; [split; [exact Hok|reflexivity]|].
  simpl. destruct (run_slot_op_inv op w Hok) as [H1 H2].
  destruct (run_slot_op op w) as [[r w1] e1]. simpl in *.
  destruct (IH w1 H1) as [H3 H4].
  destruct (run_slot_ops ops w1) as [w2 e2]. simpl in *.
  split; [exact H3|congruence].
Qed.

End SlotMore.

(** ** [_dispatch], case by case *)

Section DispatchMore.
Context {Env Responses : Type} {X : Externals Env Responses}.

(** A name whose entry in the registry is not callable: [None] gives
    [PluginPollError] naming the message, anything else gives the
    [TypeError] of the call.  Nothing is called, the wildcard is not tried
    even when there is one, and the payload has been enriched. *)
Theorem dispatch_registered_not_callable (m : Message) (w : World Env) (v : Val) :
  callbacks (self w) !! message_name m = Some v ->
  callable v = false ->
  dispatch_message m w =
    (Raise (if is_None v
            then PluginPollError
                   ("No callback registered for message: <" +:+ message_name m +:+ ">")
            else TypeError ("'" +:+ type_name v +:+ "' object is not callable")),
     enriched m w, []).
Proof.
  intros Hreg Hc. rewrite dispatch_message_run.
  unfold route, try_except, bind, call, gets, ret, raise.
  rewrite callbacks_getitem_run, enriched_self, Hreg.
  destruct v; try discriminate; simpl;
    rewrite callbacks_getitem_run, enriched_self, Hreg; reflexivity.
Qed.

(** A name missing from the registry: the wildcard is tried when its truth
    value is true.  A callable wildcard whose truth value is true is called
    once on the enriched payload: what it returns is dropped, a [TypeError]
    it raises comes out as [PluginPollError] "Wildcard Callback is not a
    callable", any other exception comes out as it is.  A wildcard that is
    true but not callable gives the same [PluginPollError] with nothing
    called.  A wildcard whose truth value is false, be it [None] or a
    callable object that is false, is not called: the message is passed
    over with its payload enriched. *)
Theorem dispatch_wildcard_outcome (m : Message) (w w1 : World Env) (g : FunId)
    (r : Result Val) :
  callbacks (self w) !! message_name m = None ->
  (wildcard_callback (self w) = VFun g ->
   truthy (VFun g) = true ->
   call_fun g (message m) (enriched m w) = (r, w1) ->
   dispatch_message m w =
     (match r with
      | Ok _ => Ok tt
      | Raise (TypeError _) =>
          Raise (PluginPollError "Wildcard Callback is not a callable")
      | Raise e => Raise e
      end,
      w1,
      [EvCall Wildcard g (message m)
         (enriched_payload m (heap (outside w) (message m))) r])) ∧
  (callable (wildcard_callback (self w)) = false ->
   truthy (wildcard_callback (self w)) = true ->
   dispatch_message m w =
     (Raise (PluginPollError "Wildcard Callback is not a callable"),
      enriched m w, [])) ∧
  (truthy (wildcard_callback (self w)) = false ->
   dispatch_message m w = (Ok tt, enriched m w, [])).
Proof.
  intros Hreg. split; [|split].
  - intros Hwc Ht Hcall. rewrite dispatch_message_run, <- enriched_payload_at.
    unfold route, try_except, bind, call, gets, ret, raise.
    rewrite callbacks_getitem_run, enriched_self, Hreg. simpl.
    rewrite Hwc. simpl in *. rewrite Ht, Hcall.
    destruct r as [v|[]]; reflexivity.
  - intros Hc Ht. rewrite dispatch_message_run.
    unfold route, try_except, bind, call, gets, ret, raise.
    rewrite callbacks_getitem_run, enriched_self, Hreg. simpl. rewrite Ht.
    destruct (wildcard_callback (self w)); try discriminate; reflexivity.
  - intros Ht. rewrite dispatch_message_run.
    apply route_unregistered_no_wildcard; [exact Hreg|].
    rewrite enriched_self. exact Ht.
Qed.

(** A name with a callable handler.  When the handler returns, whatever it
    returns, the message is done and the loop goes on.  When it raises
    anything but [KeyError], the same exception leaves [_dispatch], provided
    the registry still holds something other than [None] under the name. *)
Theorem dispatch_handler_outcome (m : Message) (w w1 : World Env) (f : FunId)
    (r : Result Val) :
  callbacks (self w) !! message_name m = Some (VFun f) ->
  call_fun f (message m) (enriched m w) = (r, w1) ->
  match r with
  | Ok _ =>
      dispatch_message m w =
        (Ok tt, w1,
         [EvCall (Registered (message_name m)) f (message m)
            (enriched_payload m (heap (outside w) (message m))) r])
  | Raise e =>
      (∀ k, e ≠ KeyError k) ->
      (∃ v, callbacks (self w1) !! message_name m = Some v ∧ is_None v = false) ->
      dispatch_message m w =
        (Raise e, w1,
         [EvCall (Registered (message_name m)) f (message m)
            (enriched_payload m (heap (outside w) (message m))) r])
  end.
Proof.
  intros Hreg Hcall. rewrite dispatch_message_run, <- enriched_payload_at.
  unfold route, try_except, bind, call, gets, ret, raise.
  rewrite callbacks_getitem_run, enriched_self, Hreg. simpl. rewrite Hcall.
  destruct r as [v|e]; [reflexivity|].
  intros Hk (v' & Hreg1 & Hv'). destruct e; simpl; try reflexivity.
  - exfalso. eapply Hk. reflexivity.
  - rewrite callbacks_getitem_run, Hreg1. simpl. rewrite Hv'. reflexivity.
Qed.

(** The [except TypeError] clause looks at the registry as the handler left
    it.  A handler that raises [TypeError] after putting [None] under its own
    name is reported as missing ([PluginPollError]); one that raises
    [TypeError] after removing its name makes [_dispatch] raise [KeyError]
    with the name of the message. *)
Theorem dispatch_handler_TypeError_after_unregistering (m : Message)
    (w w1 : World Env) (f : FunId) (s : string) :
  callbacks (self w) !! message_name m = Some (VFun f) ->
  call_fun f (message m) (enriched m w) = (Raise (TypeError s), w1) ->
  (callbacks (self w1) !! message_name m = Some VNone ->
   (dispatch_message m w).1.1 =
     Raise (PluginPollError
              ("No callback registered for message: <" +:+ message_name m +:+ ">"))) ∧
  (callbacks (self w1) !! message_name m = None ->
   (dispatch_message m w).1.1 = Raise (KeyError (message_name m))).
Proof.
  intros Hreg Hcall. rewrite dispatch_message_run.
  unfold route, try_except, bind, call, gets, ret, raise.
  rewrite callbacks_getitem_run, enriched_self, Hreg. simpl. rewrite Hcall. simpl.
  rewrite callbacks_getitem_run.
  split; intros Hreg1; rewrite Hreg1; reflexivity.
Qed.

Lemma dispatch_message_skips (m : Message) (w : World Env) :
  callbacks (self w) !! message_name m = None ->
  wildcard_callback (self w) = VNone ->
  dispatch_message m w = (Ok tt, enriched m w, []).
Proof.
  intros Hreg Hwc. rewrite dispatch_message_run.
  apply route_unregistered_no_wildcard.
  - exact Hreg.
  - rewrite enriched_self, Hwc. reflexivity.
Qed.

(** A batch none of whose names is in the registry, with no wildcard:
    nothing is called and nothing raised; the plugin object and every other
    mapping of the heap are untouched; and when the messages carry distinct
    payload mappings, each payload ends up with its own envelope keys. *)
Theorem dispatch_skips_unregistered_batch (ms : list Message) (w : World Env) :
  (∀ m, m ∈ ms -> callbacks (self w) !! message_name m = None) ->
  wildcard_callback (self w) = VNone ->
  ∃ w1,
    for_each dispatch_message ms w = (Ok tt, w1, []) ∧
    self w1 = self w ∧
    env (outside w1) = env (outside w) ∧
    (∀ l, l ∉ message <$> ms -> heap (outside w1) l = heap (outside w) l) ∧
    (NoDup (message <$> ms) ->
     ∀ m, m ∈ ms ->
          heap (outside w1) (message m) =
            enriched_payload m (heap (outside w) (message m))).
Proof.
  revert w. induction ms as [|m ms IH]; intros w Hreg Hwc.
  - exists w. repeat split. intros _ m Hm. apply elem_of_nil in Hm. contradiction.
  - assert (Hm : dispatch_message m w = (Ok tt, enriched m w, [])).
    { apply dispatch_message_skips; [|exact Hwc]. apply Hreg. apply list_elem_of_here. }
    destruct (IH (enriched m w)) as (w1 & Hrun & Hself & Henv & Hframe & Hnd).
    { intros m' Hm'. rewrite enriched_self. apply Hreg.
      apply list_elem_of_further. exact Hm'. }
    { rewrite enriched_self. exact Hwc. }
    exists w1. rewrite for_each_cons_run, Hm, Hrun. simpl.
    split; [reflexivity|]. split; [exact Hself|]. split; [exact Henv|]. split.
    + intros l Hl. simpl in Hl. rewrite Hframe.
      * apply enriched_elsewhere. intros ->. apply Hl. apply list_elem_of_here.
      * intros Hc. apply Hl. apply list_elem_of_further. exact Hc.
    + intros Hdistinct m' Hm'. simpl in Hdistinct.
      inversion Hdistinct as [|? ? Hfresh Hrest]; subst.
      apply elem_of_cons in Hm' as [->|Hm'].
      * rewrite Hframe by exact Hfresh. apply enriched_payload_at.
      * rewrite (Hnd Hrest m' Hm'). f_equal. apply enriched_elsewhere.
        intros Heq. apply Hfresh. rewrite <- Heq.
        apply list_elem_of_fmap. exists m'. split; [reflexivity|exact Hm'].
Qed.

(** What [_dispatch] leaves undone.  When [pre_dispatch_messages] says no,
    it returns [False] with the world as the hook left it: no payload is
    enriched and nothing is called.  When a message raises, [_dispatch]
    raises the same exception with the world as that message left it: the
    messages after it are neither enriched nor routed, and
    [post_dispatch_messages] is not run. *)
Theorem dispatch_stops_short (pre post : list Message) (m : Message)
    (w w0 w1 w2 : World Env) (h : Val) e1 e2 (e : Exn) :
  _try_hook "pre_dispatch_messages" w = (Ok h, w0) ->
  (truthy h = false ->
   _dispatch (pre ++ m :: post) w =
     (Ok false, w0, [EvHook "pre_dispatch_messages" (Ok h)])) ∧
  (truthy h = true ->
   for_each dispatch_message pre w0 = (Ok tt, w1, e1) ->
   dispatch_message m w1 = (Raise e, w2, e2) ->
   _dispatch (pre ++ m :: post) w =
     (Raise e, w2, EvHook "pre_dispatch_messages" (Ok h) :: e1 ++ e2)).
Proof.
  intros Hhook. split.
  - intros Ht. unfold _dispatch, bind at 1, try_hook, user_call.
    rewrite Hhook. cbv beta iota. rewrite Ht. reflexivity.
  - intros Ht Hpre Hm. unfold _dispatch, bind at 1, try_hook, user_call.
    rewrite Hhook. cbv beta iota. rewrite Ht. cbv beta iota delta [negb].
    unfold bind at 1.
    rewrite (for_each_app _ _ _ _ _ _ Hpre), for_each_cons_run, Hm. reflexivity.
Qed.

Lemma hooks_of_app (e1 e2 : list Event) :
  hooks_of (e1 ++ e2) = hooks_of e1 ++ hooks_of e2.
Proof. apply omap_app. Qed.

Lemma hooks_of_emits {A} (m : M Env A) (w : World Env) :
  emits not_hook m -> hooks_of (m w).2 = [].
Proof.
  intros Hm. specialize (Hm w). induction Hm as [|ev evs Hev _ IH]; [reflexivity|].
  destruct ev; simpl; try exact IH. exfalso. apply Hev. reflexivity.
Qed.

Lemma dispatch_loop_hooks (message_data : list Message) (w : World Env) :
  hooks_of (for_each dispatch_message message_data w).2 = [].
Proof.
  apply hooks_of_emits. apply emits_for_each. intros m.
  apply emits_dispatch_message. discriminate.
Qed.

(** [_dispatch] returns [False] only when one of its two hooks has just said
    no.  When it returns [True], both hooks have run, in order, and said yes;
    when it raises, no hook has said no. *)
Theorem dispatch_result (message_data : list Message) (w : World Env) :
  match (_dispatch message_data w).1.1 with
  | Ok true =>
      no_veto (_dispatch message_data w).2 ∧
      hooks_of (_dispatch message_data w).2 = dispatch_hooks
  | Ok false =>
      ∃ init last,
        (_dispatch message_data w).2 = init ++ [last] ∧
        hook_false last = true ∧ no_veto init
  | Raise _ => no_veto (_dispatch message_data w).2
  end.
Proof.
  destruct (_dispatch message_data w) as [[r w'] evs] eqn:H. simpl.
  unfold _dispatch, bind at 1, try_hook at 1, user_call in H.
  destruct (_try_hook "pre_dispatch_messages" w) as [[h|e] w0];
    [|inversion H; subst; repeat constructor].
  cbv beta iota in H. destruct (truthy h) eqn:Hh; cbv beta iota delta [negb] in H.
  2: { inversion H; subst. exists [], (EvHook "pre_dispatch_messages" (Ok h)).
       split; [reflexivity|].
       split; [simpl; rewrite Hh; reflexivity|constructor]. }
  unfold bind at 1 in H.
  pose proof (dispatch_loop_no_veto message_data w0) as Hq.
  pose proof (dispatch_loop_hooks message_data w0) as Hn.
  destruct (for_each dispatch_message message_data w0) as [[[[]|e] w1] e1];
    simpl in Hq, Hn; cbv beta iota in H.
  2: { inversion H; subst.
       constructor; [simpl; rewrite Hh; reflexivity|exact Hq]. }
  unfold bind, try_hook, user_call in H.
  destruct (_try_hook "post_dispatch_messages" w1) as [[h'|e] w2];
    cbv beta iota in H.
  2: { inversion H; subst. constructor; [simpl; rewrite Hh; reflexivity|].
       apply Forall_app. split; [exact Hq|]. repeat constructor. }
  destruct (truthy h') eqn:Hh'; cbv beta iota delta [negb ret] in H;
    inversion H; subst.
  - split.
    + constructor; [simpl; rewrite Hh; reflexivity|].
      apply Forall_app. split; [exact Hq|].
      repeat constructor. simpl. rewrite Hh'. reflexivity.
    + simpl. rewrite hooks_of_app, Hn. reflexivity.
  - exists (EvHook "pre_dispatch_messages" (Ok h) :: e1),
           (EvHook "post_dispatch_messages" (Ok h')).
    split; [reflexivity|]. split.
    + simpl. rewrite Hh'. reflexivity.
    + constructor; [simpl; rewrite Hh; reflexivity|exact Hq].
Qed.

End DispatchMore.

(** ** One pass of the loop *)

Section PassMore.
Context {Env Responses : Type} {X : Externals Env Responses}.

(** The loop body is the timer check followed by [polling_pass]. *)
Lemma cycle_run (w : World Env) :
  cycle w =
    if ((time_ms (outside w)).1 - time_last_poll (self w) <? poll_wait (self w))%Z
    then (Ok Next, set_outside (time_ms (outside w)).2 w, [])
    else polling_pass (time_ms (outside w)).1 (set_outside (time_ms (outside w)).2 w).
Proof.
  unfold cycle.
  rewrite (bind_ok now _ w (time_ms (outside w)).1 (set_outside (time_ms (outside w)).2 w))
    by (unfold now; destruct (time_ms (outside w)); reflexivity).
  rewrite (bind_ok (gets time_last_poll) _ _ _ _ eq_refl).
  rewrite (bind_ok (gets poll_wait) _ _ _ _ eq_refl).
  simpl self.
  destruct (_ <? _)%Z; reflexivity.
Qed.

Lemma bind_head {A B} (m : M Env A) (k : A -> M Env B) (w w1 : World Env)
    r0 ev es :
  m w = (r0, w1, ev :: es) -> ∃ rest, (bind m k w).2 = ev :: rest.
Proof.
  intros H. unfold bind. rewrite H. destruct r0 as [a|e].
  - destruct (k a w1) as [[r w2] e2]. eexists. reflexivity.
  - eexists. reflexivity.
Qed.

Lemma try_hook_run (name : string) (w : World Env) :
  try_hook name w =
    ((_try_hook name w).1, (_try_hook name w).2, [EvHook name (_try_hook name w).1]).
Proof. unfold try_hook, user_call. destruct (_try_hook name w). reflexivity. Qed.

(** Before [poll_wait] milliseconds have passed since the last poll, a pass
    calls nothing and leaves the plugin object, timer included, as it was:
    only the clock has been read. *)
Theorem cycle_waits (w : World Env) (t : Z) (o : Outside Env) :
  time_ms (outside w) = (t, o) ->
  (t - time_last_poll (self w) < poll_wait (self w))%Z ->
  cycle w = (Ok Next, set_outside o w, []).
Proof.
  intros Ht Hlt. rewrite cycle_run, Ht. simpl.
  apply Z.ltb_lt in Hlt. rewrite Hlt. reflexivity.
Qed.

(** Once [poll_wait] milliseconds have passed, the pass first records the
    time of the poll and then runs [pre_poll_messages]: the hook is the first
    thing called and already sees the new [time_last_poll]; and when it says
    no, the pass ends there by [break], the timer reset all the same. *)
Theorem cycle_polls (w : World Env) (t : Z) (o : Outside Env) :
  time_ms (outside w) = (t, o) ->
  (poll_wait (self w) <= t - time_last_poll (self w))%Z ->
  let w0 := set_self (set_time_last_poll t (self w)) (set_outside o w) in
  (∃ rest,
     (cycle w).2 =
       EvHook "pre_poll_messages" (_try_hook "pre_poll_messages" w0).1 :: rest) ∧
  (∀ v w1,
     _try_hook "pre_poll_messages" w0 = (Ok v, w1) ->
     truthy v = false ->
     cycle w = (Ok Break, w1, [EvHook "pre_poll_messages" (Ok v)])).
Proof.
  intros Ht Hge w0. rewrite cycle_run, Ht. simpl.
  apply Z.ltb_ge in Hge. rewrite Hge.
  unfold polling_pass.
  rewrite (bind_ok (modify (set_time_last_poll t)) _ (set_outside o w) tt w0 eq_refl).
  split.
  - eapply bind_head. apply try_hook_run.
  - intros v w1 Hhook Hv. unfold bind at 1. rewrite try_hook_run, Hhook. simpl.
    rewrite Hv. reflexivity.
Qed.


(** *** The order of the hooks *)

Lemma runs_hooks_ret {A} (l : list string) (done : Result A -> Prop) (a : A) :
  l = [] ∨ ¬ done (Ok a) -> runs_hooks (Env := Env) l done (ret a).
Proof.
  intros H w. simpl. split; [apply prefix_nil|].
  intros Hd. destruct H as [->|H]; [reflexivity|contradiction].
Qed.

Lemma runs_hooks_quiet_bind {A B} (l : list string) (done : Result B -> Prop)
    (m : M Env A) (k : A -> M Env B) :
  emits not_hook m -> (∀ e, ¬ done (Raise e)) ->
  (∀ a, runs_hooks l done (k a)) ->
  runs_hooks l done (bind m k).
Proof.
  intros Hm Hraise Hk w. pose proof (hooks_of_emits m w Hm) as Hq.
  unfold bind. destruct (m w) as [[[a|e] w1] e1]; simpl in *.
  - specialize (Hk a w1). destruct (k a w1) as [[r w2] e2]; simpl in *.
    rewrite hooks_of_app, Hq. exact Hk.
  - rewrite Hq. split; [apply prefix_nil|]. intros Hd. destruct (Hraise e Hd).
Qed.

Lemma runs_hooks_guard {A} (l : list string) (done : Result A -> Prop)
    (name : string) (stop : A) (rest : M Env A) :
  ¬ done (Ok stop) -> (∀ e, ¬ done (Raise e)) ->
  runs_hooks l done rest ->
  runs_hooks (name :: l) done
    (h <- try_hook name ;; if negb (truthy h) then ret stop else rest).
Proof.
  intros Hstop Hraise Hrest w. unfold bind. rewrite try_hook_run.
  destruct (_try_hook name w) as [[v|e] w1]; simpl.
  - destruct (truthy v); simpl.
    + specialize (Hrest w1). destruct (rest w1) as [[r w2] e2]; simpl in *.
      destruct Hrest as [Hp Hd]. split.
      * apply prefix_cons. exact Hp.
      * intros H. rewrite (Hd H). reflexivity.
    + split; [apply prefix_cons, prefix_nil|]. intros H. contradiction.
  - split; [apply prefix_cons, prefix_nil|]. intros H. destruct (Hraise e H).
Qed.

Lemma runs_hooks_then {A B} (l1 l2 : list string) (done1 : Result A -> Prop)
    (done : Result B -> Prop) (m : M Env A) (k : A -> M Env B) :
  runs_hooks l1 done1 m ->
  (∀ e, ¬ done (Raise e)) ->
  (∀ a, done1 (Ok a) -> runs_hooks l2 done (k a)) ->
  (∀ a, done1 (Ok a) ∨
        ∀ w, hooks_of (k a w).2 = [] ∧ ¬ done (k a w).1.1) ->
  runs_hooks (l1 ++ l2) done (bind m k).
Proof.
  intros Hm Hraise Hk Hstop w. specialize (Hm w). unfold bind.
  destruct (m w) as [[[a|e] w1] e1]; simpl in *; destruct Hm as [Hp Hd].
  - destruct (Hstop a) as [Ha|Hs].
    + specialize (Hk a Ha w1). destruct (k a w1) as [[r w2] e2]; simpl in *.
      destruct Hk as [Hp2 Hd2]. rewrite hooks_of_app, (Hd Ha). split.
      * apply prefix_app. exact Hp2.
      * intros H. rewrite (Hd2 H). reflexivity.
    + specialize (Hs w1). destruct (k a w1) as [[r w2] e2]; simpl in *.
      destruct Hs as [He2 Hnd]. rewrite hooks_of_app, He2, app_nil_r. split.
      * apply prefix_app_r. exact Hp.
      * intros H. contradiction.
  - split; [apply prefix_app_r; exact Hp|]. intros H. destruct (Hraise e H).
Qed.

Lemma dispatch_runs_hooks (message_data : list Message) :
  runs_hooks dispatch_hooks (fun r => r = Ok true) (_dispatch message_data).
Proof.
  unfold _dispatch, dispatch_hooks.
  apply runs_hooks_guard; [discriminate|discriminate|].
  apply runs_hooks_quiet_bind; [|discriminate|intros _].
  { apply emits_for_each. intros m. apply emits_dispatch_message. discriminate. }
  apply runs_hooks_guard; [discriminate|discriminate|].
  apply runs_hooks_ret. left. reflexivity.
Qed.

Lemma polling_pass_runs_hooks (t : Z) :
  runs_hooks cycle_hooks (fun r => r = Ok Next) (polling_pass t).
Proof.
  unfold polling_pass, cycle_hooks.
  apply runs_hooks_quiet_bind; [apply emits_modify|discriminate|intros _].
  apply runs_hooks_guard; [discriminate|discriminate|].
  apply runs_hooks_quiet_bind;
    [apply emits_poll; discriminate|discriminate|intros message_data].
  apply runs_hooks_guard; [discriminate|discriminate|].
  apply (runs_hooks_then dispatch_hooks _ (fun r => r = Ok true));
    [apply dispatch_runs_hooks|discriminate| |].
  2: { intros [|]; [left; reflexivity|right].
       intros w. split; [reflexivity|discriminate]. }
  intros d [= ->]. simpl negb. cbv iota.
  apply runs_hooks_guard; [discriminate|discriminate|].
  apply runs_hooks_quiet_bind;
    [apply emits_handle_transactions; discriminate|discriminate|intros tr].
  destruct tr; simpl negb; cbv iota;
    [|apply runs_hooks_ret; right; discriminate].
  apply runs_hooks_guard; [discriminate|discriminate|].
  apply runs_hooks_guard; [discriminate|discriminate|].
  apply runs_hooks_quiet_bind;
    [apply emits_poll_responses; discriminate|discriminate|intros responses].
  apply runs_hooks_guard; [discriminate|discriminate|].
  apply runs_hooks_quiet_bind;
    [apply emits_dispatch_responses; discriminate|discriminate|intros dr].
  destruct (negb (truthy dr)); apply runs_hooks_ret;
    [right; discriminate|left; reflexivity].
Qed.

(** The calls of [_try_hook] that [start] and [_dispatch] make themselves in
    one pass come in the order of the text, each of the eight hook points at
    most once: the names passed are a prefix of the eight names of
    [cycle_hooks].  A pass that goes through to its end has either waited,
    calling nothing, or gone through all eight.  The hooks that
    [_poll_responses] and [_dispatch_responses] of the mixin may run inside
    are theirs and are not counted. *)
Theorem cycle_hooks_in_order (w : World Env) :
  hooks_of (cycle w).2 `prefix_of` cycle_hooks ∧
  ((cycle w).1.1 = Ok Next ->
   (cycle w).2 = [] ∨ hooks_of (cycle w).2 = cycle_hooks).
Proof.
  rewrite cycle_run. destruct (_ <? _)%Z.
  - split; [apply prefix_nil|]. intros _. left. reflexivity.
  - destruct (polling_pass_runs_hooks (time_ms (outside w)).1
                (set_outside (time_ms (outside w)).2 w)) as [Hp Hd].
    split; [exact Hp|]. intros H. right. apply Hd. exact H.
Qed.

End PassMore.

(** ** The loop and [start], pass by pass *)

Section StartMore.
Context {Env Responses : Type} {X : Externals Env Responses}.

Lemma poll_loop_step (n : nat) (w : World Env) :
  poll_loop (S n) w =
    if run_loop (self w) then
      match cycle w with
      | (Ok Next, w1, e1) =>
          ((poll_loop n w1).1.1, (poll_loop n w1).1.2, e1 ++ (poll_loop n w1).2)
      | (Ok Break, w1, e1) => (Ok Broke, w1, e1 ++ [])
      | (Ok (Return v), w1, e1) => (Ok (Returned v), w1, e1 ++ [])
      | (Raise e, w1, e1) => (Raise e, w1, e1)
      end
    else (Ok CondFalse, w, []).
Proof.
  simpl. rewrite (bind_ok (gets run_loop) _ w (run_loop (self w)) w eq_refl).
  destruct (run_loop (self w)); [|reflexivity].
  cbv beta iota delta [negb]. unfold bind. destruct (cycle w) as [[[[| |v]|e] w1] e1]; try reflexivity.
  destruct (poll_loop n w1) as [[r w2] e2]. reflexivity.
Qed.

Lemma guarded_loop_run (fuel : nat) (w : World Env) :
  guarded_loop fuel w =
    match poll_loop fuel w with
    | (Raise KeyboardInterrupt, w1, e1) => (Ok Interrupted, w1, e1 ++ [])
    | other => other
    end.
Proof.
  unfold guarded_loop, try_except.
  destruct (poll_loop fuel w) as [[[a|[]] w1] e1]; reflexivity.
Qed.

(** When [k] passes have gone through and the loop is still running, the
    loop goes on from where they left it. *)
Lemma poll_loop_passes (k n : nat) (w w1 : World Env) (e1 : list Event) :
  poll_loop k w = (Ok Unfinished, w1, e1) ->
  poll_loop (k + n) w =
    ((poll_loop n w1).1.1, (poll_loop n w1).1.2, e1 ++ (poll_loop n w1).2).
Proof.
  revert w e1. induction k as [|k IH]; intros w e1 H.
  - inversion H; subst. simpl. destruct (poll_loop n w1) as [[r w2] e2]. reflexivity.
  - rewrite poll_loop_step in H. change (S k + n) with (S (k + n)).
    rewrite poll_loop_step.
    destruct (run_loop (self w)); [|discriminate].
    destruct (cycle w) as [[[[| |v]|e] wa] ea]; try discriminate.
    destruct (poll_loop k wa) as [[r wb] eb] eqn:Hk. simpl in H.
    inversion H; subst. rewrite (IH _ _ Hk). simpl.
    rewrite app_assoc. reflexivity.
Qed.

(** [start] once [connect] and [list_subscriptions] have returned. *)
Lemma start_run (fuel : nat) (w w1 : World Env) (v0 : Val) (o0 : Outside Env)
    (cbs : gmap string Val) (e0 : list Event) :
  connect (outside w) = (Ok v0, o0) ->
  list_subscriptions (set_outside o0 w) = (Ok cbs, w1, e0) ->
  start fuel w =
    match guarded_loop fuel w1 with
    | (Ok (Returned v), w2, e2) =>
        (Ok (Finished v), w2, EvConnect (Ok v0) :: e0 ++ e2 ++ [])
    | (Ok Unfinished, w2, e2) => (Ok Running, w2, EvConnect (Ok v0) :: e0 ++ e2 ++ [])
    | (Ok _, w2, e2) =>
        (match (disconnect (outside w2)).1 with
         | Ok _ => Ok (Finished VNone)
         | Raise e => Raise e
         end,
         set_outside (disconnect (outside w2)).2 w2,
         EvConnect (Ok v0) :: e0 ++ e2 ++
           match (disconnect (outside w2)).1 with
           | Ok vd => [EvDisconnect (Ok vd)] ++ []
           | Raise e => [EvDisconnect (Raise e)]
           end)
    | (Raise e, w2, e2) => (Raise e, w2, EvConnect (Ok v0) :: e0 ++ e2)
    end.
Proof.
  intros Hc Hl. unfold start, bind at 1, outside_call at 1. rewrite Hc.
  cbv beta iota. unfold bind at 1. rewrite Hl. cbv beta iota.
  unfold bind at 1.
  destruct (guarded_loop fuel w1) as [[[le|e] w2] e2]; [|reflexivity].
  destruct le; try reflexivity;
    unfold bind, outside_call;
    destruct (disconnect (outside w2)) as [[vd|ed] od]; reflexivity.
Qed.

(** A stop request is heeded at the top of the next pass.  Whichever pass
    of the loop it is, the first or one after [k] others: when a pass that
    began with the flag up ends normally with the flag down (a handler or a
    hook called [stop]), that pass has run to its end, no further pass is
    begun, and [start] disconnects and returns [None]. *)
Theorem stop_ends_after_the_pass (k n : nat) (w w1 w2 w3 : World Env)
    (v0 vd : Val) (o0 od : Outside Env) (cbs : gmap string Val)
    (e0 e2 e3 : list Event) :
  connect (outside w) = (Ok v0, o0) ->
  list_subscriptions (set_outside o0 w) = (Ok cbs, w1, e0) ->
  poll_loop k w1 = (Ok Unfinished, w2, e2) ->
  run_loop (self w2) = true ->
  cycle w2 = (Ok Next, w3, e3) ->
  run_loop (self w3) = false ->
  disconnect (outside w3) = (Ok vd, od) ->
  poll_loop (k + S (S n)) w1 = (Ok CondFalse, w3, e2 ++ e3) ∧
  start (k + S (S n)) w =
    (Ok (Finished VNone), set_outside od w3,
     EvConnect (Ok v0) :: e0 ++ e2 ++ e3 ++ [EvDisconnect (Ok vd)]).
Proof.
  intros Hc Hl Hk Hup Hpass Hdown Hd.
  assert (Hloop : poll_loop (k + S (S n)) w1 = (Ok CondFalse, w3, e2 ++ e3)).
  { rewrite (poll_loop_passes _ _ _ _ _ Hk).
    rewrite poll_loop_step, Hup, Hpass, poll_loop_step, Hdown. simpl.
    rewrite app_nil_r. reflexivity. }
  split; [exact Hloop|].
  rewrite (start_run _ _ _ _ _ _ _ Hc Hl), guarded_loop_run, Hloop, Hd.
  simpl. rewrite <- !app_assoc. reflexivity.
Qed.

(** When [stop] was called before [start], so that the flag is down once the
    subscriptions are listed, [start] still connects and lists the
    subscriptions, then disconnects and returns [None]: no hook is run and
    nothing is polled. *)
Theorem start_when_stopped (n : nat) (w w1 : World Env) (v0 vd : Val)
    (o0 od : Outside Env) (cbs : gmap string Val) (e0 : list Event) :
  connect (outside w) = (Ok v0, o0) ->
  list_subscriptions (set_outside o0 w) = (Ok cbs, w1, e0) ->
  run_loop (self w1) = false ->
  disconnect (outside w1) = (Ok vd, od) ->
  start (S n) w =
    (Ok (Finished VNone), set_outside od w1,
     EvConnect (Ok v0) :: e0 ++ [EvDisconnect (Ok vd)]).
Proof.
  intros Hc Hl Hdown Hd.
  rewrite (start_run _ _ _ _ _ _ _ Hc Hl), guarded_loop_run, poll_loop_step,
    Hdown, Hd.
  reflexivity.
Qed.

(** When [connect] raises, [start] raises the same exception and nothing else
    is called.  When [list_subscriptions] raises, [start] raises the same
    exception: the loop is not entered and, although the session is open,
    [disconnect] is not called.  Both hold for [KeyboardInterrupt] too: the
    [try] of [start] does not cover its first two statements. *)
Theorem start_setup_failure (fuel : nat) (w : World Env) (e : Exn) :
  (∀ o0, connect (outside w) = (Raise e, o0) ->
         start fuel w = (Raise e, set_outside o0 w, [EvConnect (Raise e)])) ∧
  (∀ v0 o0 w1 e0,
     connect (outside w) = (Ok v0, o0) ->
     list_subscriptions (set_outside o0 w) = (Raise e, w1, e0) ->
     start fuel w = (Raise e, w1, EvConnect (Ok v0) :: e0)).
Proof.
  split.
  - intros o0 Hc. unfold start, bind at 1, outside_call at 1. rewrite Hc. reflexivity.
  - intros v0 o0 w1 e0 Hc Hl. unfold start, bind at 1, outside_call at 1. rewrite Hc.
    cbv beta iota. unfold bind at 1. rewrite Hl. reflexivity.
Qed.

(** An exception that leaves a pass of the loop, the first or one after [k]
    others.  [KeyboardInterrupt] is caught: [start] disconnects and returns
    [None].  Any other exception leaves [start] as it is, and [disconnect]
    is not called. *)
Theorem start_exception_in_loop (k n : nat) (w w1 w2 w3 : World Env) (v0 : Val)
    (o0 : Outside Env) (cbs : gmap string Val) (e0 e2 e3 : list Event) (e : Exn) :
  connect (outside w) = (Ok v0, o0) ->
  list_subscriptions (set_outside o0 w) = (Ok cbs, w1, e0) ->
  poll_loop k w1 = (Ok Unfinished, w2, e2) ->
  run_loop (self w2) = true ->
  cycle w2 = (Raise e, w3, e3) ->
  (e = KeyboardInterrupt ->
   ∀ vd od, disconnect (outside w3) = (Ok vd, od) ->
     start (k + S n) w =
       (Ok (Finished VNone), set_outside od w3,
        EvConnect (Ok v0) :: e0 ++ e2 ++ e3 ++ [EvDisconnect (Ok vd)])) ∧
  (e ≠ KeyboardInterrupt ->
   start (k + S n) w = (Raise e, w3, EvConnect (Ok v0) :: e0 ++ e2 ++ e3)).
Proof.
  intros Hc Hl Hk Hup Hpass.
  assert (Hloop : poll_loop (k + S n) w1 = (Raise e, w3, e2 ++ e3)).
  { rewrite (poll_loop_passes _ _ _ _ _ Hk).
    rewrite poll_loop_step, Hup, Hpass. reflexivity. }
  rewrite (start_run _ _ _ _ _ _ _ Hc Hl), guarded_loop_run, Hloop.
  split.
  - intros -> vd od Hd. rewrite Hd. simpl. rewrite app_nil_r, <- !app_assoc.
    reflexivity.
  - intros Hne. destruct e; try reflexivity. contradiction.
Qed.

(** When the transaction handler, a callable whose truth value is true,
    raises on a record, the processor raises the same exception at once: the
    trace ends with that call and no later record is passed to the
    handler. *)
Theorem process_transactions_handler_raises (pre post : list Loc) (item : Loc)
    (w w1 w2 : World Env) e1 (f : FunId) (e : Exn) :
  for_return handle_transaction pre w = (Ok None, w1, e1) ->
  transaction_callback (self w1) = VFun f ->
  truthy (VFun f) = true ->
  call_fun f item w1 = (Raise e, w2) ->
  process_transactions (pre ++ item :: post) w =
    (Raise e, w2,
     e1 ++ [EvCall Transaction f item (heap (outside w1) item) (Raise e)]).
Proof.
  intros Hpre Hcb Ht Hcall.
  rewrite process_transactions_run, (for_return_app _ _ _ _ _ _ Hpre).
  rewrite for_return_cons, (handle_transaction_calls _ _ _ Hcb Ht), Hcall.
  reflexivity.
Qed.

End StartMore.

(** ** The further properties at work *)

(** [unsubscribe_removes] on a concrete plugin. *)
Lemma unsubscribe_removes_witness :
  let X := scripted quiet_broker in
  let w := world_of (with_callbacks [("a", VFun 1); ("b", VFun 0)] (fresh VNone)) in
  let w1 := (@unsubscribe _ _ X ["a"; "zzz"] w).1.2 in
  let e1 := (@unsubscribe _ _ X ["a"; "zzz"] w).2 in
  @unsubscribe _ _ X ["a"; "zzz"] w = (Ok tt, w1, e1) ∧
  callbacks (self w1) !! "a" = None ∧
  callbacks (self w1) !! "b" = callbacks (self w) !! "b" ∧
  besides_registry (self w1) = besides_registry (self w).
Proof.
  cbv zeta. split; [reflexivity|].
  destruct (@unsubscribe_removes _ _ (scripted quiet_broker) ["a"; "zzz"]
              (world_of (with_callbacks [("a", VFun 1); ("b", VFun 0)] (fresh VNone)))
              _ _ eq_refl) as (Hin & Hout & Hrest & _).
  split; [apply Hin; apply list_elem_of_here|].
  split; [|exact Hrest].
  apply Hout. intros H.
  apply elem_of_cons in H as [H|H]; [discriminate|].
  apply elem_of_cons in H as [H|H]; [discriminate|].
  apply elem_of_nil in H. exact H.
Defined.

(** [unsubscribe_is_idempotent] on a concrete plugin. *)
Lemma unsubscribe_is_idempotent_witness :
  let X := scripted quiet_broker in
  let w := world_of (with_callbacks [("a", VFun 1); ("b", VFun 0)] (fresh VNone)) in
  let w1 := (@unsubscribe _ _ X ["a"; "b"] w).1.2 in
  let e1 := (@unsubscribe _ _ X ["a"; "b"] w).2 in
  @unsubscribe _ _ X ["a"; "b"] w = (Ok tt, w1, e1) ∧
  @unsubscribe _ _ X ["a"; "b"] w1 = (Ok tt, w1, []).
Proof.
  cbv zeta. split; [reflexivity|].
  eapply (proj2 (@unsubscribe_is_idempotent _ _ (scripted quiet_broker) ["a"; "b"]
                   (world_of (with_callbacks [("a", VFun 1); ("b", VFun 0)] (fresh VNone)))
                   _ _)).
  reflexivity.
Defined.

(** [unsubscribe_failure_keeps_entry] on a concrete plugin. *)
Lemma unsubscribe_failure_keeps_entry_witness :
  let X := scripted Workshop.stubborn_broker in
  let w := world_of (with_callbacks [("a", VFun 1); ("grade_update", VFun 1)]
                       (fresh VNone)) in
  let w1 := (@unsubscribe _ _ X ["a"] w).1.2 in
  let e1 := (@unsubscribe _ _ X ["a"] w).2 in
  let e := OtherException "ConnectionError" "refused" in
  @unsubscribe _ _ X ["a"] w = (Ok tt, w1, e1) ∧
  callbacks (self w1) !! "grade_update" = Some (VFun 1) ∧
  @_post_data _ _ X "plugin/unsubscribe" {["message_name" := VStr "grade_update"]}
    (outside w1) = (Raise e, outside w1) ∧
  (@unsubscribe _ _ X (["a"] ++ "grade_update" :: ["b"]) w).1.1 = Raise e ∧
  callbacks (self (@unsubscribe _ _ X (["a"] ++ "grade_update" :: ["b"]) w).1.2)
    !! "grade_update" = Some (VFun 1).
Proof.
  cbv zeta. split; [reflexivity|]. split; [vm_compute; reflexivity|].
  split; [reflexivity|].
  destruct (@unsubscribe_failure_keeps_entry _ _ (scripted Workshop.stubborn_broker)
              ["a"] ["b"] "grade_update" (VFun 1)
              (world_of (with_callbacks [("a", VFun 1); ("grade_update", VFun 1)]
                           (fresh VNone)))
              _ _ _ _ eq_refl ltac:(vm_compute; reflexivity) eq_refl) as [H1 H2].
  split; [rewrite H1; reflexivity|exact H2].
Defined.

(** [subscribe_records] on a concrete plugin. *)
Lemma subscribe_records_witness :
  let X := scripted quiet_broker in
  let w := world_of (with_callbacks [("old", VFun 0)] (fresh VNone)) in
  let messages := [("grade_update", VFun 1); ("quiz_result", VFun 3)] in
  let w1 := (@subscribe _ _ X messages w).1.2 in
  let e1 := (@subscribe _ _ X messages w).2 in
  NoDup messages.*1 ∧
  @subscribe _ _ X messages w = (Ok tt, w1, e1) ∧
  callbacks (self w1) !! "quiz_result" = Some (VFun 3) ∧
  callbacks (self w1) !! "old" = callbacks (self w) !! "old".
Proof.
  cbv zeta.
  assert (Hnd : NoDup [("grade_update", VFun 1); ("quiz_result", VFun 3)].*1).
  { apply (bool_decide_unpack _). vm_compute. exact I. }
  split; [exact Hnd|]. split; [reflexivity|].
  destruct (@subscribe_records _ _ (scripted quiet_broker)
              [("grade_update", VFun 1); ("quiz_result", VFun 3)]
              (world_of (with_callbacks [("old", VFun 0)] (fresh VNone)))
              _ _ Hnd eq_refl) as (Hin & Hout & _).
  split.
  - apply Hin. apply list_elem_of_further, list_elem_of_here.
  - apply Hout. apply (bool_decide_unpack _). vm_compute. exact I.
Defined.

(** [subscribe_unsubscribe_round_trip] on a concrete plugin. *)
Lemma subscribe_unsubscribe_round_trip_witness :
  let X := scripted quiet_broker in
  let w := world_of (with_callbacks [("old", VFun 0)] (fresh VNone)) in
  let messages := [("grade_update", VFun 1); ("quiz_result", VFun 3)] in
  let w1 := (@subscribe _ _ X messages w).1.2 in
  let w2 := (@unsubscribe _ _ X messages.*1 w1).1.2 in
  (∀ n, n ∈ messages.*1 -> callbacks (self w) !! n = None) ∧
  self w2 = self w.
Proof.
  cbv zeta.
  assert (Hnew : ∀ n, n ∈ [("grade_update", VFun 1); ("quiz_result", VFun 3)].*1 ->
            callbacks (self (world_of (with_callbacks [("old", VFun 0)] (fresh VNone))))
              !! n = None).
  { intros n Hn. simpl in Hn.
    apply elem_of_cons in Hn as [->|Hn]; [vm_compute; reflexivity|].
    apply elem_of_cons in Hn as [->|Hn]; [vm_compute; reflexivity|].
    apply elem_of_nil in Hn. contradiction. }
  split; [exact Hnew|].
  exact (@subscribe_unsubscribe_round_trip _ _ (scripted quiet_broker)
           [("grade_update", VFun 1); ("quiz_result", VFun 3)]
           (world_of (with_callbacks [("old", VFun 0)] (fresh VNone)))
           _ _ _ _ Hnew eq_refl eq_refl).
Defined.

(** [list_subscriptions_merges] on a concrete plugin. *)
Lemma list_subscriptions_merges_witness :
  let X := scripted Workshop.stubborn_broker in
  let w := world_of (with_callbacks [("grade_update", VFun 1)] (fresh VNone)) in
  let w1 := (@list_subscriptions _ _ X w).1.2 in
  @list_subscriptions _ _ X w =
    (Ok (callbacks (self w1)), w1, (@list_subscriptions _ _ X w).2) ∧
  callbacks (self w1) !! "grade_update" = Some (VFun 1) ∧
  callbacks (self w1) !! "quiz_result" = Some VNone ∧
  callbacks (self w1) !! "unknown_event" = None.
Proof.
  cbv zeta. split; [reflexivity|].
  destruct (@list_subscriptions_merges _ _ (scripted Workshop.stubborn_broker)
              (world_of (with_callbacks [("grade_update", VFun 1)] (fresh VNone)))
              _ _ _ eq_refl) as (resp & subs & Hget & Hsubs & _ & _ & _ & Hl).
  injection Hget as <-. simpl in Hsubs. injection Hsubs as Hsubs.
  destruct subs as [|a [|b [|c subs]]]; try discriminate.
  injection Hsubs as <- <-.
  rewrite !Hl. repeat split; vm_compute; reflexivity.
Defined.

(** [list_subscriptions_failure] on a concrete plugin: the broker lists
    ["quiz_result"], then an array, then ["unknown_event"]. *)
Lemma list_subscriptions_failure_witness :
  let X := Workshop.garbled
             (Iterable [Name "quiz_result"; Unhashable "list"; Name "unknown_event"]) in
  let w := world_of (with_callbacks [("grade_update", VFun 1)] (fresh VNone)) in
  let w1 := (@list_subscriptions _ _ X w).1.2 in
  (@list_subscriptions _ _ X w).1.1 = Raise (TypeError "unhashable type: 'list'") ∧
  besides_registry (self w1) = besides_registry (self w) ∧
  callbacks (self w1) !! "grade_update" = Some (VFun 1) ∧
  callbacks (self w1) !! "quiz_result" = Some VNone ∧
  callbacks (self w1) !! "unknown_event" = None.
Proof.
  cbv zeta. split; [reflexivity|].
  destruct (@list_subscriptions_failure _ _
              (Workshop.garbled
                 (Iterable [Name "quiz_result"; Unhashable "list"; Name "unknown_event"]))
              (world_of (with_callbacks [("grade_update", VFun 1)] (fresh VNone)))
              (TypeError "unhashable type: 'list'") eq_refl) as [Hb Hcases].
  split; [exact Hb|].
  destruct Hcases as [[Ha _]|[(resp & Ha & Hs & _)|[(resp & type & Ha & Hs & _)
                     |(resp & names & type & rest & Ha & Hs & _ & Hl)]]].
  - discriminate.
  - injection Ha as <-. discriminate.
  - injection Ha as <-. discriminate.
  - injection Ha as <-. simpl in Hs. injection Hs as Hs.
    destruct names as [|a [|b names]]; try discriminate.
    injection Hs as <- _ _.
    rewrite !Hl. repeat split; vm_compute; reflexivity.
Defined.

(** [malformed_answer_raises_KeyError] on a concrete plugin. *)
Lemma malformed_answer_raises_KeyError_witness :
  let w := world_of (fresh VNone) in
  let resp := {| subscriptions := None; messages := None; transactions := None |} in
  @_get_data _ _ Workshop.malformed "plugin/message/list" (outside w)
    = (Ok resp, outside w) ∧
  messages resp = None ∧
  @_poll _ _ Workshop.malformed w =
    (Raise (KeyError "messages"), set_outside (outside w) w,
     [EvGet "plugin/message/list" (Ok resp)]) ∧
  @_handle_transactions _ _ Workshop.malformed w =
    (Raise (KeyError "transactions"), set_outside (outside w) w,
     [EvGet "plugin/transaction/list" (Ok resp)]) ∧
  @list_subscriptions _ _ Workshop.malformed w =
    (Raise (KeyError "subscriptions"), set_outside (outside w) w,
     [EvGet "plugin/subscription/list" (Ok resp)]).
Proof.
  cbv zeta. split; [reflexivity|]. split; [reflexivity|].
  destruct (@malformed_answer_raises_KeyError _ _ Workshop.malformed
              (world_of (fresh VNone))
              {| subscriptions := None; messages := None; transactions := None |}
              (outside (world_of (fresh VNone)))) as (H1 & H2 & H3).
  split; [apply H1; reflexivity|]. split; [apply H2; reflexivity|].
  apply H3; reflexivity.
Defined.

(** [clear_transaction_callback_stops_handling] on a concrete plugin. *)
Lemma clear_transaction_callback_stops_handling_witness :
  let X := scripted quiet_broker in
  let w := world_of (set_transaction_callback (VFun 3) (fresh VNone)) in
  let w1 := (@clear_transaction_callback _ _ X w).1.2 in
  @clear_transaction_callback _ _ X w =
    (Ok tt, w1, (@clear_transaction_callback _ _ X w).2) ∧
  transaction_callback (self w1) = VNone ∧
  @process_transactions _ _ X [1%positive; 2%positive] w1 = (Ok true, w1, []).
Proof.
  cbv zeta. split; [reflexivity|].
  destruct (@clear_transaction_callback_stops_handling _ _ (scripted quiet_broker)
              (world_of (set_transaction_callback (VFun 3) (fresh VNone)))
              _ _ [1%positive; 2%positive] eq_refl) as (H1 & _ & H3).
  split; [exact H1|exact H3].
Defined.

(** [transaction_request_failure_keeps_slot] on a concrete plugin. *)
Lemma transaction_request_failure_keeps_slot_witness :
  let X := scripted Workshop.stubborn_broker in
  let w := world_of (set_transaction_callback (VFun 3) (fresh VNone)) in
  let e := OtherException "ConnectionError" "refused" in
  callable (VFun 1) = true ∧
  @_post_data _ _ X "plugin/subscribe" {["message_name" := VStr "transaction"]}
    (outside w) = (Raise e, outside w) ∧
  @register_transaction_callback _ _ X (VFun 1) w =
    (Raise e, set_outside (outside w) w,
     [EvPost "plugin/subscribe" {["message_name" := VStr "transaction"]} (Raise e)]) ∧
  @clear_transaction_callback _ _ X w =
    (Raise e, set_outside (outside w) w,
     [EvPost "plugin/unsubscribe" {["message_name" := VStr "transaction"]} (Raise e)]).
Proof.
  cbv zeta. split; [reflexivity|]. split; [reflexivity|].
  destruct (@transaction_request_failure_keeps_slot _ _ (scripted Workshop.stubborn_broker)
              (VFun 1) (world_of (set_transaction_callback (VFun 3) (fresh VNone)))
              (OtherException "ConnectionError" "refused")
              (outside (world_of (set_transaction_callback (VFun 3) (fresh VNone)))))
    as [H1 H2].
  split; [apply H1; reflexivity|apply H2; reflexivity].
Defined.

(** [register_clear_round_trip] on a concrete plugin. *)
Lemma register_clear_round_trip_witness :
  let X := scripted quiet_broker in
  let w := world_of (fresh VNone) in
  let w1 := (@register_transaction_callback _ _ X (VFun 1) w).1.2 in
  let w2 := (@clear_transaction_callback _ _ X w1).1.2 in
  transaction_callback (self w) = VNone ∧
  self w2 = self w ∧ transaction_callback (self w1) = VFun 1.
Proof.
  cbv zeta. split; [reflexivity|].
  destruct (@register_clear_round_trip _ _ (scripted quiet_broker) (VFun 1)
              (world_of (fresh VNone)) _ _ _ _ eq_refl eq_refl eq_refl)
    as (H1 & H2 & _).
  split; [exact H1|exact H2].
Defined.

(** [transaction_slot_stays_well_formed] on a concrete plugin. *)
Lemma transaction_slot_stays_well_formed_witness :
  let X := scripted quiet_broker in
  let ops := [OpRegister (VStr "handler"); OpRegister (VFun 1); OpClear;
              OpRegister (VFun 3); OpRegister VNone] in
  let w := world_of (fresh VNone) in
  slot_ok (transaction_callback (self w)) ∧
  slot_ok (transaction_callback (self (@run_slot_ops _ _ X ops w).1)) ∧
  besides_transaction_callback (self (@run_slot_ops _ _ X ops w).1) =
    besides_transaction_callback (self w).
Proof.
  cbv zeta.
  assert (H : slot_ok (transaction_callback (self (world_of (fresh VNone))))).
  { left. reflexivity. }
  split; [exact H|].
  exact (@transaction_slot_stays_well_formed _ _ (scripted quiet_broker) _ _ H).
Defined.

(** [dispatch_registered_not_callable] on a concrete plugin. *)
Lemma dispatch_registered_not_callable_witness :
  let X := scripted quiet_broker in
  let w := world_of (with_callbacks [("grade_update", VStr "handler")] (fresh (VFun 1))) in
  callbacks (self w) !! message_name grade_update = Some (VStr "handler") ∧
  callable (VStr "handler") = false ∧
  @dispatch_message _ _ X grade_update w =
    (Raise (TypeError "'str' object is not callable"), enriched grade_update w, []).
Proof.
  cbv zeta. split; [vm_compute; reflexivity|]. split; [reflexivity|].
  apply (@dispatch_registered_not_callable _ _ (scripted quiet_broker) grade_update
           _ (VStr "handler")); [vm_compute; reflexivity|reflexivity].
Defined.

(** [dispatch_wildcard_outcome] on a concrete plugin: a wildcard that raises
    [TypeError], a string as wildcard, and a callable wildcard whose truth
    value is false. *)
Lemma dispatch_wildcard_outcome_witness :
  let X := Workshop.scripted quiet_broker in
  let w := world_of (fresh (VFun 10)) in
  let w' := world_of (fresh (VStr "log")) in
  let w'' := world_of (fresh Workshop.falsy_callable) in
  (callbacks (self w) !! message_name unknown_event = None ∧
   wildcard_callback (self w) = VFun 10 ∧
   truthy (VFun 10) = true ∧
   @dispatch_message _ _ X unknown_event w =
     (Raise (PluginPollError "Wildcard Callback is not a callable"),
      enriched unknown_event w,
      [EvCall Wildcard 10 1%positive
         (enriched_payload unknown_event (heap (outside w) 1%positive))
         (Raise (TypeError "unsupported operand"))])) ∧
  (callable (wildcard_callback (self w')) = false ∧
   truthy (wildcard_callback (self w')) = true ∧
   @dispatch_message _ _ X unknown_event w' =
     (Raise (PluginPollError "Wildcard Callback is not a callable"),
      enriched unknown_event w', [])) ∧
  (callable (wildcard_callback (self w'')) = true ∧
   truthy (wildcard_callback (self w'')) = false ∧
   @dispatch_message _ _ X unknown_event w'' =
     (Ok tt, enriched unknown_event w'', [])).
Proof.
  cbv zeta. split; [|split].
  - split; [vm_compute; reflexivity|]. split; [reflexivity|]. split; [reflexivity|].
    apply (proj1 (@dispatch_wildcard_outcome _ _ (Workshop.scripted quiet_broker)
                    unknown_event (world_of (fresh (VFun 10)))
                    (enriched unknown_event (world_of (fresh (VFun 10)))) 10
                    (Raise (TypeError "unsupported operand"))
                    ltac:(vm_compute; reflexivity))); reflexivity.
  - split; [reflexivity|]. split; [reflexivity|].
    apply (proj1 (proj2 (@dispatch_wildcard_outcome _ _ (Workshop.scripted quiet_broker)
                    unknown_event (world_of (fresh (VStr "log")))
                    (world_of (fresh (VStr "log"))) 0 (Ok VNone)
                    ltac:(vm_compute; reflexivity)))); reflexivity.
  - split; [reflexivity|]. split; [reflexivity|].
    apply (proj2 (proj2 (@dispatch_wildcard_outcome _ _ (Workshop.scripted quiet_broker)
                    unknown_event (world_of (fresh Workshop.falsy_callable))
                    (world_of (fresh Workshop.falsy_callable)) 0 (Ok VNone)
                    ltac:(vm_compute; reflexivity)))); reflexivity.
Defined.

(** [dispatch_handler_outcome] on a concrete plugin. *)
Lemma dispatch_handler_outcome_witness :
  let X := Workshop.scripted quiet_broker in
  let w := world_of (with_callbacks [("grade_update", VFun 13)] (fresh (VFun 1))) in
  let w' := world_of (with_callbacks [("grade_update", VFun 0)] (fresh (VFun 1))) in
  (callbacks (self w) !! message_name grade_update = Some (VFun 13) ∧
   @dispatch_message _ _ X grade_update w =
     (Raise (OtherException "ValueError" "bad score"), enriched grade_update w,
      [EvCall (Registered "grade_update") 13 1%positive
         (enriched_payload grade_update (heap (outside w) 1%positive))
         (Raise (OtherException "ValueError" "bad score"))])) ∧
  @dispatch_message _ _ X grade_update w' =
    (Ok tt, enriched grade_update w',
     [EvCall (Registered "grade_update") 0 1%positive
        (enriched_payload grade_update (heap (outside w') 1%positive))
        (Ok VNone)]).
Proof.
  cbv zeta. split.
  - split; [vm_compute; reflexivity|].
    apply (@dispatch_handler_outcome _ _ (Workshop.scripted quiet_broker) grade_update
             (world_of (with_callbacks [("grade_update", VFun 13)] (fresh (VFun 1))))
             (enriched grade_update
                (world_of (with_callbacks [("grade_update", VFun 13)] (fresh (VFun 1)))))
             13 (Raise (OtherException "ValueError" "bad score"))
             ltac:(vm_compute; reflexivity) eq_refl).
    + intros k. discriminate.
    + exists (VFun 13). split; [vm_compute; reflexivity|reflexivity].
  - exact (@dispatch_handler_outcome _ _ (Workshop.scripted quiet_broker) grade_update
             (world_of (with_callbacks [("grade_update", VFun 0)] (fresh (VFun 1))))
             (enriched grade_update
                (world_of (with_callbacks [("grade_update", VFun 0)] (fresh (VFun 1)))))
             0 (Ok VNone) ltac:(vm_compute; reflexivity) eq_refl).
Defined.

(** [dispatch_handler_TypeError_after_unregistering] on a concrete plugin. *)
Lemma dispatch_handler_TypeError_after_unregistering_witness :
  let X := Workshop.scripted quiet_broker in
  let w := world_of (with_callbacks [("grade_update", VFun 11)] (fresh VNone)) in
  let w' := world_of (with_callbacks [("grade_update", VFun 12)] (fresh VNone)) in
  (@dispatch_message _ _ X grade_update w).1.1 =
    Raise (PluginPollError "No callback registered for message: <grade_update>") ∧
  (@dispatch_message _ _ X grade_update w').1.1 = Raise (KeyError "grade_update").
Proof.
  cbv zeta. split.
  - apply (proj1 (@dispatch_handler_TypeError_after_unregistering _ _
                    (Workshop.scripted quiet_broker) grade_update
                    (world_of (with_callbacks [("grade_update", VFun 11)] (fresh VNone)))
                    _ 11 "unsupported operand"
                    ltac:(vm_compute; reflexivity) eq_refl)).
    vm_compute. reflexivity.
  - apply (proj2 (@dispatch_handler_TypeError_after_unregistering _ _
                    (Workshop.scripted quiet_broker) grade_update
                    (world_of (with_callbacks [("grade_update", VFun 12)] (fresh VNone)))
                    _ 12 "unsupported operand"
                    ltac:(vm_compute; reflexivity) eq_refl)).
    vm_compute. reflexivity.
Defined.

(** [dispatch_skips_unregistered_batch] on a concrete plugin. *)
Lemma dispatch_skips_unregistered_batch_witness :
  let X := scripted quiet_broker in
  let ms := [unknown_event; Workshop.quiz_result] in
  let w := Workshop.world_of (fresh VNone) in
  (∀ m, m ∈ ms -> callbacks (self w) !! message_name m = None) ∧
  wildcard_callback (self w) = VNone ∧
  NoDup (message <$> ms) ∧
  ∃ w1,
    @for_each _ _ (@dispatch_message _ _ X) ms w = (Ok tt, w1, []) ∧
    self w1 = self w ∧
    heap (outside w1) 1%positive =
      enriched_payload unknown_event (heap (outside w) 1%positive) ∧
    heap (outside w1) 2%positive =
      enriched_payload Workshop.quiz_result (heap (outside w) 2%positive).
Proof.
  cbv zeta.
  assert (Hreg : ∀ m, m ∈ [unknown_event; Workshop.quiz_result] ->
            callbacks (self (Workshop.world_of (fresh VNone))) !! message_name m = None).
  { intros m _. apply lookup_empty. }
  assert (Hnd : NoDup (message <$> [unknown_event; Workshop.quiz_result])).
  { apply (bool_decide_unpack _). vm_compute. exact I. }
  split; [exact Hreg|]. split; [reflexivity|]. split; [exact Hnd|].
  destruct (@dispatch_skips_unregistered_batch _ _ (scripted quiet_broker)
              [unknown_event; Workshop.quiz_result]
              (Workshop.world_of (fresh VNone)) Hreg eq_refl)
    as (w1 & Hrun & Hself & _ & _ & Hpay).
  exists w1. split; [exact Hrun|]. split; [exact Hself|]. split.
  - apply (Hpay Hnd unknown_event). apply list_elem_of_here.
  - apply (Hpay Hnd Workshop.quiz_result).
    apply list_elem_of_further, list_elem_of_here.
Defined.

(** [dispatch_stops_short] on a concrete plugin. *)
Lemma dispatch_stops_short_witness :
  let X := scripted quiet_broker in
  let V := scripted (veto "pre_dispatch_messages") in
  let w := Workshop.world_of
             (with_callbacks [("grade_update", VFun 1); ("unknown_event", VNone)]
                (fresh VNone)) in
  let batch := [grade_update] ++ unknown_event :: [Workshop.quiz_result] in
  (@_dispatch _ _ V batch w = (Ok false, w, [EvHook "pre_dispatch_messages" (Ok (VBool false))])) ∧
  ((@_dispatch _ _ X batch w).1.1 =
     Raise (PluginPollError "No callback registered for message: <unknown_event>") ∧
   heap (outside (@_dispatch _ _ X batch w).1.2) 2%positive = heap (outside w) 2%positive ∧
   hooks_of (@_dispatch _ _ X batch w).2 = ["pre_dispatch_messages"]).
Proof.
  cbv zeta.
  set (w := Workshop.world_of
              (with_callbacks [("grade_update", VFun 1); ("unknown_event", VNone)]
                 (fresh VNone))).
  split.
  - apply (proj1 (@dispatch_stops_short _ _ (scripted (veto "pre_dispatch_messages"))
                    [grade_update] [Workshop.quiz_result] unknown_event
                    w w w w (VBool false) [] [] KeyboardInterrupt eq_refl)).
    reflexivity.
  - pose proof (proj2 (@dispatch_stops_short _ _ (scripted quiet_broker)
                    [grade_update] [Workshop.quiz_result] unknown_event
                    w w
                    (@for_each _ _ (@dispatch_message _ _ (scripted quiet_broker))
                       [grade_update] w).1.2
                    (@dispatch_message _ _ (scripted quiet_broker) unknown_event
                       (@for_each _ _ (@dispatch_message _ _ (scripted quiet_broker))
                          [grade_update] w).1.2).1.2
                    (VBool true)
                    (@for_each _ _ (@dispatch_message _ _ (scripted quiet_broker))
                       [grade_update] w).2
                    []
                    (PluginPollError "No callback registered for message: <unknown_event>")
                    eq_refl) eq_refl eq_refl eq_refl) as H.
    rewrite H. repeat split; vm_compute; reflexivity.
Defined.

(** [cycle_waits] on a concrete plugin. *)
Lemma cycle_waits_witness :
  let X := scripted quiet_broker in
  let w := world_of (set_time_last_poll 950 (fresh VNone)) in
  @time_ms _ _ X (outside w) = (1000%Z, {| heap := heap (outside w); env := 1100%Z |}) ∧
  (1000 - time_last_poll (self w) < poll_wait (self w))%Z ∧
  @cycle _ _ X w =
    (Ok Next, set_outside {| heap := heap (outside w); env := 1100%Z |} w, []).
Proof.
  cbv zeta. split; [reflexivity|]. split; [reflexivity|].
  apply (@cycle_waits _ _ (scripted quiet_broker) _ 1000%Z); reflexivity.
Defined.

(** [cycle_polls] on a concrete plugin. *)
Lemma cycle_polls_witness :
  let X := scripted (veto "pre_poll_messages") in
  let w := world_of (fresh VNone) in
  let o := {| heap := heap (outside w); env := 1100%Z |} in
  let w0 := set_self (set_time_last_poll 1000 (self w)) (set_outside o w) in
  @time_ms _ _ X (outside w) = (1000%Z, o) ∧
  (poll_wait (self w) <= 1000 - time_last_poll (self w))%Z ∧
  @cycle _ _ X w = (Ok Break, w0, [EvHook "pre_poll_messages" (Ok (VBool false))]) ∧
  time_last_poll (self w0) = 1000%Z.
Proof.
  cbv zeta. split; [reflexivity|]. split; [discriminate|].
  split; [|reflexivity].
  apply (proj2 (@cycle_polls _ _ (scripted (veto "pre_poll_messages"))
                  (world_of (fresh VNone)) 1000%Z _ eq_refl ltac:(discriminate))
           (VBool false)); reflexivity.
Defined.

(** [cycle_hooks_in_order] on a concrete plugin. *)
Lemma cycle_hooks_in_order_witness :
  let X := scripted quiet_broker in
  let w := world_of (fresh VNone) in
  (@cycle _ _ X w).1.1 = Ok Next ∧
  hooks_of (@cycle _ _ X w).2 = cycle_hooks.
Proof.
  cbv zeta. split; [vm_compute; reflexivity|].
  destruct (proj2 (@cycle_hooks_in_order _ _ (scripted quiet_broker)
                     (world_of (fresh VNone))) ltac:(vm_compute; reflexivity))
    as [Hnil|Hall]; [|exact Hall].
  vm_compute in Hnil. discriminate.
Defined.

(** [stop_ends_after_the_pass] on a concrete plugin: the transaction handler
    calls [stop] in the second pass of the loop. *)
Lemma stop_ends_after_the_pass_witness :
  let X := Workshop.scripted ledger_broker in
  let w := world_of (set_transaction_callback (VFun 14) (fresh VNone)) in
  let w1 := (@list_subscriptions _ _ X (set_outside (outside w) w)).1.2 in
  let e0 := (@list_subscriptions _ _ X (set_outside (outside w) w)).2 in
  let w2 := (@poll_loop _ _ X 1 w1).1.2 in
  let e2 := (@poll_loop _ _ X 1 w1).2 in
  let w3 := (@cycle _ _ X w2).1.2 in
  let e3 := (@cycle _ _ X w2).2 in
  (@poll_loop _ _ X 1 w1).1.1 = Ok Unfinished ∧
  length (List.filter is_call e2) = 1 ∧
  run_loop (self w2) = true ∧
  (@cycle _ _ X w2).1.1 = Ok Next ∧
  run_loop (self w3) = false ∧
  @start _ _ X 8 w =
    (Ok (Finished VNone), set_outside (outside w3) w3,
     EvConnect (Ok VNone) :: e0 ++ e2 ++ e3 ++ [EvDisconnect (Ok VNone)]).
Proof.
  cbv zeta. split; [vm_compute; reflexivity|]. split; [vm_compute; reflexivity|].
  split; [vm_compute; reflexivity|]. split; [vm_compute; reflexivity|].
  split; [vm_compute; reflexivity|].
  edestruct (@stop_ends_after_the_pass _ _ (Workshop.scripted ledger_broker) 1 5
               (world_of (set_transaction_callback (VFun 14) (fresh VNone))))
    as [_ H]; [reflexivity|reflexivity|vm_compute; reflexivity|vm_compute; reflexivity|
               vm_compute; reflexivity|vm_compute; reflexivity|reflexivity|].
  etransitivity; [exact H|]. vm_compute. reflexivity.
Defined.

(** [start_when_stopped] on a concrete plugin. *)
Lemma start_when_stopped_witness :
  let X := scripted quiet_broker in
  let w := world_of (stop (fresh VNone)) in
  let w1 := (@list_subscriptions _ _ X (set_outside (outside w) w)).1.2 in
  let e0 := (@list_subscriptions _ _ X (set_outside (outside w) w)).2 in
  run_loop (self w1) = false ∧
  @start _ _ X 4 w =
    (Ok (Finished VNone), set_outside (outside w1) w1,
     EvConnect (Ok VNone) :: e0 ++ [EvDisconnect (Ok VNone)]).
Proof.
  cbv zeta. split; [reflexivity|].
  erewrite (@start_when_stopped _ _ (scripted quiet_broker) 3
              (world_of (stop (fresh VNone))));
    [reflexivity|reflexivity|reflexivity|reflexivity|reflexivity].
Defined.

(** [start_setup_failure] on a concrete plugin. *)
Lemma start_setup_failure_witness :
  let w := world_of (fresh VNone) in
  @start _ _ Workshop.unreachable 4 w =
    (Raise (OtherException "ConnectionError" "unreachable"), set_outside (outside w) w,
     [EvConnect (Raise (OtherException "ConnectionError" "unreachable"))]) ∧
  @start _ _ Workshop.malformed 4 w =
    (Raise (KeyError "subscriptions"), set_outside (outside w) (set_outside (outside w) w),
     [EvConnect (Ok VNone);
      EvGet "plugin/subscription/list"
        (Ok {| subscriptions := None; messages := None; transactions := None |})]).
Proof.
  cbv zeta. split.
  - apply (proj1 (@start_setup_failure _ _ Workshop.unreachable 4
                    (world_of (fresh VNone)) _)). reflexivity.
  - apply (proj2 (@start_setup_failure _ _ Workshop.malformed 4
                    (world_of (fresh VNone)) _) VNone (outside (world_of (fresh VNone))));
      reflexivity.
Defined.

(** [start_exception_in_loop] on a concrete plugin: the transaction handler
    raises in the second pass of the loop, [KeyboardInterrupt] for the one
    plugin and a [ValueError] for the other. *)
Lemma start_exception_in_loop_witness :
  let X := Workshop.scripted ledger_broker in
  let wi := world_of (set_transaction_callback (VFun 15) (fresh VNone)) in
  let wk := world_of (set_transaction_callback (VFun 16) (fresh VNone)) in
  let wi1 := (@list_subscriptions _ _ X (set_outside (outside wi) wi)).1.2 in
  let wk1 := (@list_subscriptions _ _ X (set_outside (outside wk) wk)).1.2 in
  ((@poll_loop _ _ X 1 wi1).1.1 = Ok Unfinished ∧
   (@cycle _ _ X (@poll_loop _ _ X 1 wi1).1.2).1.1 = Raise KeyboardInterrupt ∧
   (@start _ _ X 5 wi).1.1 = Ok (Finished VNone) ∧
   List.filter is_disconnect (@start _ _ X 5 wi).2 = [EvDisconnect (Ok VNone)]) ∧
  ((@poll_loop _ _ X 1 wk1).1.1 = Ok Unfinished ∧
   (@cycle _ _ X (@poll_loop _ _ X 1 wk1).1.2).1.1 =
     Raise (OtherException "ValueError" "bad score") ∧
   (@start _ _ X 5 wk).1.1 = Raise (OtherException "ValueError" "bad score") ∧
   List.filter is_disconnect (@start _ _ X 5 wk).2 = []).
Proof.
  cbv zeta.
  edestruct (@start_exception_in_loop _ _ (Workshop.scripted ledger_broker) 1 3
               (world_of (set_transaction_callback (VFun 15) (fresh VNone))))
    as [Hi _]; [reflexivity|reflexivity|vm_compute; reflexivity|vm_compute; reflexivity|
                vm_compute; reflexivity|].
  edestruct (@start_exception_in_loop _ _ (Workshop.scripted ledger_broker) 1 3
               (world_of (set_transaction_callback (VFun 16) (fresh VNone))))
    as [_ Hk]; [reflexivity|reflexivity|vm_compute; reflexivity|vm_compute; reflexivity|
                vm_compute; reflexivity|].
  split.
  - split; [vm_compute; reflexivity|]. split; [vm_compute; reflexivity|].
    specialize (Hi eq_refl VNone _ eq_refl). cbn [Nat.add] in Hi. rewrite Hi.
    split; vm_compute; reflexivity.
  - split; [vm_compute; reflexivity|]. split; [vm_compute; reflexivity|].
    specialize (Hk ltac:(discriminate)). cbn [Nat.add] in Hk. rewrite Hk.
    split; vm_compute; reflexivity.
Defined.

(** [process_transactions_handler_raises] on a concrete plugin. *)
Lemma process_transactions_handler_raises_witness :
  let X := scripted quiet_broker in
  let w := world_of (set_transaction_callback (VFun 2) (fresh VNone)) in
  transaction_callback (self w) = VFun 2 ∧
  truthy (VFun 2) = true ∧
  @process_transactions _ _ X ([] ++ 1%positive :: [2%positive]) w =
    (Raise (KeyError "score"), w,
     [] ++ [EvCall Transaction 2 1%positive (heap (outside w) 1%positive)
              (Raise (KeyError "score"))]).
Proof.
  cbv zeta. split; [reflexivity|]. split; [reflexivity|].
  apply (@process_transactions_handler_raises _ _ (scripted quiet_broker)
           [] [2%positive] 1%positive); reflexivity.
Defined.
